(** * webGIS_for_GVI: the route-planning engine, embedded and verified

    A shallow embedding of the backend of the green-view routing service:
    the transit feed client ([sl_api_service.js]), the DGVI calculator
    ([dgvi_calculator.js]), the route and segment models ([route_plan.js],
    [route_segment_structures.js]) and the planner ([routing_engine.js]).

    Conventions of the embedding.
    - SQL [DOUBLE PRECISION] values and finite JavaScript numbers are exact
      rationals ([Q]); rounding is not modelled.  JavaScript numbers that can
      be [NaN] (arithmetic on [undefined]) are values of [JS.number].
    - SQL [NULL], JavaScript [null] and [undefined] are [None].
    - A [try]/[catch] is a function on [completion]: a body either returns
      normally or throws.
    - The database is a record of tables (lists of rows) and the queries
      are functions on it, embedded relation by relation.  The geometric
      operators of PostGIS and the path search of pgRouting are parameters
      ([DB.PostGIS], [PathSolver.Dijkstra]).
    - Pacing delays ([setTimeout]) and console logging have no effect on the
      values computed and are left out. *)

From Stdlib Require Import ZArith QArith Qabs Qminmax Lia Lqa.
From Stdlib Require Import String Ascii Sorted Qround.
From stdpp Require Import gmap strings list pretty.

Local Open Scope Z_scope.

(** ** Completions: normal return or thrown error *)

Inductive completion (A : Type) : Type :=
| Normal (a : A)
| Thrown (msg : string).
Arguments Normal {A} a.
Arguments Thrown {A} msg.

Definition try_catch {A} (body : completion A) (handler : string -> completion A)
  : completion A :=
  match body with
  | Normal a => Normal a
  | Thrown msg => handler msg
  end.

(** ** JavaScript numbers *)

Module JS.

(** A number is [NaN] or a finite value.  Infinities do not arise in the
    embedded code: every division is by a non-zero literal or is guarded by
    a strict comparison of its operands. *)
Inductive number : Type :=
| NaN
| Num (q : Q).

Definition lift2 (f : Q -> Q -> Q) (a b : number) : number :=
  match a, b with
  | Num x, Num y => Num (f x y)
  | _, _ => NaN
  end.

Definition add := lift2 Qplus.
Definition sub := lift2 Qminus.
Definition mul := lift2 Qmult.

(** [a / b]; a zero divisor is mapped to [NaN] (never exercised). *)
Definition div (a b : number) : number :=
  match a, b with
  | Num x, Num y => if Qeq_bool y 0 then NaN else Num (Qdiv x y)
  | _, _ => NaN
  end.

(** [a > b], [a >= b], [a <= b]: false as soon as one side is [NaN]. *)
Definition gt (a b : number) : bool :=
  match a, b with
  | Num x, Num y => negb (Qle_bool x y)
  | _, _ => false
  end.

Definition ge (a b : number) : bool :=
  match a, b with
  | Num x, Num y => Qle_bool y x
  | _, _ => false
  end.

Definition le (a b : number) : bool := ge b a.

(** [Math.max(a, b)] and [Math.min(a, b)]: [NaN] if either is [NaN]. *)
Definition max2 (a b : number) : number :=
  match a, b with
  | Num x, Num y => Num (if Qle_bool x y then y else x)
  | _, _ => NaN
  end.

Definition min2 (a b : number) : number :=
  match a, b with
  | Num x, Num y => Num (if Qle_bool x y then x else y)
  | _, _ => NaN
  end.

(** [Math.min(...xs)] and [Math.max(...xs)] on a non-empty array [x :: xs]. *)
Definition math_min (x : number) (xs : list number) : number :=
  fold_left min2 xs x.
Definition math_max (x : number) (xs : list number) : number :=
  fold_left max2 xs x.

(** Truthiness of a number: [NaN] and [0] are falsy. *)
Definition truthy (a : number) : bool :=
  match a with
  | NaN => false
  | Num x => negb (Qeq_bool x 0)
  end.

(** [a || d] on numbers. *)
Definition or_else (a d : number) : number :=
  if truthy a then a else d.

(** [ToNumber] of a value that may be [null]: [null] converts to [0]. *)
Definition of_nullable (o : option Q) : number :=
  match o with
  | Some x => Num x
  | None => Num 0
  end.

(** [ToNumber] of a value that may be [undefined]: [undefined] converts
    to [NaN]. *)
Definition of_undefinable (o : option Q) : number :=
  match o with
  | Some x => Num x
  | None => NaN
  end.

(** Truthiness of an identifier that may be missing: [undefined], [null]
    and [0] are falsy. *)
Definition truthy_id (o : option Z) : bool :=
  match o with
  | Some n => negb (n =? 0)
  | None => false
  end.

(** Numeric equality of numbers, up to the representation of the
    rational; [NaN] is only related to itself. *)
Definition same (a b : number) : Prop :=
  match a, b with
  | Num x, Num y => (x == y)%Q
  | NaN, NaN => True
  | _, _ => False
  end.

End JS.

(** ** Transit feed client ([sl_api_service.js]) *)

Module SLApi.

Record Line := {
  line_id : option Z;
  line_designation : option string;
  transport_mode : option string
}.

Record StopPointRef := {
  sp_id : option Z;
  sp_name : option string
}.

Record Departure := {
  journey_id : option Z;          (* dep.journey?.id *)
  line : option Line;             (* dep.line *)
  direction_code : option Z;      (* dep.direction_code *)
  stop_point : option StopPointRef;
  expected : Z;                   (* new Date(dep.expected), milliseconds *)
  destination : string
}.

(** The upstream request: [GET sites/{siteId}/departures?forecast={forecast}]. *)
Record Request := {
  req_site : Z;
  req_forecast : Z
}.

(** What [axios.get] does: it rejects (network error, non-2xx status), or
    resolves with a status and a body whose [departures] may be missing. *)
Inductive HttpResult :=
| Rejected (msg : string)
| Resolved (status : Z) (departures : option (list Departure)).

Definition is_bus (dep : Departure) : bool :=
  match line dep with
  | Some l =>
      match transport_mode l with
      | Some m => String.eqb m "BUS"
      | None => false
      end
  | None => false
  end.

(** The request [getDepartures] builds.  [forecastLimit] is accepted and
    the forecast is the constant [1200]. *)
Definition departures_request (siteId : Z) (forecastLimit : Z) : Request :=
  let forecast := 1200 in
  {| req_site := siteId; req_forecast := forecast |}.

(** The [try] block of [getDepartures]. *)
Definition getDepartures_body (feed : Request -> HttpResult)
    (siteId forecastLimit : Z) : completion (list Departure) :=
  match feed (departures_request siteId forecastLimit) with
  | Rejected msg => Thrown msg
  | Resolved status body =>
      if status =? 200 then
        Normal (match body with
                | Some deps => filter (fun d => is_bus d = true) deps
                | None => []
                end)
      else Thrown "API returned status"
  end.

Definition getDepartures (feed : Request -> HttpResult)
    (siteId forecastLimit : Z) : completion (list Departure) :=
  try_catch (getDepartures_body feed siteId forecastLimit)
            (fun _ => Normal []).

(** [getBatchDepartures]: the loop over [siteIds], from index [i].  The
    feed may answer differently from one request to the next, so it is
    indexed by the position of the request in the batch. *)
Fixpoint batch_loop (feed : nat -> Request -> HttpResult) (i : nat)
    (siteIds : list Z) (forecastLimit : Z)
    (results : gmap Z (list Departure)) : gmap Z (list Departure) :=
  match siteIds with
  | [] => results
  | siteId :: rest =>
      let results' :=
        match getDepartures (feed i) siteId forecastLimit with
        | Normal departures => <[siteId := departures]> results
        | Thrown _ => <[siteId := []]> results
        end in
      batch_loop feed (S i) rest forecastLimit results'
  end.

Definition getBatchDepartures (feed : nat -> Request -> HttpResult)
    (siteIds : list Z) (forecastLimit : Z)
  : completion (gmap Z (list Departure)) :=
  Normal (batch_loop feed 0 siteIds forecastLimit ∅).

(** The list a response stands for: its bus departures when the status is
    200, and nothing otherwise. *)
Definition answer (r : HttpResult) : list Departure :=
  match r with
  | Resolved status (Some deps) =>
      if status =? 200 then filter (fun d => is_bus d = true) deps else []
  | _ => []
  end.

(** A request fails when the call rejects or the status is not 200. *)
Definition request_fails (r : HttpResult) : bool :=
  match r with
  | Rejected _ => true
  | Resolved status _ => negb (status =? 200)
  end.

End SLApi.

(** ** Stable sorting

    [ORDER BY] and [Array.prototype.sort] are embedded as a stable insertion
    sort, parameterised by the "comes no later than" test. *)

Fixpoint insert_sorted {A} (leb : A -> A -> bool) (x : A) (l : list A) : list A :=
  match l with
  | [] => [x]
  | y :: l' => if leb x y then x :: y :: l' else y :: insert_sorted leb x l'
  end.

(** Elements are inserted from the right, and an element goes in front of
    its equals, so equal elements keep their order. *)
Definition sort_by {A} (leb : A -> A -> bool) (l : list A) : list A :=
  fold_right (insert_sorted leb) [] l.

(** ** The spatial database *)

Module DB.

Definition Point : Type := (Q * Q)%type.           (* (lon, lat), WGS84 *)
Definition Polyline : Type := list Point.

(** A row of [stockholm_osm]. *)
Record Road := {
  id : Z;
  geom : Polyline;
  length : option Q;
  length_normalized : option Q;
  source : option Z;
  target : option Z
}.

(** A row of [gvi_points]. *)
Record GviPoint := {
  geometry : Point;
  month : string;
  gvi : option Q
}.

(** A row of [road_dgvi]; the primary key is [(road_id, month)].  Every
    row is written by the upsert of [updateAllRoadDGVI], which always
    supplies [dgvi]. *)
Record RoadDgvi := {
  road_id : Z;
  dgvi_month : string;
  dgvi : Q;
  dgvi_normalized : option Q;
  updated_at : Z
}.

(** The PostGIS operators the queries use, on geometries. *)
Record PostGIS := {
  (* ST_Intersects(ST_Buffer(r.geom::geography, 1)::geometry, g.geometry) *)
  within_buffer_1m : Polyline -> Point -> bool;
  (* ST_LineLocatePoint(ST_LineMerge(r.geom), g.geometry) *)
  line_locate_point : Polyline -> Point -> Q;
  (* ST_DWithin(r.geom::geography, s.geom::geography, 200) *)
  dwithin_200m : Polyline -> Point -> bool;
  (* ST_Distance(a::geography, b::geography), in meters *)
  geo_distance : Point -> Point -> Q;
  (* ST_Length(geom::geography), in meters *)
  geo_length : Polyline -> Q;
  (* ST_LineMerge(ST_Union(geom ORDER BY seq)) as GeoJSON coordinates *)
  line_merge : list Polyline -> Polyline
}.

(** A row of [stockholm_osm_vertices_pgr]. *)
Record Vertex := {
  vertex_id : Z;
  the_geom : Point
}.

(** A row of [sl_bus_sites]. *)
Record BusSite := {
  bs_site_id : Z;
  bs_site_name : string;
  bs_geom : Point
}.

(** A row of [sl_bus_stop_points]. *)
Record StopPoint := {
  stop_point_id : Z;
  sp_site_id : option Z;
  stop_point_name : string;
  sp_geom : Point
}.

(** A row of [sl_bus_trips]: the stop sequence of a line and direction. *)
Record BusTrip := {
  bt_line_id : Z;
  bt_direction_code : Z;
  bt_stop_point_id : Z;
  bt_next_stop_point_id : Z
}.

Record Database := {
  stockholm_osm : list Road;
  stockholm_osm_vertices_pgr : list Vertex;
  gvi_points : list GviPoint;
  road_dgvi_table : list RoadDgvi;
  sl_bus_sites : list BusSite;
  sl_bus_stop_points : list StopPoint;
  sl_bus_trips : list BusTrip;
  clock : Z                         (* CURRENT_TIMESTAMP of the next statement *)
}.

End DB.

(** ** DGVI calculator ([dgvi_calculator.js]) *)

Module DGVI.
Import DB.
Local Open Scope Q_scope.

(** *** [calculateSegmentDGVI]: the query, one relation per CTE *)

(** [road_info]: the rows of the road table with [id = $1]. *)
Definition road_info (db : Database) (roadId : Z) : list Road :=
  List.filter (fun r => (id r =? roadId)%Z) (stockholm_osm db).

(** [matched_gvi_points]: (position, gvi_value) of every GVI point of the
    month with a value, inside the 1 m buffer of the road. *)
Definition matched_gvi_points (pg : PostGIS) (db : Database)
    (roadId : Z) (m : string) : list (Q * Q) :=
  flat_map (fun r =>
    flat_map (fun g =>
      match gvi g with
      | Some v =>
          if within_buffer_1m pg (geom r) (geometry g) && String.eqb (month g) m
          then [(line_locate_point pg (geom r) (geometry g), v)]
          else []
      | None => []
      end) (gvi_points db)) (road_info db roadId).

Definition by_position (a b : Q * Q) : bool := Qle_bool (fst a) (fst b).

Definition has_position (p : Q) (pts : list (Q * Q)) : bool :=
  existsb (fun x => Qeq_bool (fst x) p) pts.

(** [COALESCE((SELECT gvi_value ... ORDER BY position LIMIT 1), 0.0)] *)
Definition first_gvi_or_zero (pts : list (Q * Q)) : Q :=
  match sort_by by_position pts with
  | [] => 0
  | x :: _ => snd x
  end.

(** [COALESCE((SELECT gvi_value ... ORDER BY position DESC LIMIT 1), 0.0)] *)
Definition last_gvi_or_zero (pts : list (Q * Q)) : Q :=
  match List.rev (sort_by by_position pts) with
  | [] => 0
  | x :: _ => snd x
  end.

(** [points_with_endpoints]: the matched points, and a synthesized point at
    [0.0] and at [1.0] when no matched point sits there, by position. *)
Definition points_with_endpoints (matched : list (Q * Q)) : list (Q * Q) :=
  sort_by by_position
    (matched
     ++ (if has_position 0 matched then [] else [(0, first_gvi_or_zero matched)])
     ++ (if has_position 1 matched then [] else [(1, last_gvi_or_zero matched)])).

(** [segment_intervals] restricted to [end_pos IS NOT NULL]: each point
    paired with its [LEAD]. *)
Fixpoint segment_intervals (pts : list (Q * Q)) : list ((Q * Q) * (Q * Q)) :=
  match pts with
  | a :: ((b :: _) as rest) => (a, b) :: segment_intervals rest
  | _ => []
  end.

Definition interval_term (total_length : Q) (i : (Q * Q) * (Q * Q)) : Q :=
  let '((start_pos, start_gvi), (end_pos, end_gvi)) := i in
  (end_pos - start_pos) * total_length * ((start_gvi + end_gvi) / 2 - 1).

(** [COALESCE(SUM(...), 0.0)]; [total_length] is the scalar subquery
    [(SELECT road_length FROM road_info)], [NULL] when the road is absent
    or has no length, and then every term and the sum are [NULL]. *)
Definition segment_dgvi_query (pg : PostGIS) (db : Database)
    (roadId : Z) (m : string) : Q :=
  let matched := matched_gvi_points pg db roadId m in
  let total_length :=
    match road_info db roadId with
    | r :: _ => length r
    | [] => None
    end in
  match total_length with
  | Some len =>
      fold_left Qplus
        (List.map (interval_term len)
                  (segment_intervals (points_with_endpoints matched))) 0
  | None => 0
  end.

(** [return result.rows[0]?.dgvi || 0.0] *)
Definition calculateSegmentDGVI (pg : PostGIS) (db : Database)
    (roadId : Z) (m : string) : Q :=
  let dgvi := segment_dgvi_query pg db roadId m in
  if Qeq_bool dgvi 0 then 0 else dgvi.

(** The length of the edge as the query sees it; 0 when the edge is absent
    or its length is [NULL]. *)
Definition edge_length (db : Database) (roadId : Z) : Q :=
  match road_info db roadId with
  | r :: _ => match length r with Some len => len | None => 0 end
  | [] => 0
  end.

(** *** [updateAllRoadDGVI] *)

(** [INSERT INTO road_dgvi (road_id, month, dgvi) VALUES ($1, $2, $3)
     ON CONFLICT (road_id, month)
     DO UPDATE SET dgvi = $3, updated_at = CURRENT_TIMESTAMP] *)
Definition same_key (roadId : Z) (m : string) (r : RoadDgvi) : bool :=
  (road_id r =? roadId)%Z && String.eqb (dgvi_month r) m.

Fixpoint upsert (roadId : Z) (m : string) (d : Q) (now : Z)
    (t : list RoadDgvi) : list RoadDgvi :=
  match t with
  | [] => [ {| road_id := roadId; dgvi_month := m; dgvi := d;
               dgvi_normalized := None; updated_at := now |} ]
  | r :: t' =>
      if same_key roadId m r
      then {| road_id := road_id r; dgvi_month := dgvi_month r; dgvi := d;
              dgvi_normalized := dgvi_normalized r; updated_at := now |} :: t'
      else r :: upsert roadId m d now t'
  end.

(** [SELECT id FROM stockholm_osm ORDER BY id] *)
Definition roads_query (db : Database) : list Z :=
  sort_by Z.leb (List.map id (stockholm_osm db)).

(** [rows.slice(i, i + batchSize)] *)
Definition slice {A} (i n : nat) (l : list A) : list A :=
  firstn n (skipn i l).

Definition batchSize : nat := 100.

(** The batches [for (let i = 0; i < totalRoads; i += batchSize)]; [fuel]
    bounds the number of iterations. *)
Fixpoint batches {A} (fuel i : nat) (rows : list A) : list (list A) :=
  match fuel with
  | O => []
  | S fuel' =>
      if (i <? List.length rows)%nat
      then slice i batchSize rows :: batches fuel' (i + batchSize)%nat rows
      else []
  end.

Record Progress := {
  table : list RoadDgvi;
  now : Z;
  processed : nat;
  successful : nat
}.

(** The body of the inner loop: compute, upsert, count. *)
Definition process_road (pg : PostGIS) (db : Database) (m : string)
    (st : Progress) (roadId : Z) : Progress :=
  let d := calculateSegmentDGVI pg db roadId m in
  {| table := upsert roadId m d (now st) (table st);
     now := (now st + 1)%Z;
     processed := S (processed st);
     successful := if Qeq_bool d 0 then successful st else S (successful st) |}.

Definition process_batch (pg : PostGIS) (db : Database) (m : string)
    (st : Progress) (batch : list Z) : Progress :=
  fold_left (process_road pg db m) batch st.

(** [MIN(dgvi)] and [MAX(dgvi)] over the rows of the month. *)
Definition month_values (m : string) (t : list RoadDgvi) : list Q :=
  List.map dgvi (List.filter (fun r => String.eqb (dgvi_month r) m) t).

Definition sql_min (l : list Q) : option Q :=
  match l with
  | [] => None
  | x :: l' => Some (fold_left Qmin l' x)
  end.

Definition sql_max (l : list Q) : option Q :=
  match l with
  | [] => None
  | x :: l' => Some (fold_left Qmax l' x)
  end.

(** The [CASE] of the normalising [UPDATE]. *)
Definition normalized_value (min_dgvi max_dgvi d : Q) : Q :=
  if Qeq_bool max_dgvi min_dgvi then 0
  else (d - min_dgvi) / (max_dgvi - min_dgvi).

(** [UPDATE road_dgvi SET dgvi_normalized = CASE ... END FROM stats
     WHERE month = $1] *)
Definition normalize_month (m : string) (t : list RoadDgvi) : list RoadDgvi :=
  match sql_min (month_values m t), sql_max (month_values m t) with
  | Some lo, Some hi =>
      List.map (fun r =>
        if String.eqb (dgvi_month r) m
        then {| road_id := road_id r; dgvi_month := dgvi_month r;
                dgvi := dgvi r;
                dgvi_normalized := Some (normalized_value lo hi (dgvi r));
                updated_at := updated_at r |}
        else r) t
  | _, _ => t
  end.

(** The [dgvi] stored for a key, if the key has a row. *)
Fixpoint lookup_dgvi (roadId : Z) (m : string) (t : list RoadDgvi) : option Q :=
  match t with
  | [] => None
  | r :: t' => if same_key roadId m r then Some (dgvi r) else lookup_dgvi roadId m t'
  end.

Record UpdateStatistics := {
  totalRoads : nat;
  stat_processed : nat;
  stat_successful : nat;
  stat_month : string
}.

Definition updateAllRoadDGVI (pg : PostGIS) (db : Database) (m : string)
  : Database * UpdateStatistics :=
  let rows := roads_query db in
  let total := List.length rows in
  let st0 := {| table := road_dgvi_table db; now := clock db;
                processed := O; successful := O |} in
  let st := fold_left (process_batch pg db m) (batches total 0 rows) st0 in
  let t := normalize_month m (table st) in
  ({| stockholm_osm := stockholm_osm db;
      stockholm_osm_vertices_pgr := stockholm_osm_vertices_pgr db;
      gvi_points := gvi_points db;
      road_dgvi_table := t;
      sl_bus_sites := sl_bus_sites db;
      sl_bus_stop_points := sl_bus_stop_points db;
      sl_bus_trips := sl_bus_trips db;
      clock := (now st + 1)%Z |},
   {| totalRoads := total;
      stat_processed := processed st;
      stat_successful := successful st;
      stat_month := m |}).

(** The observable content of the DGVI table: for every row, its key and
    its [(dgvi, dgvi_normalized)] values. *)
Definition row_values (r : RoadDgvi) : Z * string * Q * option Q :=
  (road_id r, dgvi_month r, dgvi r, dgvi_normalized r).

Definition table_values (db : Database) : list (Z * string * Q * option Q) :=
  List.map row_values (road_dgvi_table db).

End DGVI.


(** ** Route segments and route plans
       ([route_segment_structures.js], [route_plan.js])

    Display-only text (descriptions, line labels, the journey and transfer
    summaries of a plan) is left out of the records; every field that
    carries a number, an identifier, a time or a geometry is kept. *)

Module Route.

(** A [{lat, lon}] object; a coordinate read from an object that lacks it
    is [undefined]. *)
Record LatLon := {
  lat : option Q;
  lon : option Q
}.

(** GeoJSON line coordinates, [[lon, lat]] pairs. *)
Definition Geometry : Type := list (option Q * option Q).

(** A stop-point information object, as [getStopPointSite] returns it; the
    transfer search also builds one with [site_id] and [stop_name] only. *)
Record StopInfo := {
  si_stop_point_id : option Z;
  si_site_id : option Z;
  si_stop_name : option string;
  si_lat : option Q;
  si_lon : option Q
}.

Inductive Subtype := intra_site_transfer.

Record IntraSiteInfo := {
  fromStopPoint : StopInfo;
  toStopPoint : StopInfo;
  isi_siteId : option Z
}.

Record WalkingSegment := {
  w_duration : JS.number;
  w_startPoint : LatLon;
  w_endPoint : LatLon;
  w_geometry : option Geometry;
  w_subtype : option Subtype;
  w_distance : JS.number;
  w_roadIds : list Z;
  w_transferInfo : option IntraSiteInfo
}.

Record WaitingTransferInfo := {
  waitingTime : JS.number;
  intraSiteWalk : bool;
  transferMargin : Z
}.

Record BusWaitingSegment := {
  bw_duration : JS.number;
  bw_stopPointId : option Z;
  bw_siteId : option Z;
  bw_stopGeom : LatLon;
  bw_expectedDeparture : Z;
  bw_transferInfo : option WaitingTransferInfo
}.

Record StopAlong := {
  sa_stopPointId : Z;
  sa_lat : Q;
  sa_lon : Q;
  sa_sequenceOrder : Z
}.

Record BusRideSegment := {
  br_duration : JS.number;
  br_startStopId : option Z;
  br_endStopId : option Z;
  br_startStopInfo : StopInfo;
  br_endStopInfo : StopInfo;
  br_lineId : option Z;
  br_directionCode : option Z;
  br_expectedDeparture : Z;
  br_expectedArrival : Z;
  br_geometry : option Geometry;
  br_roadIds : list Z;
  br_stopsAlong : option (list StopAlong)
}.

Inductive Segment :=
| Walking (w : WalkingSegment)
| BusWaiting (b : BusWaitingSegment)
| BusRide (r : BusRideSegment).

Inductive SegmentType := walking_t | bus_waiting_t | bus_ride_t.

Definition type (s : Segment) : SegmentType :=
  match s with
  | Walking _ => walking_t
  | BusWaiting _ => bus_waiting_t
  | BusRide _ => bus_ride_t
  end.

Definition duration (s : Segment) : JS.number :=
  match s with
  | Walking w => w_duration w
  | BusWaiting b => bw_duration b
  | BusRide r => br_duration r
  end.

(** [segment.roadIds]: an array on walking and bus-ride segments,
    [undefined] on waiting segments. *)
Definition roadIds (s : Segment) : option (list Z) :=
  match s with
  | Walking w => Some (w_roadIds w)
  | BusWaiting _ => None
  | BusRide r => Some (br_roadIds r)
  end.

(** *** Segment factory *)

Record WalkingConfig := {
  wc_duration : JS.number;
  wc_distance : JS.number;
  wc_startPoint : LatLon;
  wc_endPoint : LatLon;
  wc_roadIds : list Z;
  wc_geometry : option Geometry
}.

(** [WalkingSegment.createWalkingSegment]; [distance: config.distance || 0]. *)
Definition createWalkingSegment (c : WalkingConfig) : Segment :=
  Walking {| w_duration := wc_duration c;
             w_startPoint := wc_startPoint c;
             w_endPoint := wc_endPoint c;
             w_geometry := wc_geometry c;
             w_subtype := None;
             w_distance := JS.or_else (wc_distance c) (JS.Num 0);
             w_roadIds := wc_roadIds c;
             w_transferInfo := None |}.

(** [WalkingSegment.createIntraSiteTransferSegment]: no road ids, and a
    straight line between the two platforms as geometry. *)
Definition createIntraSiteTransferSegment (dur dist : JS.number)
    (startPoint endPoint : LatLon) (info : IntraSiteInfo) : Segment :=
  Walking {| w_duration := dur;
             w_startPoint := startPoint;
             w_endPoint := endPoint;
             w_geometry := Some [ (lon startPoint, lat startPoint);
                                  (lon endPoint, lat endPoint) ];
             w_subtype := Some intra_site_transfer;
             w_distance := JS.or_else dist (JS.Num 0);
             w_roadIds := [];
             w_transferInfo := Some info |}.

(** [BusWaitingSegment.createWaitingSegment]; [duration: config.duration || 0]. *)
Definition createWaitingSegment (dur : JS.number) (stop : StopInfo)
    (expectedDeparture : Z) : Segment :=
  BusWaiting {| bw_duration := JS.or_else dur (JS.Num 0);
                bw_stopPointId := si_stop_point_id stop;
                bw_siteId := si_site_id stop;
                bw_stopGeom := {| lat := si_lat stop; lon := si_lon stop |};
                bw_expectedDeparture := expectedDeparture;
                bw_transferInfo := None |}.

(** [BusWaitingSegment.createTransferWaitingSegment]; the constructor
    completes the transfer information:
    [waitingTime: transferInfo.waitingTime || this.duration]. *)
Definition createTransferWaitingSegment (dur : JS.number) (stop : StopInfo)
    (expectedDeparture : Z) (waiting : JS.number) (walk : bool) (margin : Z)
  : Segment :=
  BusWaiting {| bw_duration := dur;
                bw_stopPointId := si_stop_point_id stop;
                bw_siteId := si_site_id stop;
                bw_stopGeom := {| lat := si_lat stop; lon := si_lon stop |};
                bw_expectedDeparture := expectedDeparture;
                bw_transferInfo :=
                  Some {| waitingTime := JS.or_else waiting dur;
                          intraSiteWalk := walk;
                          transferMargin := if (margin =? 0)%Z then 90 else margin |} |}.

(** [BusRideSegment.createBusRideSegment]; [roadIds: config.roadIds || []]. *)
Definition createBusRideSegment (dur : JS.number) (startStop endStop : StopInfo)
    (lineId directionCode : option Z) (expectedDeparture expectedArrival : Z)
    (geometry : option Geometry) (rids : list Z) : Segment :=
  BusRide {| br_duration := dur;
             br_startStopId := si_stop_point_id startStop;
             br_endStopId := si_stop_point_id endStop;
             br_startStopInfo := startStop;
             br_endStopInfo := endStop;
             br_lineId := lineId;
             br_directionCode := directionCode;
             br_expectedDeparture := expectedDeparture;
             br_expectedArrival := expectedArrival;
             br_geometry := geometry;
             br_roadIds := rids;
             br_stopsAlong := None |}.

(** *** Route plans *)

Inductive RouteType := walking | direct_bus | transfer_bus.

(** [`walking_${Date.now()}`], [`direct_${lineId}_${Date.now()}`],
    [`transfer_${firstLineId}_${secondLineId}_${Date.now()}`] *)
Inductive RouteId :=
| walking_id (stamp : Z)
| direct_id (lineId : option Z) (stamp : Z)
| transfer_id (firstLineId secondLineId : option Z) (stamp : Z).

Inductive Strategy := UserPreference | ASAP | GROOT.

Record RoutePlan := {
  routeId : RouteId;
  routeType : RouteType;
  segments : list Segment;
  totalDuration : JS.number;
  origin : LatLon;
  destination : LatLon;
  totalAcDGVI : JS.number;
  durationScore : JS.number;
  acDGVIScore : JS.number;
  totalScore : JS.number;
  gviDataMonth : string;
  strategy : option Strategy
}.

(** The constructor: the scoring fields start at 0. *)
Definition new_RoutePlan (rid : RouteId) (ty : RouteType) (segs : list Segment)
    (total : JS.number) (o d : LatLon) (m : string) : RoutePlan :=
  {| routeId := rid; routeType := ty; segments := segs;
     totalDuration := total; origin := o; destination := d;
     totalAcDGVI := JS.Num 0; durationScore := JS.Num 0;
     acDGVIScore := JS.Num 0; totalScore := JS.Num 0;
     gviDataMonth := m; strategy := None |}.

Record WalkingRouteConfig := {
  wr_totalDuration : JS.number;
  wr_totalDistance : option Q;         (* row.total_length, possibly null *)
  wr_origin : LatLon;
  wr_destination : LatLon;
  wr_roadIds : option (list Z);        (* row.road_ids, possibly null *)
  wr_geometry : option Geometry;
  wr_gviDataMonth : string
}.

(** [RoutePlan.createWalkingRoute]; [roadIds: config.roadIds || []]. *)
Definition createWalkingRoute (stamp : Z) (c : WalkingRouteConfig) : RoutePlan :=
  let walkingSegment :=
    createWalkingSegment
      {| wc_duration := wr_totalDuration c;
         wc_distance := JS.of_nullable (wr_totalDistance c);
         wc_startPoint := wr_origin c;
         wc_endPoint := wr_destination c;
         wc_roadIds := match wr_roadIds c with Some l => l | None => [] end;
         wc_geometry := wr_geometry c |} in
  new_RoutePlan (walking_id stamp) walking [walkingSegment]
                (wr_totalDuration c) (wr_origin c) (wr_destination c)
                (wr_gviDataMonth c).

Record DirectBusConfig := {
  db_origin : LatLon;
  db_destination : LatLon;
  walkingToDeparture : JS.number;
  walkingToDepDistance : JS.number;
  walkingToDepRoadIds : list Z;
  walkingToDepGeometry : option Geometry;
  departureStop : StopInfo;
  arrivalStop : StopInfo;
  busRideDuration : JS.number;
  walkingFromArrival : JS.number;
  walkingFromArrDistance : JS.number;
  walkingFromArrRoadIds : list Z;
  walkingFromArrGeometry : option Geometry;
  db_lineId : option Z;
  db_directionCode : option Z;
  db_expectedDeparture : Z;
  db_expectedArrival : Z;
  db_totalDuration : JS.number;
  db_gviDataMonth : string
}.

Definition stop_latlon (s : StopInfo) : LatLon :=
  {| lat := si_lat s; lon := si_lon s |}.

(** [RoutePlan.createDirectBusRoute] *)
Definition createDirectBusRoute (stamp : Z) (c : DirectBusConfig) : RoutePlan :=
  let segs :=
    (if JS.gt (walkingToDeparture c) (JS.Num 0)
     then [createWalkingSegment
             {| wc_duration := walkingToDeparture c;
                wc_distance := JS.or_else (walkingToDepDistance c) (JS.Num 0);
                wc_startPoint := db_origin c;
                wc_endPoint := stop_latlon (departureStop c);
                wc_roadIds := walkingToDepRoadIds c;
                wc_geometry := walkingToDepGeometry c |}]
     else [])
    ++ [createWaitingSegment (JS.Num 0) (departureStop c) (db_expectedDeparture c)]
    ++ [createBusRideSegment (busRideDuration c) (departureStop c) (arrivalStop c)
          (db_lineId c) (db_directionCode c)
          (db_expectedDeparture c) (db_expectedArrival c) None []]
    ++ (if JS.gt (walkingFromArrival c) (JS.Num 0)
        then [createWalkingSegment
                {| wc_duration := walkingFromArrival c;
                   wc_distance := JS.or_else (walkingFromArrDistance c) (JS.Num 0);
                   wc_startPoint := stop_latlon (arrivalStop c);
                   wc_endPoint := db_destination c;
                   wc_roadIds := walkingFromArrRoadIds c;
                   wc_geometry := walkingFromArrGeometry c |}]
        else []) in
  new_RoutePlan (direct_id (db_lineId c) stamp) direct_bus segs
                (db_totalDuration c) (db_origin c) (db_destination c)
                (db_gviDataMonth c).

Record TransferConfig := {
  tc_origin : LatLon;
  tc_destination : LatLon;
  walkingToFirst : JS.number;
  walkingToFirstDistance : JS.number;
  firstDepartureStop : StopInfo;
  firstLineId : option Z;
  firstDeparture : Z;
  firstBusRideDuration : JS.number;
  firstArrival : Z;
  transferArrivalStop : StopInfo;
  transferDepartureStop : StopInfo;
  transferSiteId : option Z;
  tc_intraSiteWalk : JS.number;
  intraSiteDistance : JS.number;
  transferWaiting : JS.number;
  secondLineId : option Z;
  secondDeparture : Z;
  secondBusRideDuration : JS.number;
  secondArrival : Z;
  finalArrivalStop : StopInfo;
  walkingFromFinal : JS.number;
  walkingFromFinalDistance : JS.number;
  tc_totalDuration : JS.number;
  tc_gviDataMonth : string
}.

(** [RoutePlan.createTransferRoute].  The configuration the planner passes
    has no [lineId], [directionCode], road ids or geometries, so the rides
    carry none and the walks have empty road-id lists. *)
Definition createTransferRoute (stamp : Z) (c : TransferConfig) : RoutePlan :=
  let segs :=
    (if JS.gt (walkingToFirst c) (JS.Num 0)
     then [createWalkingSegment
             {| wc_duration := walkingToFirst c;
                wc_distance := JS.or_else (walkingToFirstDistance c) (JS.Num 0);
                wc_startPoint := tc_origin c;
                wc_endPoint := stop_latlon (firstDepartureStop c);
                wc_roadIds := [];
                wc_geometry := None |}]
     else [])
    ++ [createWaitingSegment (JS.Num 0) (firstDepartureStop c) (firstDeparture c)]
    ++ [createBusRideSegment (firstBusRideDuration c)
          (firstDepartureStop c) (transferArrivalStop c) None None
          (firstDeparture c) (firstArrival c) None []]
    ++ (if JS.gt (tc_intraSiteWalk c) (JS.Num 0)
        then [createIntraSiteTransferSegment
                (tc_intraSiteWalk c) (intraSiteDistance c)
                (stop_latlon (transferArrivalStop c))
                (stop_latlon (transferDepartureStop c))
                {| fromStopPoint := transferArrivalStop c;
                   toStopPoint := transferDepartureStop c;
                   isi_siteId := transferSiteId c |}]
        else [])
    ++ [createTransferWaitingSegment (transferWaiting c)
          (transferDepartureStop c) (secondDeparture c)
          (transferWaiting c) (JS.gt (tc_intraSiteWalk c) (JS.Num 0)) 90]
    ++ [createBusRideSegment (secondBusRideDuration c)
          (transferDepartureStop c) (finalArrivalStop c) None None
          (secondDeparture c) (secondArrival c) None []]
    ++ (if JS.gt (walkingFromFinal c) (JS.Num 0)
        then [createWalkingSegment
                {| wc_duration := walkingFromFinal c;
                   wc_distance := JS.or_else (walkingFromFinalDistance c) (JS.Num 0);
                   wc_startPoint := stop_latlon (finalArrivalStop c);
                   wc_endPoint := tc_destination c;
                   wc_roadIds := [];
                   wc_geometry := None |}]
        else []) in
  new_RoutePlan (transfer_id (firstLineId c) (secondLineId c) stamp)
                transfer_bus segs
                (tc_totalDuration c) (tc_origin c) (tc_destination c)
                (tc_gviDataMonth c).

(** The sum of the durations of the segments, as [reduce] with [+] from 0. *)
Definition sum_durations (segs : list Segment) : JS.number :=
  fold_left (fun acc s => JS.add acc (duration s)) segs (JS.Num 0).

(** [Math.abs(a - b) <= 1]: false as soon as one side is [NaN]. *)
Definition within_one_second (a b : JS.number) : bool :=
  match JS.sub a b with
  | JS.Num d => Qle_bool (Qabs d) 1
  | JS.NaN => false
  end.

End Route.

(** ** The path solver: queries of [routing_engine.js] on the road graph *)

Module PathSolver.
Import DB.
Local Open Scope Q_scope.

Record Preferences := {
  time : Q;
  green : Q
}.

(** A row of the edge query handed to [pgr_dijkstra]. *)
Record Edge := {
  e_id : Z;
  e_source : option Z;
  e_target : option Z;
  e_cost : option Q
}.

(** [pgr_dijkstra(edges_sql, source, target, false)]: the edge ids of the
    result rows in [seq] order (the closing row, whose edge is [-1], joins
    with no road and is left out). *)
Definition Dijkstra : Type := list Edge -> Z -> Z -> list Z.

(** pgRouting returns no row when the start and the end vertex are the
    same. *)
Definition no_row_for_same_vertex (pgr_dijkstra : Dijkstra) : Prop :=
  forall edges v, pgr_dijkstra edges v v = [].

(** [COALESCE(d.dgvi_normalized, 0)] over the [LEFT JOIN] with the DGVI row
    of the road and month. *)
Definition dgvi_normalized_or_zero (db : Database) (roadId : Z) (m : string) : Q :=
  match List.filter (DGVI.same_key roadId m) (road_dgvi_table db) with
  | d :: _ => match dgvi_normalized d with Some v => v | None => 0 end
  | [] => 0
  end.

(** [w.length_normalized * time + (1 - COALESCE(d.dgvi_normalized, 0)) * green] *)
Definition walking_edges (db : Database) (prefs : Preferences) (m : string)
  : list Edge :=
  List.map (fun w =>
    {| e_id := id w; e_source := source w; e_target := target w;
       e_cost := match length_normalized w with
                 | Some ln => Some (ln * time prefs
                                    + (1 - dgvi_normalized_or_zero db (id w) m)
                                      * green prefs)
                 | None => None
                 end |}) (stockholm_osm db).

(** [ORDER BY the_geom <-> point LIMIT 1]: the vertex at the least planar
    distance. *)
Definition sq_dist (a b : Point) : Q :=
  (fst a - fst b) * (fst a - fst b) + (snd a - snd b) * (snd a - snd b).

Definition nearest_vertex (db : Database) (p : Point) : option Vertex :=
  head (sort_by (fun a b => Qle_bool (sq_dist (the_geom a) p) (sq_dist (the_geom b) p))
                (stockholm_osm_vertices_pgr db)).

(** [route_segments]: each result edge joined with its road. *)
Definition route_segments (db : Database) (edges : list Z) : list Road :=
  flat_map (fun e => List.filter (fun r => (id r =? e)%Z) (stockholm_osm db)) edges.

(** The one row of the aggregate query: [array_agg], [sum] and the merged
    geometry are [NULL] over no rows; [sum] skips [NULL] lengths. *)
Record RouteRow := {
  road_ids : option (list Z);
  total_length : option Q;
  merged_geom : option Polyline
}.

Definition sql_sum (l : list (option Q)) : option Q :=
  match omap (fun x => x) l with
  | [] => None
  | x :: xs => Some (fold_left Qplus xs x)
  end.

Definition route_row (pg : PostGIS) (rows : list Road) : RouteRow :=
  match rows with
  | [] => {| road_ids := None; total_length := None; merged_geom := None |}
  | _ => {| road_ids := Some (List.map id rows);
            total_length := sql_sum (List.map length rows);
            merged_geom := Some (line_merge pg (List.map geom rows)) |}
  end.

Definition walking_route_query (pg : PostGIS) (solve : Dijkstra) (db : Database)
    (prefs : Preferences) (m : string) (fromNode toNode : Z) : RouteRow :=
  route_row pg (route_segments db (solve (walking_edges db prefs m) fromNode toNode)).

(** A reference solver with the behaviour of [pgr_dijkstra] on undirected
    graphs, used to run the planner on concrete networks: it relaxes every
    edge in both directions as many times as there are edges, keeping for
    each reached vertex the cost and the edge sequence of the best path. *)
Definition Reached : Type := list (Z * (Q * list Z)).

Definition reached_get (v : Z) (t : Reached) : option (Q * list Z) :=
  option_map snd (List.find (fun e => (fst e =? v)%Z) t).

Fixpoint reached_set (v : Z) (x : Q * list Z) (t : Reached) : Reached :=
  match t with
  | [] => [(v, x)]
  | (v', x') :: t' =>
      if (v' =? v)%Z then (v, x) :: t' else (v', x') :: reached_set v x t'
  end.

Definition relax_towards (edge : Z) (cost : Q) (a b : Z) (t : Reached) : Reached :=
  match reached_get a t with
  | Some (d, path) =>
      match reached_get b t with
      | Some (d', _) =>
          if Qle_bool d' (d + cost) then t
          else reached_set b (d + cost, path ++ [edge]) t
      | None => reached_set b (d + cost, path ++ [edge]) t
      end
  | None => t
  end.

Definition relax_edge (t : Reached) (e : Edge) : Reached :=
  match e_source e, e_target e, e_cost e with
  | Some a, Some b, Some c =>
      relax_towards (e_id e) c b a (relax_towards (e_id e) c a b t)
  | _, _, _ => t
  end.

Fixpoint relax_rounds (n : nat) (edges : list Edge) (t : Reached) : Reached :=
  match n with
  | O => t
  | S n' => relax_rounds n' edges (fold_left relax_edge edges t)
  end.

Definition reference_dijkstra : Dijkstra := fun edges fromNode toNode =>
  if (fromNode =? toNode)%Z then []
  else
    match reached_get toNode
            (relax_rounds (List.length edges) edges [(fromNode, (0, []))]) with
    | Some (_, path) => path
    | None => []
    end.

End PathSolver.

(** ** DGVI of routes ([dgvi_calculator.js], continued) *)

Module RouteDGVI.
Import DB PathSolver Route.
Local Open Scope Q_scope.

(** [JSON.parse(row.merged_geom)] *)
Definition parse_geometry (g : option Polyline) : option Geometry :=
  option_map (List.map (fun c => (Some (fst c), Some (snd c)))) g.

(** [calculateWalkingDGVI]: the sum over the edge list, in order. *)
Definition calculateWalkingDGVI (pg : PostGIS) (db : Database)
    (roadIds : option (list Z)) (m : string) : Q :=
  match roadIds with
  | None | Some [] => 0
  | Some l =>
      fold_left (fun totalDGVI roadId =>
                   totalDGVI + DGVI.calculateSegmentDGVI pg db roadId m) l 0
  end.

(** [AVG(g.gvi)] over the matched points of a road; [NULL] over no rows. *)
Definition avg_gvi (pg : PostGIS) (db : Database) (r : Road) (m : string)
  : option Q :=
  let vs := omap (fun g =>
              if within_buffer_1m pg (geom r) (geometry g) && String.eqb (month g) m
              then gvi g else None) (gvi_points db) in
  match vs with
  | [] => None
  | _ => Some (fold_left Qplus vs 0 / inject_Z (Z.of_nat (List.length vs)))
  end.

(** The per-road term of the waiting query: [L * avg_gvi - L], and [0.0]
    when no point matched or the value is [NULL]. *)
Definition waiting_road_dgvi (pg : PostGIS) (db : Database) (roadId : Z)
    (m : string) : Q :=
  match DGVI.road_info db roadId with
  | r :: _ =>
      match avg_gvi pg db r m, length r with
      | Some a, Some len => len * a - len
      | _, _ => 0
      end
  | [] => 0
  end.

(** [calculateWaitingDGVI]: the roads within 200 m of the stop. *)
Definition calculateWaitingDGVI (pg : PostGIS) (db : Database)
    (stopGeom : LatLon) (m : string) : Q :=
  match lon stopGeom, lat stopGeom with
  | Some x, Some y =>
      let nearby :=
        List.filter (fun r => dwithin_200m pg (geom r) (x, y)) (stockholm_osm db) in
      let total :=
        fold_left Qplus
          (List.map (fun r => waiting_road_dgvi pg db (id r) m) nearby) 0 in
      if Qeq_bool total 0 then 0 else total
  | _, _ => 0
  end.

Record BusRideResult := {
  brr_dgvi : Q;
  brr_geometry : option Geometry;
  brr_roadIds : option (list Z)
}.

Definition no_bus_ride : BusRideResult :=
  {| brr_dgvi := 0; brr_geometry := None; brr_roadIds := Some [] |}.

(** The edge query of the ride reconstruction: pure length as cost. *)
Definition length_edges (pg : PostGIS) (db : Database) : list Edge :=
  List.map (fun w =>
    {| e_id := id w; e_source := source w; e_target := target w;
       e_cost := Some (geo_length pg (geom w)) |}) (stockholm_osm db).

(** [calculateBusRideDGVI] *)
Definition calculateBusRideDGVI (pg : PostGIS) (solve : Dijkstra) (db : Database)
    (startStopId endStopId : Z) (m : string) : BusRideResult :=
  let stops :=
    List.filter (fun sp => (stop_point_id sp =? startStopId)%Z
                           || (stop_point_id sp =? endStopId)%Z)
                (sl_bus_stop_points db) in
  if (List.length stops <? 2)%nat then no_bus_ride
  else
    match List.find (fun sp => (stop_point_id sp =? startStopId)%Z) stops,
          List.find (fun sp => (stop_point_id sp =? endStopId)%Z) stops with
    | Some startStop, Some endStop =>
        match nearest_vertex db (sp_geom startStop),
              nearest_vertex db (sp_geom endStop) with
        | Some startNode, Some endNode =>
            let row := route_row pg
                         (route_segments db
                            (solve (length_edges pg db)
                                   (vertex_id startNode) (vertex_id endNode))) in
            {| brr_dgvi := calculateWalkingDGVI pg db (road_ids row) m;
               brr_geometry := parse_geometry (merged_geom row);
               brr_roadIds := road_ids row |}
        | _, _ => no_bus_ride
        end
    | _, _ => no_bus_ride         (* reading a field of [undefined] throws *)
    end.

(** The [switch] of [calculateRouteDGVI] on one segment: its contribution,
    and the segment as the call leaves it (a bus ride without geometry
    receives the reconstructed one). *)
Definition segment_dgvi (pg : PostGIS) (solve : Dijkstra) (db : Database)
    (m : string) (s : Segment) : Q * Segment :=
  match s with
  | Walking w =>
      (match w_roadIds w with
       | [] => 0
       | l => calculateWalkingDGVI pg db (Some l) m
       end, s)
  | BusWaiting b => (calculateWaitingDGVI pg db (bw_stopGeom b) m, s)
  | BusRide r =>
      if JS.truthy_id (br_startStopId r) && JS.truthy_id (br_endStopId r) then
        match br_startStopId r, br_endStopId r with
        | Some a, Some b =>
            let res := calculateBusRideDGVI pg solve db a b m in
            (0, BusRide
                  {| br_duration := br_duration r;
                     br_startStopId := br_startStopId r;
                     br_endStopId := br_endStopId r;
                     br_startStopInfo := br_startStopInfo r;
                     br_endStopInfo := br_endStopInfo r;
                     br_lineId := br_lineId r;
                     br_directionCode := br_directionCode r;
                     br_expectedDeparture := br_expectedDeparture r;
                     br_expectedArrival := br_expectedArrival r;
                     br_geometry := match br_geometry r with
                                    | Some g => Some g
                                    | None => brr_geometry res
                                    end;
                     br_roadIds := br_roadIds r;
                     br_stopsAlong := br_stopsAlong r |})
        | _, _ => (0, s)
        end
      else (0, s)
  end.

(** [calculateRouteDGVI]: the total, and the segments after the call. *)
Definition calculateRouteDGVI (pg : PostGIS) (solve : Dijkstra) (db : Database)
    (segs : list Segment) (m : string) : Q * list Segment :=
  fold_left (fun acc s =>
               let '(d, s') := segment_dgvi pg solve db m s in
               (fst acc + d, snd acc ++ [s']))
            segs (0, []).

End RouteDGVI.

(** ** The planner ([routing_engine.js]): walking *)

Module Engine.
Import DB PathSolver Route.
Local Open Scope Q_scope.

Definition walkingSpeed : Q := 1.4.
Definition transferMargin : Q := 60.
Definition maxWalkingTime : Q := 1200.

Definition to_latlon (p : Point) : LatLon :=
  {| lat := Some (snd p); lon := Some (fst p) |}.

Definition parse_geometry := RouteDGVI.parse_geometry.

(** [calculateWalkingRoute]; it throws when a nearest node is missing. *)
Definition calculateWalkingRoute (pg : PostGIS) (solve : Dijkstra) (db : Database)
    (stamp : Z) (origin destination : Point) (gviMonth : string)
    (preferences : Preferences) : completion RoutePlan :=
  match nearest_vertex db origin, nearest_vertex db destination with
  | Some originNode, Some destNode =>
      let row := walking_route_query pg solve db preferences gviMonth
                   (vertex_id originNode) (vertex_id destNode) in
      let totalDistance := total_length row in
      let totalDuration := JS.div (JS.of_nullable totalDistance) (JS.Num walkingSpeed) in
      Normal (createWalkingRoute stamp
                {| wr_totalDuration := totalDuration;
                   wr_totalDistance := totalDistance;
                   wr_origin := to_latlon origin;
                   wr_destination := to_latlon destination;
                   wr_roadIds := road_ids row;
                   wr_geometry := parse_geometry (merged_geom row);
                   wr_gviDataMonth := gviMonth |})
  | _, _ => Thrown "Cannot find nearest road nodes"
  end.

(** What [calculateWalkingSegment] returns. *)
Record WalkingPath := {
  wp_duration : JS.number;
  wp_distance : option Q;
  wp_roadIds : list Z;
  wp_geometry : option Geometry
}.

Definition no_walking_path : WalkingPath :=
  {| wp_duration := JS.Num 0; wp_distance := Some 0;
     wp_roadIds := []; wp_geometry := None |}.

(** [calculateWalkingSegment]; it never throws. *)
Definition calculateWalkingSegment (pg : PostGIS) (solve : Dijkstra) (db : Database)
    (from to : Point) (preferences : Preferences) (gviMonth : string)
  : WalkingPath :=
  match nearest_vertex db from, nearest_vertex db to with
  | Some fromNode, Some toNode =>
      let row := walking_route_query pg solve db preferences gviMonth
                   (vertex_id fromNode) (vertex_id toNode) in
      match road_ids row with
      | None => no_walking_path
      | Some roadIds =>
          let distance := total_length row in
          {| wp_duration := JS.div (JS.of_nullable distance) (JS.Num walkingSpeed);
             wp_distance := distance;
             wp_roadIds := roadIds;
             wp_geometry := parse_geometry (merged_geom row) |}
      end
  | _, _ => no_walking_path
  end.

(** *** Deduplication of walking routes *)

(** The fingerprint of [deduplicateRoutes]:
    [segments.filter(s => s.roadIds).flatMap(s => s.roadIds).sort().join(',')].
    [sort()] without a comparator orders the ids as strings. *)
Definition fingerprint (route : RoutePlan) : string :=
  String.concat ","
    (sort_by String.leb
       (List.map (fun i : Z => pretty i)
          (flat_map (fun s => match roadIds s with Some l => l | None => [] end)
                    (segments route)))).

(** The loop of [deduplicateRoutes], with the set [seen] and the array
    [unique]. *)
Fixpoint dedup_loop (routes : list RoutePlan) (seen : gset string)
    (unique : list RoutePlan) : list RoutePlan :=
  match routes with
  | [] => unique
  | route :: rest =>
      let fp := fingerprint route in
      if decide (fp ∈ seen) then dedup_loop rest seen unique
      else dedup_loop rest ({[fp]} ∪ seen) (unique ++ [route])
  end.

Definition deduplicateRoutes (routes : list RoutePlan) : list RoutePlan :=
  dedup_loop routes ∅ [].

(** [generateWalkingCandidates]: the three strategies in priority order;
    a strategy whose route throws is skipped. *)
Definition strategies (preferences : Preferences) : list (Strategy * Preferences) :=
  [ (UserPreference, preferences);
    (ASAP, {| time := 1; green := 0 |});
    (GROOT, {| time := 0; green := 1 |}) ].

Definition with_dgvi_and_strategy (route : RoutePlan) (segs : list Segment)
    (d : JS.number) (name : Strategy) : RoutePlan :=
  {| routeId := routeId route; routeType := routeType route;
     segments := segs; totalDuration := totalDuration route;
     origin := origin route; destination := destination route;
     totalAcDGVI := d; durationScore := durationScore route;
     acDGVIScore := acDGVIScore route; totalScore := totalScore route;
     gviDataMonth := gviDataMonth route; strategy := Some name |}.

Definition walking_candidates (pg : PostGIS) (solve : Dijkstra) (db : Database)
    (stamp : Z) (origin destination : Point) (gviMonth : string)
    (preferences : Preferences) : list RoutePlan :=
  flat_map (fun st : Strategy * Preferences =>
    match calculateWalkingRoute pg solve db stamp origin destination gviMonth (snd st) with
    | Normal route =>
        let '(d, segs) :=
          RouteDGVI.calculateRouteDGVI pg solve db (segments route) gviMonth in
        [with_dgvi_and_strategy route segs (JS.Num d) (fst st)]
    | Thrown _ => []
    end) (strategies preferences).

Definition generateWalkingCandidates (pg : PostGIS) (solve : Dijkstra)
    (db : Database) (stamp : Z) (origin destination : Point) (gviMonth : string)
    (preferences : Preferences) : list RoutePlan :=
  let candidates :=
    walking_candidates pg solve db stamp origin destination gviMonth preferences in
  let uniqueRoutes := deduplicateRoutes candidates in
  firstn 2 uniqueRoutes.

(** ** The planner: direct bus routes *)

(** A nearby site, as [findNearbySites] returns it. *)
Record Site := {
  siteId : Z;
  siteName : string;
  site_lat : Q;
  site_lon : Q;
  walkingDistance : Q
}.

Definition same_site (a b : Site) : bool :=
  (siteId a =? siteId b)%Z && String.eqb (siteName a) (siteName b)
  && Qeq_bool (site_lat a) (site_lat b) && Qeq_bool (site_lon a) (site_lon b).

(** SQL [UNION] / [DISTINCT]: the first of each group of equal rows. *)
Fixpoint distinct {A} (same : A -> A -> bool) (l : list A) : list A :=
  match l with
  | [] => []
  | x :: l' => x :: List.filter (fun y => negb (same x y)) (distinct same l')
  end.

(** [findNearbySites]: the sites within walking distance and the three
    closest sites, by distance, at most five. *)
Definition findNearbySites (pg : PostGIS) (db : Database) (point : Point)
  : list Site :=
  let maxWalkingDistance := maxWalkingTime * walkingSpeed in
  let row (bs : BusSite) :=
    {| siteId := bs_site_id bs; siteName := bs_site_name bs;
       site_lat := snd (bs_geom bs); site_lon := fst (bs_geom bs);
       walkingDistance := geo_distance pg (bs_geom bs) point |} in
  let walking_sites :=
    List.filter (fun bs => Qle_bool (geo_distance pg (bs_geom bs) point)
                                    maxWalkingDistance) (sl_bus_sites db) in
  let closest_sites :=
    firstn 3 (sort_by (fun a b => Qle_bool (sq_dist (bs_geom a) point)
                                           (sq_dist (bs_geom b) point))
                      (sl_bus_sites db)) in
  firstn 5
    (sort_by (fun a b => Qle_bool (walkingDistance a) (walkingDistance b))
       (distinct same_site (List.map row (walking_sites ++ closest_sites)))).

(** [getStopPointSite]: the row of the stop point, or [null]. *)
Definition getStopPointSite (db : Database) (stopPointId : Z) : option StopPoint :=
  List.find (fun sp => (stop_point_id sp =? stopPointId)%Z) (sl_bus_stop_points db).

Definition stop_info (sp : StopPoint) : StopInfo :=
  {| si_stop_point_id := Some (stop_point_id sp);
     si_site_id := sp_site_id sp;
     si_stop_name := Some (stop_point_name sp);
     si_lat := Some (snd (sp_geom sp));
     si_lon := Some (fst (sp_geom sp)) |}.

(** A JavaScript [Map] that is iterated: an association list in insertion
    order; [set] on a present key replaces the value in place. *)
Fixpoint map_set {V} (k : Z) (v : V) (m : list (Z * V)) : list (Z * V) :=
  match m with
  | [] => [(k, v)]
  | (k', v') :: m' =>
      if (k' =? k)%Z then (k, v) :: m' else (k', v') :: map_set k v m'
  end.

Definition map_get {V} (k : Z) (m : list (Z * V)) : option V :=
  option_map snd (List.find (fun kv => (fst kv =? k)%Z) m).

Record JourneyInfo := {
  ji_siteId : Z;
  ji_stopPointId : Z;
  ji_expectedTime : Z;
  ji_lineId : option Z;
  ji_directionCode : option Z
}.

Definition dep_stop_id (dep : SLApi.Departure) : option Z :=
  match SLApi.stop_point dep with
  | Some sp => SLApi.sp_id sp
  | None => None
  end.

Definition dep_line_id (dep : SLApi.Departure) : option Z :=
  match SLApi.line dep with
  | Some l => SLApi.line_id l
  | None => None
  end.

(** [departuresCache.get(site.siteId) || []] for each site, as a [Map]. *)
Definition site_departures (sites : list Site)
    (departuresCache : gmap Z (list SLApi.Departure))
  : list (Z * list SLApi.Departure) :=
  fold_left (fun m site =>
               map_set (siteId site)
                       (default [] (departuresCache !! siteId site)) m)
            sites [].

(** The journeys seen at the origin sites. *)
Definition origin_journeys (originDepartures : list (Z * list SLApi.Departure))
  : list (Z * JourneyInfo) :=
  fold_left (fun m (sd : Z * list SLApi.Departure) =>
    fold_left (fun m dep =>
      match SLApi.journey_id dep, dep_stop_id dep with
      | Some j, Some sp =>
          if negb (j =? 0)%Z && negb (sp =? 0)%Z then
            map_set j {| ji_siteId := fst sd; ji_stopPointId := sp;
                         ji_expectedTime := SLApi.expected dep;
                         ji_lineId := dep_line_id dep;
                         ji_directionCode := SLApi.direction_code dep |} m
          else m
      | _, _ => m
      end) (snd sd) m) originDepartures [].

(** The journeys seen at the destination sites that also left from an
    origin site on the same line and direction. *)
Definition dest_journeys (originJourneys : list (Z * JourneyInfo))
    (destDepartures : list (Z * list SLApi.Departure)) : list (Z * JourneyInfo) :=
  fold_left (fun m (sd : Z * list SLApi.Departure) =>
    fold_left (fun m dep =>
      match SLApi.journey_id dep, dep_stop_id dep with
      | Some j, Some sp =>
          if negb (j =? 0)%Z && negb (sp =? 0)%Z then
            match map_get j originJourneys with
            | Some originInfo =>
                if bool_decide (ji_lineId originInfo = dep_line_id dep)
                   && bool_decide (ji_directionCode originInfo
                                   = SLApi.direction_code dep)
                then map_set j {| ji_siteId := fst sd; ji_stopPointId := sp;
                                  ji_expectedTime := SLApi.expected dep;
                                  ji_lineId := dep_line_id dep;
                                  ji_directionCode := None |} m
                else m
            | None => m
            end
          else m
      | _, _ => m
      end) (snd sd) m) destDepartures [].

Definition seconds_between (later earlier : Z) : Q :=
  inject_Z (later - earlier) / 1000.

(** The body of the loop of [findDirectRoutes] over the origin journeys:
    the route of one journey, if it passes every check. *)
Definition direct_route (pg : PostGIS) (solve : Dijkstra) (db : Database)
    (stamp : Z) (originSites destinationSites : list Site) (currentTime : Z)
    (maxDuration : Q) (gviMonth : string) (preferences : Preferences)
    (destJourneys : list (Z * JourneyInfo)) (journey : Z * JourneyInfo)
  : option RoutePlan :=
  let depInfo := snd journey in
  arrInfo ← map_get (fst journey) destJourneys;
  let travelTime := seconds_between (ji_expectedTime arrInfo) (ji_expectedTime depInfo) in
  if Qle_bool travelTime 0 || negb (Qle_bool travelTime maxDuration) then None else
  originSite ← List.find (fun s => (siteId s =? ji_siteId depInfo)%Z) originSites;
  let walkingTimeToDep := walkingDistance originSite / walkingSpeed in
  let timeUntilDeparture := seconds_between (ji_expectedTime depInfo) currentTime in
  if negb (Qle_bool (walkingTimeToDep + 60) timeUntilDeparture) then None else
  departureStopInfo ← getStopPointSite db (ji_stopPointId depInfo);
  arrivalStopInfo ← getStopPointSite db (ji_stopPointId arrInfo);
  destSite ← List.find (fun s => (siteId s =? ji_siteId arrInfo)%Z) destinationSites;
  let walkingToDep :=
    calculateWalkingSegment pg solve db
      (site_lon originSite, site_lat originSite) (sp_geom departureStopInfo)
      preferences gviMonth in
  let walkingFromArr :=
    calculateWalkingSegment pg solve db
      (sp_geom arrivalStopInfo) (site_lon destSite, site_lat destSite)
      preferences gviMonth in
  let total :=
    JS.add (JS.add (wp_duration walkingToDep) (JS.Num travelTime))
           (wp_duration walkingFromArr) in
  Some (createDirectBusRoute stamp
    {| db_origin := to_latlon (site_lon originSite, site_lat originSite);
       db_destination := to_latlon (site_lon destSite, site_lat destSite);
       walkingToDeparture := wp_duration walkingToDep;
       walkingToDepDistance := JS.of_nullable (wp_distance walkingToDep);
       walkingToDepRoadIds := wp_roadIds walkingToDep;
       walkingToDepGeometry := wp_geometry walkingToDep;
       departureStop := stop_info departureStopInfo;
       arrivalStop := stop_info arrivalStopInfo;
       busRideDuration := JS.Num travelTime;
       walkingFromArrival := wp_duration walkingFromArr;
       walkingFromArrDistance := JS.of_nullable (wp_distance walkingFromArr);
       walkingFromArrRoadIds := wp_roadIds walkingFromArr;
       walkingFromArrGeometry := wp_geometry walkingFromArr;
       db_lineId := ji_lineId depInfo;
       db_directionCode := ji_directionCode depInfo;
       db_expectedDeparture := ji_expectedTime depInfo;
       db_expectedArrival := ji_expectedTime arrInfo;
       db_totalDuration := total;
       db_gviDataMonth := gviMonth |}).

(** [findDirectRoutes] *)
Definition findDirectRoutes (pg : PostGIS) (solve : Dijkstra) (db : Database)
    (stamp : Z) (originSites destinationSites : list Site) (currentTime : Z)
    (maxDuration : Q) (gviMonth : string)
    (departuresCache : gmap Z (list SLApi.Departure)) (preferences : Preferences)
  : list RoutePlan :=
  let originDepartures := site_departures originSites departuresCache in
  let destDepartures := site_departures destinationSites departuresCache in
  let originJourneys := origin_journeys originDepartures in
  let destJourneys := dest_journeys originJourneys destDepartures in
  omap (direct_route pg solve db stamp originSites destinationSites currentTime
          maxDuration gviMonth preferences destJourneys)
       originJourneys.

(** *** Ranking and scoring of bus routes *)

(** [getRouteArrivalTime], in milliseconds: the arrival of the last segment
    that has one, else [now + totalDuration * 1000]. *)
Definition getRouteArrivalTime (now : Z) (route : RoutePlan) : JS.number :=
  match List.find (fun s => match s with BusRide _ => true | _ => false end)
                  (List.rev (segments route)) with
  | Some (BusRide r) => JS.Num (inject_Z (br_expectedArrival r))
  | _ => JS.add (JS.Num (inject_Z now))
                (JS.mul (totalDuration route) (JS.Num 1000))
  end.

(** A comparator [(a, b) => key(a) - key(b)] as the test "a need not move
    behind b"; a [NaN] difference counts as 0. *)
Definition ascending (key : RoutePlan -> JS.number) (a b : RoutePlan) : bool :=
  negb (JS.gt (JS.sub (key a) (key b)) (JS.Num 0)).

Definition descending (key : RoutePlan -> JS.number) (a b : RoutePlan) : bool :=
  negb (JS.gt (JS.sub (key b) (key a)) (JS.Num 0)).

Definition with_dgvi (route : RoutePlan) (d : JS.number) : RoutePlan :=
  {| routeId := routeId route; routeType := routeType route;
     segments := segments route; totalDuration := totalDuration route;
     origin := origin route; destination := destination route;
     totalAcDGVI := d; durationScore := durationScore route;
     acDGVIScore := acDGVIScore route; totalScore := totalScore route;
     gviDataMonth := gviDataMonth route; strategy := strategy route |}.

Definition with_scores (route : RoutePlan) (dur acd tot : JS.number) : RoutePlan :=
  {| routeId := routeId route; routeType := routeType route;
     segments := segments route; totalDuration := totalDuration route;
     origin := origin route; destination := destination route;
     totalAcDGVI := totalAcDGVI route; durationScore := dur;
     acDGVIScore := acd; totalScore := tot;
     gviDataMonth := gviDataMonth route; strategy := strategy route |}.

Definition with_segments (route : RoutePlan) (segs : list Segment) : RoutePlan :=
  {| routeId := routeId route; routeType := routeType route;
     segments := segs; totalDuration := totalDuration route;
     origin := origin route; destination := destination route;
     totalAcDGVI := totalAcDGVI route; durationScore := durationScore route;
     acDGVIScore := acDGVIScore route; totalScore := totalScore route;
     gviDataMonth := gviDataMonth route; strategy := strategy route |}.

(** The two normalised values of [scoreBusRoutes] for one route. *)
Definition timeNorm (minTime maxTime : JS.number) (route : RoutePlan) : JS.number :=
  if JS.gt maxTime minTime
  then JS.div (JS.sub (totalDuration route) minTime) (JS.sub maxTime minTime)
  else JS.Num 0.

Definition dgviNorm (minDGVI maxDGVI : JS.number) (route : RoutePlan) : JS.number :=
  if JS.gt maxDGVI minDGVI
  then JS.div (JS.sub (totalAcDGVI route) minDGVI) (JS.sub maxDGVI minDGVI)
  else JS.Num 0.

(** The penalty [preferences.time * timeNorm + preferences.green * (1 - dgviNorm)]. *)
Definition penalty (preferences : Preferences) (tn dn : JS.number) : JS.number :=
  JS.add (JS.mul (JS.Num (time preferences)) tn)
         (JS.mul (JS.Num (green preferences)) (JS.sub (JS.Num 1) dn)).

Record Bounds := {
  minTime : JS.number;
  maxTime : JS.number;
  minDGVI : JS.number;
  maxDGVI : JS.number
}.

(** [Math.min(...)] and [Math.max(...)] over the routes; the array is not
    empty where they are taken. *)
Definition bounds (first : RoutePlan) (others : list RoutePlan) : Bounds :=
  let dgvi_or_zero r := JS.or_else (totalAcDGVI r) (JS.Num 0) in
  {| minTime := JS.math_min (totalDuration first) (List.map totalDuration others);
     maxTime := JS.math_max (totalDuration first) (List.map totalDuration others);
     minDGVI := JS.math_min (dgvi_or_zero first) (List.map dgvi_or_zero others);
     maxDGVI := JS.math_max (dgvi_or_zero first) (List.map dgvi_or_zero others) |}.

Definition score_route (preferences : Preferences) (b : Bounds) (route : RoutePlan)
  : RoutePlan :=
  let tn := timeNorm (minTime b) (maxTime b) route in
  let dn := dgviNorm (minDGVI b) (maxDGVI b) route in
  let totalScore := penalty preferences tn dn in
  with_scores route (JS.sub (JS.Num 1) tn) dn (JS.sub (JS.Num 1) totalScore).

(** [scoreBusRoutes] *)
Definition scoreBusRoutes (routes : list RoutePlan) (preferences : Preferences)
  : list RoutePlan :=
  match routes with
  | [] => []
  | first :: others =>
      let b := bounds first others in
      sort_by (descending totalScore) (List.map (score_route preferences b) routes)
  end.

(** *** Visualization enrichment *)

(** A recursive query, level by level; [step] gives the rows that one row
    of the working table adds. *)
Fixpoint recursive_query {R} (fuel : nat) (step : R -> list R) (working : list R)
  : list R :=
  match fuel with
  | O => []
  | S fuel' =>
      match working with
      | [] => []
      | _ => working ++ recursive_query fuel' step (flat_map step working)
      end
  end.

Definition on_line (lineId directionCode : option Z) (bt : BusTrip) : bool :=
  bool_decide (Some (bt_line_id bt) = lineId)
  && bool_decide (Some (bt_direction_code bt) = directionCode).

(** A row of [journey_path] in [getStopsAlongBusRide]. *)
Record PathRow := {
  pr_stop_point_id : Z;
  pr_next_stop_point_id : Z;
  pr_point : Point;
  pr_order : Z
}.

Definition stops_joined (db : Database) (lineId directionCode : option Z)
    (stop : Z) (order : Z) : list PathRow :=
  flat_map (fun bt =>
    if on_line lineId directionCode bt && (bt_stop_point_id bt =? stop)%Z then
      List.map (fun sp => {| pr_stop_point_id := bt_stop_point_id bt;
                             pr_next_stop_point_id := bt_next_stop_point_id bt;
                             pr_point := sp_geom sp; pr_order := order |})
        (List.filter (fun sp => (stop_point_id sp =? bt_stop_point_id bt)%Z)
                     (sl_bus_stop_points db))
    else []) (sl_bus_trips db).

(** [getStopsAlongBusRide]: the stops from the start of the ride until its
    end, at most 50 levels. *)
Definition getStopsAlongBusRide (db : Database) (lineId directionCode : option Z)
    (startStopId endStopId : Z) : list StopAlong :=
  let step (jp : PathRow) :=
    if negb (pr_next_stop_point_id jp =? endStopId)%Z && (pr_order jp <? 50)%Z
    then stops_joined db lineId directionCode (pr_next_stop_point_id jp)
                      (pr_order jp + 1)
    else [] in
  List.map (fun r => {| sa_stopPointId := pr_stop_point_id r;
                        sa_lat := snd (pr_point r); sa_lon := fst (pr_point r);
                        sa_sequenceOrder := pr_order r |})
    (recursive_query 50 step (stops_joined db lineId directionCode startStopId 1)).

(** [enrichBusRideVisualization] *)
Definition enrichBusRideVisualization (pg : PostGIS) (solve : Dijkstra)
    (db : Database) (gviMonth : string) (r : BusRideSegment) : BusRideSegment :=
  match br_startStopId r, br_endStopId r with
  | Some a, Some b =>
      if JS.truthy_id (br_startStopId r) && JS.truthy_id (br_endStopId r)
         && JS.truthy_id (br_lineId r)
         && bool_decide (br_directionCode r <> None)
      then
        let busRideData := RouteDGVI.calculateBusRideDGVI pg solve db a b gviMonth in
        let enriched := match RouteDGVI.brr_geometry busRideData with
                        | Some g => (Some g,
                                     default [] (RouteDGVI.brr_roadIds busRideData))
                        | None => (br_geometry r, br_roadIds r)
                        end in
        {| br_duration := br_duration r;
           br_startStopId := br_startStopId r;
           br_endStopId := br_endStopId r;
           br_startStopInfo := br_startStopInfo r;
           br_endStopInfo := br_endStopInfo r;
           br_lineId := br_lineId r;
           br_directionCode := br_directionCode r;
           br_expectedDeparture := br_expectedDeparture r;
           br_expectedArrival := br_expectedArrival r;
           br_geometry := fst enriched;
           br_roadIds := snd enriched;
           br_stopsAlong :=
             Some (getStopsAlongBusRide db (br_lineId r) (br_directionCode r) a b) |}
      else r
  | _, _ => r
  end.

(** [enrichVisualizationData] *)
Definition enrichVisualizationData (pg : PostGIS) (solve : Dijkstra)
    (db : Database) (gviMonth : string) (routes : list RoutePlan)
  : list RoutePlan :=
  List.map (fun route =>
    with_segments route
      (List.map (fun s => match s with
                          | BusRide r =>
                              BusRide (enrichBusRideVisualization pg solve db gviMonth r)
                          | _ => s
                          end) (segments route))) routes.

(** *** [generateBusCandidates] and [planRoutes] *)

(** Step 5: the waiting DGVI of a route, over its waiting segments. *)
Definition waiting_dgvi (pg : PostGIS) (db : Database) (gviMonth : string)
    (route : RoutePlan) : Q :=
  fold_left (fun waitingDGVI s =>
               match s with
               | BusWaiting b =>
                   waitingDGVI
                   + RouteDGVI.calculateWaitingDGVI pg db (bw_stopGeom b) gviMonth
               | _ => waitingDGVI
               end) (segments route) 0.

Definition generateBusCandidates (pg : PostGIS) (solve : Dijkstra) (db : Database)
    (feed : nat -> SLApi.Request -> SLApi.HttpResult)
    (origin destination : Point) (currentTime : Z) (gviMonth : string)
    (preferences : Preferences) : list RoutePlan :=
  let originSites := findNearbySites pg db origin in
  let destinationSites := findNearbySites pg db destination in
  match originSites, destinationSites with
  | [], _ | _, [] => []
  | _, _ =>
      let allSiteIds := List.map siteId originSites ++ List.map siteId destinationSites in
      match SLApi.getBatchDepartures feed allSiteIds 1200 with
      | Thrown _ => []
      | Normal departuresCache =>
          let directRoutes :=
            findDirectRoutes pg solve db currentTime originSites destinationSites
              currentTime 3600 gviMonth departuresCache preferences in
          let sorted := sort_by (ascending (getRouteArrivalTime currentTime))
                                directRoutes in
          let top5Routes := firstn 5 sorted in
          let withDGVI :=
            List.map (fun route =>
                        with_dgvi route (JS.Num (waiting_dgvi pg db gviMonth route)))
                     top5Routes in
          let scoredRoutes := scoreBusRoutes withDGVI preferences in
          let top2Routes := firstn 2 scoredRoutes in
          enrichVisualizationData pg solve db gviMonth top2Routes
      end
  end.

Record Options := {
  opt_gviMonth : option string;
  opt_preferences : option Preferences;
  opt_maxResults : option Z
}.

(** [planRoutes]: the defaults of the destructured options, the two
    candidate generators, and the first two routes of each.  [now] is the
    reading of the clock during the request. *)
Definition planRoutes (pg : PostGIS) (solve : Dijkstra) (db : Database)
    (feed : nat -> SLApi.Request -> SLApi.HttpResult) (now : Z)
    (origin destination : Point) (options : Options)
  : completion (list RoutePlan) :=
  let gviMonth := default "2025-06" (opt_gviMonth options) in
  let preferences := default {| time := 0.5; green := 0.5 |}
                             (opt_preferences options) in
  let maxResults := default 4%Z (opt_maxResults options) in
  let currentTime := now in
  let walkingRoutes :=
    generateWalkingCandidates pg solve db now origin destination gviMonth preferences in
  let busRoutes :=
    generateBusCandidates pg solve db feed origin destination currentTime
                          gviMonth preferences in
  (* [.filter(r => r !== null)] keeps every route: none is null *)
  let finalRoutes := firstn 2 walkingRoutes ++ firstn 2 busRoutes in
  Normal finalRoutes.

End Engine.

(** ** The planner: one-transfer search ([routing_engine.js], [query_agent.js]) *)

Module Transfer.
Import DB PathSolver Route Engine.
Local Open Scope Q_scope.

(** [QueryAgent]: a virtual passenger who boarded a departure at an origin
    site. *)
Record QueryAgent := {
  journeyId : Z;
  lineId : option Z;
  directionCode : option Z;
  currentStopId : Z;
  nominalTime : Z;
  departure_expectedTime : Z;          (* departureInfo.expectedTime *)
  originSite : Site;
  departureStopInfo : StopPoint
}.

(** The row of [getNextStopDirect]. *)
Record NextStop := {
  next_stop_point_id : Z;
  next_site_id : option Z;
  next_name : string
}.

(** [getNextStopDirect]: the successor of the stop on the line and
    direction, joined with its stop point; [LIMIT 1].  The engine memoises
    the answer per [(line, direction, stop)]; the tables do not change
    during the search, so the memo is transparent. *)
Definition getNextStopDirect (db : Database) (line direction : option Z)
    (stop : Z) : option NextStop :=
  head (flat_map (fun bt =>
    if on_line line direction bt && (bt_stop_point_id bt =? stop)%Z then
      List.map (fun sp => {| next_stop_point_id := bt_next_stop_point_id bt;
                             next_site_id := sp_site_id sp;
                             next_name := stop_point_name sp |})
        (List.filter (fun sp => (stop_point_id sp =? bt_next_stop_point_id bt)%Z)
                     (sl_bus_stop_points db))
    else []) (sl_bus_trips db)).

(** A row of [journey_path] in [checkJourneyDestinations]. *)
Record ReachRow := {
  rr_next_stop_point_id : Z;
  rr_site_id : option Z;
  rr_depth : Z
}.

Definition reach_joined (db : Database) (line direction : option Z) (stop : Z)
    (depth : Z) : list ReachRow :=
  flat_map (fun bt =>
    if on_line line direction bt && (bt_stop_point_id bt =? stop)%Z then
      List.map (fun sp => {| rr_next_stop_point_id := bt_next_stop_point_id bt;
                             rr_site_id := sp_site_id sp; rr_depth := depth |})
        (List.filter (fun sp => (stop_point_id sp =? bt_next_stop_point_id bt)%Z)
                     (sl_bus_stop_points db))
    else []) (sl_bus_trips db).

(** [checkJourneyDestinations]: the destination sites the journey reaches
    within 20 stops. *)
Definition checkJourneyDestinations (db : Database) (line direction : option Z)
    (stop : Z) (destSiteIds : list Z) : list Z :=
  let step (jp : ReachRow) :=
    if (rr_depth jp <? 20)%Z
    then reach_joined db line direction (rr_next_stop_point_id jp) (rr_depth jp + 1)
    else [] in
  distinct Z.eqb
    (List.filter (fun site => existsb (Z.eqb site) destSiteIds)
       (omap rr_site_id
          (recursive_query 20 step (reach_joined db line direction stop 1)))).

Record Connection := {
  c_journeyId : Z;
  c_lineId : option Z;
  c_departureTime : Z;
  c_departureStopId : Z;
  c_transferSiteId : option Z;
  c_destSiteId : Z;
  c_destSite : Site;
  c_directionCode : option Z
}.

(** The loop of [findConnectionsFromCachedDepartures]: [processedKeys] holds
    the [(stop point, direction)] pairs already handled. *)
Fixpoint connections_loop (db : Database) (destinationSites : list Site)
    (earliestTime : Z) (transferSiteId : option Z)
    (departures : list SLApi.Departure) (processedKeys : list (Z * option Z))
    (connections : list Connection) : list Connection :=
  match departures with
  | [] => connections
  | dep :: rest =>
      let continue := connections_loop db destinationSites earliestTime
                        transferSiteId rest in
      if (SLApi.expected dep <? earliestTime)%Z then
        continue processedKeys connections
      else
        match SLApi.journey_id dep, dep_stop_id dep with
        | Some j, Some sp =>
            if negb (j =? 0)%Z && negb (sp =? 0)%Z then
              let stopKey := (sp, SLApi.direction_code dep) in
              if bool_decide (stopKey ∈ processedKeys) then
                continue processedKeys connections
              else
                let reachable :=
                  checkJourneyDestinations db (dep_line_id dep)
                    (SLApi.direction_code dep) sp
                    (List.map siteId destinationSites) in
                let found :=
                  omap (fun destSiteId =>
                    destSite ← List.find (fun s => (siteId s =? destSiteId)%Z)
                                         destinationSites;
                    Some {| c_journeyId := j;
                            c_lineId := dep_line_id dep;
                            c_departureTime := SLApi.expected dep;
                            c_departureStopId := sp;
                            c_transferSiteId := transferSiteId;
                            c_destSiteId := destSiteId;
                            c_destSite := destSite;
                            c_directionCode := SLApi.direction_code dep |})
                    (distinct Z.eqb reachable) in
                continue (stopKey :: processedKeys) (connections ++ found)
            else continue processedKeys connections
        | _, _ => continue processedKeys connections
        end
  end.

(** [findConnectionsFromCachedDepartures]: over the first 10 departures, at
    most 5 connections. *)
Definition findConnectionsFromCachedDepartures (db : Database)
    (departures : list SLApi.Departure) (destinationSites : list Site)
    (earliestTime : Z) (transferSiteId : option Z) : list Connection :=
  firstn 5 (connections_loop db destinationSites earliestTime transferSiteId
              (firstn 10 departures) [] []).

(** [calculateStopPointDistance]: the haversine distance of two stops.  The
    trigonometry is the parameter [great_circle]; a coordinate that is
    [undefined] makes the result [NaN]. *)
Definition calculateStopPointDistance (great_circle : Point -> Point -> Q)
    (stop1 stop2 : StopInfo) : JS.number :=
  match si_lon stop1, si_lat stop1, si_lon stop2, si_lat stop2 with
  | Some x1, Some y1, Some x2, Some y2 => JS.Num (great_circle (x1, y1) (x2, y2))
  | _, _, _, _ => JS.NaN
  end.

(** [createTransferRoutePlan]; [transferStop] is not used by the body. *)
Definition createTransferRoutePlan (great_circle : Point -> Point -> Q)
    (db : Database) (stamp : Z) (agent : QueryAgent) (nextStopSite : StopInfo)
    (connection : Connection) (maxDuration : Q) (transferArrivalTime : Z)
    (gviMonth : string) : option RoutePlan :=
  let transferArrivalStopInfo := nextStopSite in
  match getStopPointSite db (c_departureStopId connection) with
  | None => None
  | Some departureRow =>
      let transferDepartureStopInfo := stop_info departureRow in
      let intraSiteDistance :=
        if bool_decide (si_stop_point_id transferArrivalStopInfo
                        <> si_stop_point_id transferDepartureStopInfo)
        then calculateStopPointDistance great_circle transferArrivalStopInfo
                                        transferDepartureStopInfo
        else JS.Num 0 in
      let intraSiteWalk :=
        if bool_decide (si_stop_point_id transferArrivalStopInfo
                        <> si_stop_point_id transferDepartureStopInfo)
        then JS.div intraSiteDistance (JS.Num walkingSpeed)
        else JS.Num 0 in
      let walkingToFirst :=
        JS.Num (walkingDistance (originSite agent) / walkingSpeed) in
      let firstBusRide :=
        JS.Num (seconds_between transferArrivalTime (departure_expectedTime agent)) in
      let transferWaiting :=
        JS.max2 (JS.sub (JS.Num (seconds_between (c_departureTime connection)
                                                 transferArrivalTime))
                        intraSiteWalk)
                (JS.Num transferMargin) in
      let secondBusRide := JS.Num (10 * 60) in
      let walkingFromFinal :=
        JS.Num (walkingDistance (c_destSite connection) / walkingSpeed) in
      let total :=
        JS.add (JS.add (JS.add (JS.add (JS.add walkingToFirst firstBusRide)
                                       intraSiteWalk)
                               transferWaiting)
                       secondBusRide)
               walkingFromFinal in
      if JS.gt total (JS.Num maxDuration) then None
      else
        Some (createTransferRoute stamp
          {| tc_origin := to_latlon (site_lon (originSite agent),
                                     site_lat (originSite agent));
             tc_destination := to_latlon (site_lon (c_destSite connection),
                                          site_lat (c_destSite connection));
             walkingToFirst := walkingToFirst;
             walkingToFirstDistance := JS.Num (walkingDistance (originSite agent));
             firstDepartureStop := stop_info (departureStopInfo agent);
             firstLineId := lineId agent;
             firstDeparture := departure_expectedTime agent;
             firstBusRideDuration := firstBusRide;
             firstArrival := transferArrivalTime;
             transferArrivalStop := transferArrivalStopInfo;
             transferDepartureStop := transferDepartureStopInfo;
             transferSiteId := c_transferSiteId connection;
             tc_intraSiteWalk := intraSiteWalk;
             intraSiteDistance := intraSiteDistance;
             transferWaiting := transferWaiting;
             secondLineId := c_lineId connection;
             secondDeparture := c_departureTime connection;
             secondBusRideDuration := secondBusRide;
             secondArrival := (c_departureTime connection + 600 * 1000)%Z;
             finalArrivalStop := transferDepartureStopInfo;
             walkingFromFinal := walkingFromFinal;
             walkingFromFinalDistance :=
               JS.Num (walkingDistance (c_destSite connection));
             tc_totalDuration := total;
             tc_gviDataMonth := gviMonth |})
  end.

(** The stop-information object the chain search hands to
    [createTransferRoutePlan] for the stop where the first ride ends:
    [{ site_id: nextStopInfo.next_site_id, stop_name: nextStopInfo.next_name }]. *)
Definition next_stop_site (n : NextStop) : StopInfo :=
  {| si_stop_point_id := None;
     si_site_id := next_site_id n;
     si_stop_name := Some (next_name n);
     si_lat := None;
     si_lon := None |}.

(** What the chain search of one agent produces: the itineraries, and (for
    the statement of the hop bound) the stops the agent was carried to, one
    per successful successor query. *)
Record Chain := {
  transferRoutes : list RoutePlan;
  hops : list Z
}.

(** The inner loop over [connections.slice(0, 2)]; the flag tells that the
    function returned from inside the loop. *)
Fixpoint emit_connections (great_circle : Point -> Point -> Q) (db : Database)
    (stamp : Z) (agent : QueryAgent) (n : NextStop) (maxDuration : Q)
    (estimatedTime : Z) (gviMonth : string) (connections : list Connection)
    (routes : list RoutePlan) : list RoutePlan * bool :=
  match connections with
  | [] => (routes, false)
  | connection :: rest =>
      let marginSeconds := seconds_between (c_departureTime connection) estimatedTime in
      if Qle_bool 60 marginSeconds then
        match createTransferRoutePlan great_circle db stamp agent (next_stop_site n)
                connection maxDuration estimatedTime gviMonth with
        | Some transferRoute =>
            let routes' := routes ++ [transferRoute] in
            if (2 <=? List.length routes')%nat then (routes', true)
            else emit_connections great_circle db stamp agent n maxDuration
                   estimatedTime gviMonth rest routes'
        | None =>
            emit_connections great_circle db stamp agent n maxDuration
              estimatedTime gviMonth rest routes
        end
      else
        emit_connections great_circle db stamp agent n maxDuration
          estimatedTime gviMonth rest routes
  end.

(** The loop [for (let stepCount = 0; stepCount < 10; stepCount++)] of
    [findTransferChainCached], with [remaining = 10 - stepCount]. *)
Fixpoint chain_loop (great_circle : Point -> Point -> Q) (db : Database)
    (stamp : Z) (agent : QueryAgent) (destinationSites : list Site)
    (maxDuration : Q) (gviMonth : string)
    (cache : gmap Z (list SLApi.Departure))
    (remaining : nat) (currentStop : Z) (estimatedTime : Z) (acc : Chain)
  : Chain :=
  match remaining with
  | O => acc
  | S remaining' =>
      match getNextStopDirect db (lineId agent) (directionCode agent) currentStop with
      | None => acc
      | Some nextStopInfo =>
          let acc := {| transferRoutes := transferRoutes acc;
                        hops := hops acc ++ [next_stop_point_id nextStopInfo] |} in
          let estimatedTime := (estimatedTime + 90 * 1000)%Z in
          let transferTime := (estimatedTime + 60 * 1000)%Z in
          let totalTimeUsed := seconds_between transferTime (nominalTime agent) in
          if negb (Qle_bool totalTimeUsed maxDuration) then acc
          else
            let cachedDepartures :=
              match next_site_id nextStopInfo with
              | Some site => default [] (cache !! site)
              | None => []
              end in
            let connections :=
              findConnectionsFromCachedDepartures db cachedDepartures
                destinationSites transferTime (next_site_id nextStopInfo) in
            let '(routes, returned) :=
              emit_connections great_circle db stamp agent nextStopInfo maxDuration
                estimatedTime gviMonth (firstn 2 connections) (transferRoutes acc) in
            let acc := {| transferRoutes := routes; hops := hops acc |} in
            if returned then acc
            else chain_loop great_circle db stamp agent destinationSites maxDuration
                   gviMonth cache remaining'
                   (next_stop_point_id nextStopInfo) estimatedTime acc
      end
  end.

(** [findTransferChainCached] *)
Definition findTransferChainCached (great_circle : Point -> Point -> Q)
    (db : Database) (stamp : Z) (agent : QueryAgent)
    (destinationSites : list Site) (maxDuration : Q) (gviMonth : string)
    (transferDeparturesCache : gmap Z (list SLApi.Departure)) : Chain :=
  chain_loop great_circle db stamp agent destinationSites maxDuration gviMonth
    transferDeparturesCache 10 (currentStopId agent) (nominalTime agent)
    {| transferRoutes := []; hops := [] |}.

(** Step 1 of [findTransferRoutes]: an agent per departure of the first 10
    departures of every origin site. *)
Definition query_agents (db : Database) (originSites : list Site)
    (departuresCache : gmap Z (list SLApi.Departure)) : list QueryAgent :=
  flat_map (fun sd : Z * list SLApi.Departure =>
    omap (fun dep =>
      match SLApi.journey_id dep, dep_stop_id dep with
      | Some j, Some sp =>
          if negb (j =? 0)%Z && negb (sp =? 0)%Z then
            site ← List.find (fun s => (siteId s =? fst sd)%Z) originSites;
            departureStop ← getStopPointSite db sp;
            Some {| journeyId := j;
                    lineId := dep_line_id dep;
                    directionCode := SLApi.direction_code dep;
                    currentStopId := sp;
                    nominalTime := SLApi.expected dep;
                    departure_expectedTime := SLApi.expected dep;
                    originSite := site;
                    departureStopInfo := departureStop |}
          else None
      | _, _ => None
      end) (firstn 10 (snd sd)))
    (site_departures originSites departuresCache).

(** Step 3: the loop over the agents, left when 20 itineraries or more have
    been collected. *)
Fixpoint agents_loop (great_circle : Point -> Point -> Q) (db : Database)
    (stamp : Z) (destinationSites : list Site) (maxDuration : Q)
    (gviMonth : string) (departuresCache : gmap Z (list SLApi.Departure))
    (agents : list QueryAgent) (transferRoutes0 : list RoutePlan)
  : list RoutePlan :=
  match agents with
  | [] => transferRoutes0
  | agent :: rest =>
      let transfers :=
        transferRoutes (findTransferChainCached great_circle db stamp agent
                          destinationSites maxDuration gviMonth departuresCache) in
      let collected := transferRoutes0 ++ transfers in
      if (20 <=? List.length collected)%nat then collected
      else agents_loop great_circle db stamp destinationSites maxDuration
             gviMonth departuresCache rest collected
  end.

(** [findTransferRoutes] *)
Definition findTransferRoutes (great_circle : Point -> Point -> Q) (db : Database)
    (stamp : Z) (originSites destinationSites : list Site) (currentTime : Z)
    (maxDuration : Q) (gviMonth : string)
    (departuresCache : gmap Z (list SLApi.Departure)) : list RoutePlan :=
  agents_loop great_circle db stamp destinationSites maxDuration gviMonth
    departuresCache (query_agents db originSites departuresCache) [].

End Transfer.

(** ** A small city, to run the embedding on

    Streets are axis-parallel segments on a grid whose unit is 100 m.  A GVI
    point is within the buffer of a street when it lies on it, and its
    position is its fraction along the street.  Distances are Manhattan
    distances. *)

Module City.
Import DB.
Local Open Scope Q_scope.

Definition on_street (street : Polyline) (p : Point) : bool :=
  match street with
  | [(x0, y0); (x1, y1)] =>
      (Qeq_bool (snd p) y0 && Qeq_bool y0 y1
       && Qle_bool x0 (fst p) && Qle_bool (fst p) x1)
      || (Qeq_bool (fst p) x0 && Qeq_bool x0 x1
          && Qle_bool y0 (snd p) && Qle_bool (snd p) y1)
  | _ => false
  end.

Definition fraction_along (street : Polyline) (p : Point) : Q :=
  match street with
  | [(x0, y0); (x1, y1)] =>
      if Qeq_bool y0 y1 then (fst p - x0) / (x1 - x0)
      else (snd p - y0) / (y1 - y0)
  | _ => 0
  end.

Definition manhattan (a b : Point) : Q :=
  100 * (Qabs (fst a - fst b) + Qabs (snd a - snd b)).

Definition pg : PostGIS :=
  {| within_buffer_1m := on_street;
     line_locate_point := fraction_along;
     dwithin_200m := fun street p =>
       match street with
       | a :: _ => Qle_bool (manhattan a p) 200
       | [] => false
       end;
     geo_distance := manhattan;
     geo_length := fun street =>
       match street with
       | [a; b] => manhattan a b
       | _ => 0
       end;
     line_merge := fun streets => List.concat streets |}.

Definition street (i : Z) (a b : Point) (len : Q) (s t : Z) : Road :=
  {| id := i; geom := [a; b];
     length := Some len; length_normalized := Some ((len - 1000) / 200);
     source := Some s; target := Some t |}.

(** Corners A(0,0), B(10,0), C(10,10), D(0,10), and E(20,10) further east.
    The way A-B-C is short and grey, the way A-D-C longer and green, and no
    GVI point was sampled on C-E. *)
Definition roads : list Road :=
  [ street 1 (0, 0) (10, 0) 1000 1 2;
    street 2 (10, 0) (10, 10) 1000 2 3;
    street 3 (0, 0) (0, 10) 1200 1 4;
    street 4 (0, 10) (10, 10) 1200 4 3;
    street 5 (10, 10) (20, 10) 1000 3 5 ].

Definition vertices : list Vertex :=
  [ {| vertex_id := 1; the_geom := (0, 0) |};
    {| vertex_id := 2; the_geom := (10, 0) |};
    {| vertex_id := 3; the_geom := (10, 10) |};
    {| vertex_id := 4; the_geom := (0, 10) |};
    {| vertex_id := 5; the_geom := (20, 10) |} ].

Definition sample (x y : Q) (m : string) (v : option Q) : GviPoint :=
  {| geometry := (x, y); month := m; gvi := v |}.

Definition points : list GviPoint :=
  [ sample 5 0 "2025-08" (Some 0.2);
    sample 10 5 "2025-08" (Some 0.2);
    sample 0 5 "2025-08" (Some 0.9);
    sample 8 10 "2025-08" (Some 1);
    sample 2 10 "2025-08" (Some 0.8);
    sample 15 10 "2025-07" (Some 0.5);
    sample 16 10 "2025-08" None ].

Definition site (i : Z) (name : string) (p : Point) : BusSite :=
  {| bs_site_id := i; bs_site_name := name; bs_geom := p |}.

Definition stop (i site_id : Z) (name : string) (p : Point) : StopPoint :=
  {| stop_point_id := i; sp_site_id := Some site_id;
     stop_point_name := name; sp_geom := p |}.

Definition trip (line dir a b : Z) : BusTrip :=
  {| bt_line_id := line; bt_direction_code := dir;
     bt_stop_point_id := a; bt_next_stop_point_id := b |}.

Definition db0 : Database :=
  {| stockholm_osm := roads;
     stockholm_osm_vertices_pgr := vertices;
     gvi_points := points;
     road_dgvi_table := [];
     sl_bus_sites :=
       [ site 1 "Odenplan" (0, 0); site 2 "Stadsbiblioteket" (10, 0);
         site 8 "Roslagstull" (0, 10); site 9 "Tekniska" (10, 10) ];
     sl_bus_stop_points :=
       [ stop 100 1 "Odenplan A" (0, 0); stop 101 1 "Odenplan B" (0, 0);
         stop 200 2 "Stadsbiblioteket A" (10, 0);
         stop 201 2 "Stadsbiblioteket B" (10, 0);
         stop 202 2 "Stadsbiblioteket C" (10, 0);
         stop 800 8 "Roslagstull A" (0, 10);
         stop 801 8 "Roslagstull B" (0, 10);
         stop 802 8 "Roslagstull C" (0, 10);
         stop 900 9 "Tekniska A" (20, 10) ];
     sl_bus_trips :=
       [ trip 10 1 100 200;
         trip 20 1 101 800;
         trip 30 1 201 800; trip 30 1 800 900;
         trip 31 1 202 900;
         trip 40 1 801 900;
         trip 41 1 802 900;
         trip 50 1 100 900 ];
     clock := 0 |}.

(** The city after the DGVI rebuild for August 2025. *)
Definition db : Database := fst (DGVI.updateAllRoadDGVI pg db0 "2025-08").

(** The transit feed: departures in seconds after the start of the
    forecast window. *)
Definition bus (journey line_no stop_id : Z) (seconds : Z) : SLApi.Departure :=
  {| SLApi.journey_id := Some journey;
     SLApi.line := Some {| SLApi.line_id := Some line_no;
                           SLApi.line_designation := Some (pretty line_no);
                           SLApi.transport_mode := Some "BUS" |};
     SLApi.direction_code := Some 1%Z;
     SLApi.stop_point := Some {| SLApi.sp_id := Some stop_id;
                                 SLApi.sp_name := None |};
     SLApi.expected := (seconds * 1000)%Z;
     SLApi.destination := "Tekniska" |}.

Definition metro (journey : Z) (seconds : Z) : SLApi.Departure :=
  {| SLApi.journey_id := Some journey;
     SLApi.line := Some {| SLApi.line_id := Some 14%Z;
                           SLApi.line_designation := Some "14";
                           SLApi.transport_mode := Some "METRO" |};
     SLApi.direction_code := Some 1%Z;
     SLApi.stop_point := None;
     SLApi.expected := (seconds * 1000)%Z;
     SLApi.destination := "Morby" |}.

Definition departures_at (site_id : Z) : list SLApi.Departure :=
  if (site_id =? 1)%Z then
    [ bus 1001 10 100 100; bus 1002 10 100 100; bus 1003 10 100 100;
      metro 7001 120;
      bus 1004 10 100 100; bus 1005 10 100 100; bus 1006 10 100 100;
      bus 1007 10 100 100; bus 1008 10 100 100; bus 1009 10 100 100;
      bus 2001 20 101 650;
      bus 5001 50 100 400 ]
  else if (site_id =? 2)%Z then
    [ bus 3001 30 201 300; bus 3101 31 202 300 ]
  else if (site_id =? 8)%Z then
    [ bus 4001 40 801 700; bus 4101 41 802 900 ]
  else if (site_id =? 9)%Z then
    [ bus 5001 50 900 1000 ]
  else [].

(** Site 3 does not exist upstream: the request is answered with 404. *)
Definition feed (i : nat) (r : SLApi.Request) : SLApi.HttpResult :=
  if (SLApi.req_site r =? 3)%Z then SLApi.Rejected "Request failed with status code 404"
  else SLApi.Resolved 200 (Some (departures_at (SLApi.req_site r))).

End City.

(** ** A trip through the city: from corner A to corner C *)

Module CityTrip.
Import DB PathSolver Route Engine.
Local Open Scope Q_scope.

Definition origin : Point := (0, 0).
Definition destination : Point := (10, 10).

(** Odenplan, Stadsbiblioteket and Roslagstull around A; Tekniska,
    Stadsbiblioteket and Roslagstull around C. *)
Definition originSites : list Site := findNearbySites City.pg City.db origin.
Definition destinationSites : list Site := findNearbySites City.pg City.db destination.

(** The departures the planner loads for these sites. *)
Definition departuresCache : gmap Z (list SLApi.Departure) :=
  match SLApi.getBatchDepartures City.feed
          (List.map siteId originSites ++ List.map siteId destinationSites) 1200 with
  | Normal results => results
  | Thrown _ => ∅
  end.

(** Line 50 runs from Odenplan to Tekniska: the direct candidates. *)
Definition directRoutes (preferences : Preferences) : list RoutePlan :=
  findDirectRoutes City.pg reference_dijkstra City.db 0
    originSites destinationSites 0 3600 "2025-08" departuresCache preferences.

(** The one-transfer search over the same sites and departures. *)
Definition transferRoutes : list RoutePlan :=
  Transfer.findTransferRoutes City.manhattan City.db 0
    originSites destinationSites 0 3600 "2025-08" departuresCache.

Definition agents : list Transfer.QueryAgent :=
  Transfer.query_agents City.db originSites departuresCache.

Definition chain (agent : Transfer.QueryAgent) : Transfer.Chain :=
  Transfer.findTransferChainCached City.manhattan City.db 0 agent
    destinationSites 3600 "2025-08" departuresCache.

(** The first agent boards line 10 at Odenplan A, 100 s into the window;
    its first hop takes it to Stadsbiblioteket A, where line 30 leaves
    stop 201 at 300 s and reaches Roslagstull. *)
Definition agent1 : Transfer.QueryAgent :=
  {| Transfer.journeyId := 1001;
     Transfer.lineId := Some 10%Z;
     Transfer.directionCode := Some 1%Z;
     Transfer.currentStopId := 100;
     Transfer.nominalTime := 100000;
     Transfer.departure_expectedTime := 100000;
     Transfer.originSite :=
       {| siteId := 1; siteName := "Odenplan"; site_lat := 0; site_lon := 0;
          walkingDistance := 0 |};
     Transfer.departureStopInfo := City.stop 100 1 "Odenplan A" (0, 0) |}.

Definition hop1 : Transfer.NextStop :=
  {| Transfer.next_stop_point_id := 200;
     Transfer.next_site_id := Some 2%Z;
     Transfer.next_name := "Stadsbiblioteket A" |}.

Definition connection1 : Transfer.Connection :=
  {| Transfer.c_journeyId := 3001;
     Transfer.c_lineId := Some 30%Z;
     Transfer.c_departureTime := 300000;
     Transfer.c_departureStopId := 201;
     Transfer.c_transferSiteId := Some 2%Z;
     Transfer.c_destSiteId := 8;
     Transfer.c_destSite :=
       {| siteId := 8; siteName := "Roslagstull"; site_lat := 10; site_lon := 0;
          walkingDistance := 1000 |};
     Transfer.c_directionCode := Some 1%Z |}.

Definition options (maxResults : option Z) : Options :=
  {| opt_gviMonth := Some "2025-08";
     opt_preferences := Some {| time := 0.7; green := 0.3 |};
     opt_maxResults := maxResults |}.

End CityTrip.

(** ** Months of GVI data ([getAvailableMonths], [getRecommendedMonth],
    [validateMonth], and the engine's [validateGVIDataMonth] and
    [getAvailableGVIMonths])

    The queries are total on the embedded database, so the [catch]
    branches of these functions (the fallback month when the connection
    fails) are not part of the embedding.  Months are compared as byte
    strings. *)

Module Months.
Import DB.

Definition fallback : string := "2025-08".

(** The months of the rows [WHERE gvi IS NOT NULL]. *)
Definition valued_months (db : Database) : list string :=
  List.map month
    (List.filter (fun g => match gvi g with Some _ => true | None => false end)
                 (gvi_points db)).

(** [SELECT DISTINCT month ... ORDER BY month DESC] *)
Definition getAvailableMonths (db : Database) : list string :=
  sort_by (fun a b => String.leb b a)
          (Engine.distinct String.eqb (valued_months db)).

(** [COUNT( * )] of a group of [GROUP BY month]. *)
Definition point_count (db : Database) (mo : string) : nat :=
  List.length (List.filter (String.eqb mo) (valued_months db)).

(** [ORDER BY point_count DESC, month DESC] *)
Definition by_count_then_month (a b : string * nat) : bool :=
  (snd b <? snd a)%nat
  || ((snd a =? snd b)%nat && String.leb (fst b) (fst a)).

(** [result.rows[0]?.month || "2025-08"]: the empty string is falsy. *)
Definition getRecommendedMonth (db : Database) : string :=
  let groups :=
    List.map (fun mo => (mo, point_count db mo))
             (Engine.distinct String.eqb (valued_months db)) in
  match sort_by by_count_then_month groups with
  | [] => fallback
  | row :: _ => if String.eqb (fst row) "" then fallback else fst row
  end.

(** [\d] *)
Definition is_digit (c : ascii) : bool :=
  (48 <=? nat_of_ascii c)%nat && (nat_of_ascii c <=? 57)%nat.

(** [/^\d{4}-\d{2}$/.test(month)] *)
Definition month_format (mo : string) : bool :=
  match list_ascii_of_string mo with
  | [y1; y2; y3; y4; dash; m1; m2] =>
      is_digit y1 && is_digit y2 && is_digit y3 && is_digit y4
      && Ascii.eqb dash "-"
      && is_digit m1 && is_digit m2
  | _ => false
  end.

Inductive Validation :=
| Valid                                       (* isValid: true *)
| InvalidFormat                               (* 'Invalid month format ...' *)
| NoData (availableMonths : list string).     (* 'No GVI data available ...' *)

(** [availableMonths.includes(month)] *)
Definition includes (l : list string) (mo : string) : bool :=
  existsb (String.eqb mo) l.

Definition validateMonth (db : Database) (mo : string) : Validation :=
  if negb (month_format mo) then InvalidFormat
  else
    let availableMonths := getAvailableMonths db in
    if negb (includes availableMonths mo) then NoData availableMonths
    else Valid.

Definition isValid (v : Validation) : bool :=
  match v with Valid => true | _ => false end.

(** The engine's [validateGVIDataMonth]: availability only, no format
    check. *)
Definition validateGVIDataMonth (db : Database) (mo : string) : bool :=
  includes (getAvailableMonths db) mo.

Record AvailableGVIMonths := {
  months : list string;
  latest : string;
  recommended : string
}.

(** The engine's [getAvailableGVIMonths]; [latest: months[0] || "2025-08"]. *)
Definition getAvailableGVIMonths (db : Database) : AvailableGVIMonths :=
  let months := getAvailableMonths db in
  {| months := months;
     latest := match months with
               | mo :: _ => if String.eqb mo "" then fallback else mo
               | [] => fallback
               end;
     recommended := getRecommendedMonth db |}.

End Months.

(** ** Views of a route plan ([route_plan.js]: [validate], [getSummary],
    [getTimingDetails], [_formatDuration]; [route_segment_structures.js]:
    [BaseSegment.validate], [SegmentFactory.validateSegmentSequence]) *)

Module PlanViews.
Import Route.

(** The messages of the validators.  [routeId], [routeType] and the type
    of a segment are non-empty strings in every plan of the embedding, so
    'Missing route ID', 'Missing route type' and 'Missing segment type'
    have no constructor. *)
Inductive ValidationError :=
| InvalidTotalDuration                 (* 'Invalid total duration' *)
| NoSegments                           (* 'No segments defined' *)
| InvalidDuration (i : nat)            (* `Segment ${i}: Invalid duration` *)
| ConsecutiveWalking (i : nat)
    (* `Segment ${i}-${i+1}: Consecutive walking segments without transfer` *)
| WaitingNotFollowedByRide (i : nat).
    (* `Segment ${i}-${i+1}: Waiting segment not followed by bus ride` *)

(** [segment.subtype]: set on walking segments only. *)
Definition subtype (s : Segment) : option Subtype :=
  match s with
  | Walking w => w_subtype w
  | _ => None
  end.

(** [BaseSegment.validate]: [!this.duration || this.duration < 0]. *)
Definition invalid_duration (d : JS.number) : bool :=
  negb (JS.truthy d) || JS.gt (JS.Num 0) d.

(** The first loop of [validateSegmentSequence], from index [i]. *)
Fixpoint segment_checks (i : nat) (segs : list Segment) : list ValidationError :=
  match segs with
  | [] => []
  | s :: rest =>
      (if invalid_duration (duration s) then [InvalidDuration i] else [])
      ++ segment_checks (S i) rest
  end.

Definition is_type (t : SegmentType) (s : Segment) : bool :=
  match type s, t with
  | walking_t, walking_t | bus_waiting_t, bus_waiting_t | bus_ride_t, bus_ride_t => true
  | _, _ => false
  end.

Definition is_intra_site (s : Segment) : bool :=
  match subtype s with
  | Some intra_site_transfer => true
  | None => false
  end.

(** The second loop, over the pairs [(segments[i], segments[i + 1])]. *)
Fixpoint sequence_checks (i : nat) (segs : list Segment) : list ValidationError :=
  match segs with
  | current :: ((next :: _) as rest) =>
      (if is_type walking_t current && is_type walking_t next
          && negb (is_intra_site current) && negb (is_intra_site next)
       then [ConsecutiveWalking i] else [])
      ++ (if is_type bus_waiting_t current && negb (is_type bus_ride_t next)
          then [WaitingNotFollowedByRide i] else [])
      ++ sequence_checks (S i) rest
  | _ => []
  end.

(** [SegmentFactory.validateSegmentSequence]: the list of errors. *)
Definition validateSegmentSequence (segs : list Segment) : list ValidationError :=
  segment_checks 0 segs ++ sequence_checks 0 segs.

(** [RoutePlan.validate]: the list of errors;
    [!this.totalDuration || this.totalDuration <= 0]. *)
Definition validate (r : RoutePlan) : list ValidationError :=
  (if negb (JS.truthy (totalDuration r)) || JS.le (totalDuration r) (JS.Num 0)
   then [InvalidTotalDuration] else [])
  ++ match segments r with
     | [] => [NoSegments]
     | segs => validateSegmentSequence segs
     end.

(** [isValid: errors.length === 0] *)
Definition isValid (errors : list ValidationError) : bool :=
  match errors with
  | [] => true
  | _ => false
  end.

(** *** [getSummary] *)

(** [segment.subtype ? `${segment.type}_${segment.subtype}` : segment.type] *)
Definition count_key (s : Segment) : string :=
  match s with
  | Walking w =>
      match w_subtype w with
      | Some intra_site_transfer => "walking_intra_site_transfer"
      | None => "walking"
      end
  | BusWaiting _ => "bus_waiting"
  | BusRide _ => "bus_ride"
  end.

(** The [reduce]: [counts[key] = (counts[key] || 0) + 1]. *)
Definition segmentCounts (segs : list Segment) : gmap string nat :=
  fold_left (fun counts s =>
               <[count_key s := (default 0 (counts !! count_key s) + 1)%nat]> counts)
            segs ∅.

(** [Math.round(x)]: the nearest integer, halves upwards. *)
Definition math_round (x : JS.number) : JS.number :=
  match x with
  | JS.Num q => JS.Num (inject_Z (Qfloor (q + (1 # 2))))
  | JS.NaN => JS.NaN
  end.

Record Summary := {
  s_routeId : RouteId;
  s_routeType : RouteType;
  s_totalDuration : JS.number;
  durationMinutes : JS.number;
  s_segmentCounts : gmap string nat;
  walkingSegments : nat;
  busRideSegments : nat;
  waitingSegments : nat;
  transferCount : nat;
  hasIntraSiteTransfer : bool;
  s_gviDataMonth : string
}.

Definition getSummary (r : RoutePlan) : Summary :=
  let counts := segmentCounts (segments r) in
  {| s_routeId := routeId r;
     s_routeType := routeType r;
     s_totalDuration := totalDuration r;
     durationMinutes := math_round (JS.div (totalDuration r) (JS.Num 60));
     s_segmentCounts := counts;
     walkingSegments :=
       (default 0 (counts !! "walking")
        + default 0 (counts !! "walking_intra_site_transfer"))%nat;
     busRideSegments := default 0%nat (counts !! "bus_ride");
     waitingSegments := default 0%nat (counts !! "bus_waiting");
     transferCount := match routeType r with transfer_bus => 1 | _ => 0 end;
     hasIntraSiteTransfer :=
       match counts !! "walking_intra_site_transfer" with
       | Some n => negb (n =? 0)%nat
       | None => false
       end;
     s_gviDataMonth := gviDataMonth r |}.

(** *** [_formatDuration] *)

(** [Math.floor]: an integer, or [NaN] (here [None]). *)
Definition math_floor (x : JS.number) : option Z :=
  match x with
  | JS.Num q => Some (Qfloor q)
  | JS.NaN => None
  end.

(** [x % n] for a non-zero literal [n]: the remainder has the sign of the
    dividend. *)
Definition remainder (x : JS.number) (n : Q) : JS.number :=
  match x with
  | JS.Num q =>
      let quotient := if Qle_bool 0 (q / n) then Qfloor (q / n) else Qceiling (q / n) in
      JS.Num (q - n * inject_Z quotient)
  | JS.NaN => JS.NaN
  end.

(** [`${x}`] of an integer or [NaN]. *)
Definition show (x : option Z) : string :=
  match x with
  | Some n => pretty n
  | None => "NaN"
  end.

(** [x > 0] *)
Definition positive (x : option Z) : bool :=
  match x with
  | Some n => (0 <? n)%Z
  | None => false
  end.

Definition _formatDuration (seconds : JS.number) : string :=
  let hours := math_floor (JS.div seconds (JS.Num 3600)) in
  let minutes := math_floor (JS.div (remainder seconds 3600) (JS.Num 60)) in
  let remainingSeconds := math_floor (remainder seconds 60) in
  if positive hours then
    String.append (show hours) (String.append "h " (String.append (show minutes) "m"))
  else if positive minutes then
    String.append (show minutes)
      (String.append "m " (String.append (show remainingSeconds) "s"))
  else String.append (show remainingSeconds) "s".

(** *** [getTimingDetails] *)

Record TimingDetail := {
  segmentIndex : nat;
  td_type : SegmentType;
  td_subtype : option Subtype;
  startTime : JS.number;
  endTime : JS.number;
  td_duration : JS.number;
  startTimeFormatted : string;
  endTimeFormatted : string;
  durationFormatted : string
}.

(** The loop, from index [i] with the running [cumulativeTime]. *)
Fixpoint timing_loop (i : nat) (cumulativeTime : JS.number) (segs : list Segment)
  : list TimingDetail :=
  match segs with
  | [] => []
  | segment :: rest =>
      let startTime := cumulativeTime in
      let endTime := JS.add cumulativeTime (duration segment) in
      {| segmentIndex := i;
         td_type := type segment;
         td_subtype := subtype segment;
         startTime := startTime;
         endTime := endTime;
         td_duration := duration segment;
         startTimeFormatted := _formatDuration startTime;
         endTimeFormatted := _formatDuration endTime;
         durationFormatted := _formatDuration (duration segment) |}
      :: timing_loop (S i) endTime rest
  end.

Definition getTimingDetails (r : RoutePlan) : list TimingDetail :=
  timing_loop 0 (JS.Num 0) (segments r).

End PlanViews.

(** ** The methods of a query agent ([query_agent.js]) *)

Module Agent.

(** An entry of [routeChain]. *)
Record ChainEntry := {
  stopId : Z;
  arrivalTime : Z;
  travelTime : Z
}.

(** The fields of a [QueryAgent] that its methods read and write; times
    are [Date] values, in milliseconds. *)
Record State := {
  currentStopId : Z;
  nominalTime : Z;
  departureTime : Z;               (* departureInfo.expectedTime *)
  visitedStops : list Z;
  routeChain : list ChainEntry
}.

(** The constructor: [visitedStops = [config.currentStopId]]. *)
Definition new (stop time departure : Z) : State :=
  {| currentStopId := stop; nominalTime := time; departureTime := departure;
     visitedStops := [stop]; routeChain := [] |}.

(** [moveTo]: it throws on a stop already visited.  [travelTime] is
    computed from [this.nominalTime] after that field has been assigned
    the arrival time. *)
Definition moveTo (a : State) (nextStopId arrival : Z) : completion State :=
  if existsb (Z.eqb nextStopId) (visitedStops a) then
    Thrown "Loop detected: stop already visited"
  else
    let currentStopId' := nextStopId in
    let nominalTime' := arrival in
    let visitedStops' := visitedStops a ++ [nextStopId] in
    Normal {| currentStopId := currentStopId';
              nominalTime := nominalTime';
              departureTime := departureTime a;
              visitedStops := visitedStops';
              routeChain :=
                routeChain a
                ++ [ {| stopId := nextStopId; arrivalTime := arrival;
                        travelTime := arrival - nominalTime' |} ] |}.

(** A sequence of calls of [moveTo], stopped by the first exception. *)
Fixpoint moves (a : State) (steps : list (Z * Z)) : completion State :=
  match steps with
  | [] => Normal a
  | (nextStopId, arrival) :: rest =>
      match moveTo a nextStopId arrival with
      | Normal a' => moves a' rest
      | Thrown msg => Thrown msg
      end
  end.

(** [canMakeTransfer(transferTime, marginSeconds = 90)] *)
Definition canMakeTransfer (a : State) (transferTime : Z) (marginSeconds : option Z)
  : bool :=
  let margin := default 90 marginSeconds in
  let requiredArrival := transferTime - margin * 1000 in
  nominalTime a <=? requiredArrival.

Record Progress := {
  currentStop : Z;
  currentTime : Z;
  stopsVisited : nat;
  totalTravelTime : Z
}.

Definition getProgress (a : State) : Progress :=
  {| currentStop := currentStopId a;
     currentTime := nominalTime a;
     stopsVisited := List.length (visitedStops a);
     totalTravelTime := nominalTime a - departureTime a |}.

End Agent.

(** ** The builder of stop sequences ([data_builder.js]:
    [processSiteBatch], [saveRouteSequences]) *)

Module Builder.
Import Engine.

(** The [stopInfo] object collected for a departure. *)
Record StopEvent := {
  se_site_id : Z;
  se_stop_point_id : option Z;         (* departure.stop_point?.id *)
  se_line_id : option Z;               (* departure.line?.id *)
  se_direction_code : option Z;
  se_expected_time : Z                 (* new Date(departure.expected) *)
}.

(** [journeyRoutes]: a [Map] from journey id to the stops seen, iterated in
    insertion order. *)
Definition JourneyRoutes : Type := list (Z * list StopEvent).

(** [if (!journeyRoutes.has(id)) journeyRoutes.set(id, []);
     journeyRoutes.get(id).push(stopInfo)] *)
Definition push_stop (journeyId : Z) (info : StopEvent) (m : JourneyRoutes)
  : JourneyRoutes :=
  match map_get journeyId m with
  | Some stops => map_set journeyId (stops ++ [info]) m
  | None => map_set journeyId [info] m
  end.

(** The grouping loop of [processSiteBatch]. *)
Definition group_by_journey (departuresMap : list (Z * list SLApi.Departure))
  : JourneyRoutes :=
  fold_left (fun m (sd : Z * list SLApi.Departure) =>
    fold_left (fun m departure =>
      match SLApi.journey_id departure with
      | Some journeyId =>
          if (journeyId =? 0)%Z then m
          else push_stop journeyId
                 {| se_site_id := fst sd;
                    se_stop_point_id := dep_stop_id departure;
                    se_line_id := dep_line_id departure;
                    se_direction_code := SLApi.direction_code departure;
                    se_expected_time := SLApi.expected departure |} m
      | None => m
      end) (snd sd) m) departuresMap [].

(** A row of [sl_bus_trips] as the builder writes it: the line and the
    direction are nullable. *)
Record TripRow := {
  tr_line_id : option Z;
  tr_direction_code : option Z;
  tr_stop_point_id : Z;
  tr_next_stop_point_id : Z;
  tr_journey_id : Z
}.

(** The value of the columns of
    [UNIQUE(line_id, direction_code, stop_point_id, next_stop_point_id)];
    a row with a [NULL] among them conflicts with no row. *)
Definition conflict_key (r : TripRow) : option (Z * Z * Z * Z) :=
  match tr_line_id r, tr_direction_code r with
  | Some l, Some d => Some (l, d, tr_stop_point_id r, tr_next_stop_point_id r)
  | _, _ => None
  end.

Definition conflicts (table : list TripRow) (r : TripRow) : bool :=
  match conflict_key r with
  | Some k => existsb (fun x => bool_decide (conflict_key x = Some k)) table
  | None => false
  end.

(** [INSERT ... ON CONFLICT (...) DO NOTHING], and
    [if (result.rowCount > 0) savedCount++]. *)
Definition insert (st : list TripRow * nat) (r : TripRow) : list TripRow * nat :=
  if conflicts (fst st) r then st else (fst st ++ [r], S (snd st)).

(** [(stops[i], stops[i + 1])] for [i < stops.length - 1]. *)
Fixpoint pairs {A} (l : list A) : list (A * A) :=
  match l with
  | a :: ((b :: _) as rest) => (a, b) :: pairs rest
  | _ => []
  end.

(** The row of a pair, unless a stop id is missing or both are the same. *)
Definition sequence_row (journeyId : Z) (p : StopEvent * StopEvent)
  : option TripRow :=
  match se_stop_point_id (fst p), se_stop_point_id (snd p) with
  | Some current, Some next =>
      if (current =? 0)%Z || (next =? 0)%Z || (current =? next)%Z then None
      else Some {| tr_line_id := se_line_id (fst p);
                   tr_direction_code := se_direction_code (fst p);
                   tr_stop_point_id := current;
                   tr_next_stop_point_id := next;
                   tr_journey_id := journeyId |}
  | _, _ => None
  end.

(** [stops.sort((a, b) => new Date(a.expected_time) - new Date(b.expected_time))] *)
Definition by_expected (a b : StopEvent) : bool :=
  (se_expected_time a <=? se_expected_time b)%Z.

(** [saveRouteSequences]: the table afterwards and [savedCount]. *)
Definition saveRouteSequences (table : list TripRow) (journeyRoutes : JourneyRoutes)
  : list TripRow * nat :=
  fold_left (fun st (js : Z * list StopEvent) =>
    let journeyId := fst js in
    let stops := snd js in
    if (List.length stops <? 2)%nat then st
    else
      fold_left (fun st p =>
                   match sequence_row journeyId p with
                   | Some r => insert st r
                   | None => st
                   end)
                (pairs (sort_by by_expected stops)) st)
    journeyRoutes (table, O).

(** The rows the two loops try to insert, in order (for the statements). *)
Definition candidate_rows (journeyRoutes : JourneyRoutes) : list TripRow :=
  flat_map (fun js : Z * list StopEvent =>
    if (List.length (snd js) <? 2)%nat then []
    else omap (sequence_row (fst js)) (pairs (sort_by by_expected (snd js))))
    journeyRoutes.

(** The entries of the [Map] that [getBatchDepartures] returns, in the
    order of their first insertion. *)
Definition departures_in_order (siteIds : list Z)
    (m : gmap Z (list SLApi.Departure)) : list (Z * list SLApi.Departure) :=
  List.map (fun s => (s, default [] (m !! s))) (distinct Z.eqb siteIds).

(** [processSiteBatch]; on an exception it returns 0. *)
Definition processSiteBatch (feed : nat -> SLApi.Request -> SLApi.HttpResult)
    (table : list TripRow) (siteIds : list Z) : list TripRow * nat :=
  let forecastLimit := 1200%Z in
  match SLApi.getBatchDepartures feed siteIds forecastLimit with
  | Normal departuresMap =>
      saveRouteSequences table
        (group_by_journey (departures_in_order siteIds departuresMap))
  | Thrown _ => (table, O)
  end.

End Builder.

(** ** The HTTP handlers ([planning_api.js]: [POST /update-dgvi],
    [POST /plan-routes])

    A request body is embedded with its fields typed: a month is a string
    or missing, a coordinate a number or missing. *)

Module Api.
Import DB PathSolver Route Engine.

(** What a handler answers: [res.json(body)], [res.status(400).json(...)]
    or [res.status(500).json(...)]. *)
Inductive Response (A : Type) :=
| Ok (body : A)
| BadRequest (error : string)
| ServerError (details : string).
Arguments Ok {A} body.
Arguments BadRequest {A} error.
Arguments ServerError {A} details.

Definition status {A} (r : Response A) : Z :=
  match r with
  | Ok _ => 200
  | BadRequest _ => 400
  | ServerError _ => 500
  end.

(** [POST /update-dgvi]: the database afterwards and the answer; [!month]
    holds of a missing and of an empty month. *)
Definition update_dgvi (pg : PostGIS) (db : Database) (month : option string)
  : Database * Response DGVI.UpdateStatistics :=
  match month with
  | None => (db, BadRequest "Missing month parameter")
  | Some mo =>
      if String.eqb mo "" then (db, BadRequest "Missing month parameter")
      else if negb (Months.isValid (Months.validateMonth db mo)) then
        (db, BadRequest "Invalid month")
      else
        let '(db', stats) := DGVI.updateAllRoadDGVI pg db mo in
        (db', Ok stats)
  end.

(** The body of a [POST /plan-routes] request. *)
Record PlanRequest := {
  pr_origin : option LatLon;
  pr_destination : option LatLon;
  pr_gvi_month : option string;
  pr_preferences : option Preferences;
  pr_max_results : option Z
}.

Record PlanResult := {
  used_preferences : Preferences;
  used_gvi_month : string;
  total_routes : nat;
  routes : list RoutePlan
}.

(** A coordinate that passes [!origin.lat]: present and not 0. *)
Definition coordinate (c : option Q) : option Q :=
  match c with
  | Some q => if Qeq_bool q 0 then None else Some q
  | None => None
  end.

Definition point_of (p : option LatLon) : option Point :=
  ll ← p;
  y ← coordinate (lat ll);
  x ← coordinate (lon ll);
  Some (x, y).

(** [POST /plan-routes] *)
Definition plan_routes (pg : PostGIS) (solve : Dijkstra) (db : Database)
    (feed : nat -> SLApi.Request -> SLApi.HttpResult) (now : Z)
    (req : PlanRequest) : Response PlanResult :=
  let preferences := default {| time := 0.5; green := 0.5 |} (pr_preferences req) in
  let max_results := default 4%Z (pr_max_results req) in
  match point_of (pr_origin req), point_of (pr_destination req) with
  | Some origin, Some destination =>
      let plan (gviMonth : string) :=
        match planRoutes pg solve db feed now origin destination
                {| opt_gviMonth := Some gviMonth;
                   opt_preferences := Some preferences;
                   opt_maxResults := Some max_results |} with
        | Normal routes =>
            Ok {| used_preferences := preferences;
                  used_gvi_month := gviMonth;
                  total_routes := List.length routes;
                  routes := routes |}
        | Thrown msg => ServerError msg
        end in
      match pr_gvi_month req with
      | Some mo =>
          if String.eqb mo "" then plan (Months.getRecommendedMonth db)
          else if negb (Months.isValid (Months.validateMonth db mo)) then
            BadRequest "Invalid GVI month"
          else plan mo
      | None => plan (Months.getRecommendedMonth db)
      end
  | _, _ => BadRequest "Invalid coordinates"
  end.

End Api.

(* ================================================================== *)
(** * Theorems *)
(* ================================================================== *)

Section FeedClient.
Import SLApi.

Lemma getDepartures_answer feed siteId forecastLimit :
  getDepartures feed siteId forecastLimit
  = Normal (answer (feed (departures_request siteId forecastLimit))).
Proof.
  unfold getDepartures, getDepartures_body, answer.
  destruct (feed _) as [msg | status body]; simpl; [done |].
  destruct (status =? 200); simpl; [| by destruct body].
  by destruct body.
Qed.

Lemma answer_fails r : request_fails r = true -> answer r = [].
Proof.
  destruct r as [msg | status body]; simpl; [done |].
  destruct (status =? 200); [done |]. by destruct body.
Qed.

Lemma answer_bus r : Forall (fun d => is_bus d = true) (answer r).
Proof.
  destruct r as [msg | status [deps |]]; simpl; try by constructor.
  destruct (status =? 200); [| by constructor].
  apply Forall_forall. intros d Hd. by apply list_elem_of_filter in Hd as [Hd _].
Qed.

(** C10: the result of [getDepartures] does not depend on [forecastLimit].
    Two calls for the same site issue the same request, whose forecast
    window is 1200 seconds, and return the same list, which holds bus
    departures only. *)
Theorem getDepartures_ignores_forecastLimit
    (feed : Request -> HttpResult) (siteId limit1 limit2 : Z) :
  departures_request siteId limit1 = departures_request siteId limit2 /\
  req_forecast (departures_request siteId limit1) = 1200 /\
  getDepartures feed siteId limit1 = getDepartures feed siteId limit2 /\
  exists deps, getDepartures feed siteId limit1 = Normal deps /\
               Forall (fun d => is_bus d = true) deps.
Proof.
  split; [reflexivity |]. split; [reflexivity |]. split; [reflexivity |].
  rewrite getDepartures_answer. eexists. split; [reflexivity | apply answer_bus].
Qed.

(** The loop of the batch, entry by entry. *)

Lemma batch_loop_absent feed forecastLimit siteIds : forall i results s,
  s ∉ siteIds ->
  batch_loop feed i siteIds forecastLimit results !! s = results !! s.
Proof.
  induction siteIds as [| a rest IH]; intros i results s Hs; simpl; [done |].
  apply not_elem_of_cons in Hs as [Hne Hs].
  rewrite IH by done. rewrite getDepartures_answer. by rewrite lookup_insert_ne.
Qed.

Lemma batch_loop_last feed forecastLimit siteIds : forall i results k s,
  siteIds !! k = Some s ->
  (forall j, (k < j)%nat -> siteIds !! j <> Some s) ->
  batch_loop feed i siteIds forecastLimit results !! s
  = Some (answer (feed (i + k)%nat (departures_request s forecastLimit))).
Proof.
  induction siteIds as [| a rest IH]; intros i results k s Hk Hlast; [done |].
  destruct k as [| k]; simpl in *.
  - injection Hk as ->.
    rewrite batch_loop_absent.
    + rewrite getDepartures_answer, lookup_insert_eq. by rewrite Nat.add_0_r.
    + intros Hin. apply list_elem_of_lookup in Hin as [j Hj].
      apply (Hlast (S j)); [lia | done].
  - rewrite (IH (S i) _ k s Hk).
    + by rewrite Nat.add_succ_r.
    + intros j Hj. apply (Hlast (S j)). lia.
Qed.

Lemma batch_loop_dom feed forecastLimit siteIds : forall i results s,
  is_Some (batch_loop feed i siteIds forecastLimit results !! s)
  <-> s ∈ siteIds \/ is_Some (results !! s).
Proof.
  induction siteIds as [| a rest IH]; intros i results s; simpl.
  - rewrite elem_of_nil. tauto.
  - rewrite IH, getDepartures_answer, elem_of_cons.
    destruct (decide (a = s)) as [-> | Hne].
    + rewrite lookup_insert_eq. split; [tauto |]. intros _. right. eauto.
    + rewrite lookup_insert_ne by done. split; [tauto |].
      intros [[Heq | Hin] | Hs]; [congruence | tauto | tauto].
Qed.

(** C6: [getBatchDepartures] returns a map for every list of site ids and
    every behaviour of the feed.  The map is empty for the empty list; it
    has an entry for exactly the sites of the list; the entry of a site is
    the answer to the last request made for it, whatever happened to the
    requests for the other sites; and that entry is the empty list when the
    request failed. *)
Theorem getBatchDepartures_never_fails
    (feed : nat -> Request -> HttpResult) (siteIds : list Z) (forecastLimit : Z) :
  exists results : gmap Z (list Departure),
    getBatchDepartures feed siteIds forecastLimit = Normal results /\
    (siteIds = [] -> results = ∅) /\
    (forall s, is_Some (results !! s) <-> s ∈ siteIds) /\
    (forall k s,
       siteIds !! k = Some s ->
       (forall j, (k < j)%nat -> siteIds !! j <> Some s) ->
       results !! s = Some (answer (feed k (departures_request s forecastLimit))) /\
       (request_fails (feed k (departures_request s forecastLimit)) = true ->
        results !! s = Some [])).
Proof.
  eexists. split; [reflexivity |]. split; [| split].
  - by intros ->.
  - intros s. rewrite batch_loop_dom, lookup_empty.
    split; [intros [H | H]; [done | by destruct H] | tauto].
  - intros k s Hk Hlast.
    pose proof (batch_loop_last feed forecastLimit siteIds 0 ∅ k s Hk Hlast) as H.
    simpl in H. split; [done |].
    intros Hf. by rewrite H, answer_fails.
Qed.

End FeedClient.

Section SegmentDGVI.
Import DB DGVI.
Local Open Scope Q_scope.

Lemma or_zero_eq (d : Q) : (if Qeq_bool d 0 then 0 else d) == d.
Proof.
  destruct (Qeq_bool d 0) eqn:E; [| reflexivity].
  apply Qeq_bool_iff in E. symmetry. exact E.
Qed.

Lemma segment_dgvi_query_unmatched pg db roadId m :
  matched_gvi_points pg db roadId m = [] ->
  segment_dgvi_query pg db roadId m == - edge_length db roadId.
Proof.
  intros Hm. unfold segment_dgvi_query, edge_length. rewrite Hm.
  destruct (road_info db roadId) as [| r rs]; [reflexivity |].
  destruct (length r) as [len |]; [| reflexivity].
  change (points_with_endpoints []) with [(0, 0); (1, 0)].
  cbn [segment_intervals List.map fold_left interval_term]. field.
Qed.

(** C1 (as amended): when no GVI point of the month lies within the 1 m
    buffer of the edge, [calculateSegmentDGVI] returns minus the length of
    the edge: the two synthesized endpoints carry the value 0, and the one
    interval contributes [(1 - 0) * L * ((0 + 0) / 2 - 1)].  The result is 0
    only for an edge that is absent or has no (or zero) length. *)
Theorem calculateSegmentDGVI_unmatched pg db roadId m :
  matched_gvi_points pg db roadId m = [] ->
  calculateSegmentDGVI pg db roadId m == - edge_length db roadId.
Proof.
  intros Hm. unfold calculateSegmentDGVI. cbv zeta.
  rewrite or_zero_eq. by apply segment_dgvi_query_unmatched.
Qed.

End SegmentDGVI.


Section Rebuild.
Import DB DGVI.
Local Open Scope Q_scope.

Variable pg : PostGIS.
Variable m : string.

Lemma batches_concat {A} (rows : list A) fuel i :
  (List.length rows <= i + fuel)%nat ->
  concat (batches fuel i rows) = skipn i rows.
Proof.
  revert i. induction fuel as [| fuel IH]; intros i Hlen; simpl.
  - rewrite skipn_all2; [done | lia].
  - destruct (i <? List.length rows)%nat eqn:E.
    + simpl. rewrite IH by (unfold batchSize; lia).
      unfold slice.
      etransitivity; [| apply (firstn_skipn batchSize (skipn i rows))].
      f_equal. rewrite skipn_skipn. f_equal. lia.
    + apply Nat.ltb_ge in E. rewrite skipn_all2; [done | lia].
Qed.

Lemma fold_batches (db : Database) (rows : list Z) st :
  fold_left (process_batch pg db m) (batches (List.length rows) 0 rows) st
  = fold_left (process_road pg db m) rows st.
Proof.
  assert (H : forall bs st',
             fold_left (process_batch pg db m) bs st'
             = fold_left (process_road pg db m) (concat bs) st').
  { induction bs as [| b bs IH]; intros st'; simpl; [done |].
    rewrite fold_left_app. apply IH. }
  rewrite H, batches_concat by lia. done.
Qed.

(** Upserts and the normalising update act on the values of the rows. *)

Lemma same_key_values k mo r1 r2 :
  road_id r1 = road_id r2 -> dgvi_month r1 = dgvi_month r2 ->
  same_key k mo r1 = same_key k mo r2.
Proof. unfold same_key. by intros -> ->. Qed.

Ltac split_rows H :=
  simpl in H; try discriminate H;
  try (injection H as Hid Hmo Hd Hn Ht).

Lemma upsert_values k mo d n1 n2 t1 t2 :
  List.map row_values t1 = List.map row_values t2 ->
  List.map row_values (upsert k mo d n1 t1)
  = List.map row_values (upsert k mo d n2 t2).
Proof.
  revert t2. induction t1 as [| r1 t1 IH]; intros [| r2 t2] H;
    split_rows H; simpl; [done |].
  rewrite (same_key_values k mo r1 r2 Hid Hmo).
  destruct (same_key k mo r2); simpl.
  - unfold row_values at 1 3. simpl. congruence.
  - unfold row_values at 1 3. rewrite (IH t2 Ht). congruence.
Qed.

Lemma lookup_dgvi_values k mo t1 t2 :
  List.map row_values t1 = List.map row_values t2 ->
  lookup_dgvi k mo t1 = lookup_dgvi k mo t2.
Proof.
  revert t2. induction t1 as [| r1 t1 IH]; intros [| r2 t2] H;
    split_rows H; simpl; [done |].
  rewrite (same_key_values k mo r1 r2 Hid Hmo).
  destruct (same_key k mo r2); [congruence | by apply IH].
Qed.

Lemma upsert_fixed k mo d n t :
  lookup_dgvi k mo t = Some d ->
  List.map row_values (upsert k mo d n t) = List.map row_values t.
Proof.
  induction t as [| r t IH]; simpl; [discriminate |].
  destruct (same_key k mo r) eqn:E; simpl.
  - intros [= <-]. done.
  - intros H. f_equal. by apply IH.
Qed.

Lemma lookup_upsert_same k mo d n t :
  lookup_dgvi k mo (upsert k mo d n t) = Some d.
Proof.
  induction t as [| r t IH]; simpl.
  - unfold same_key. simpl. by rewrite Z.eqb_refl, String.eqb_refl.
  - destruct (same_key k mo r) eqn:E; simpl.
    + unfold same_key in *. simpl. by rewrite E.
    + by rewrite E.
Qed.

Lemma lookup_upsert_other k k' mo d n t :
  k <> k' ->
  lookup_dgvi k mo (upsert k' mo d n t) = lookup_dgvi k mo t.
Proof.
  intros Hne. induction t as [| r t IH]; simpl.
  - unfold same_key. simpl.
    destruct (Z.eqb_spec k' k); [congruence | done].
  - destruct (same_key k' mo r) eqn:E; simpl.
    + unfold same_key in *. simpl.
      apply andb_prop in E as [E1 E2]. apply Z.eqb_eq in E1.
      destruct (Z.eqb_spec (road_id r) k); [congruence | done].
    + by rewrite IH.
Qed.

Section Pass.
Variable db : Database.

Lemma process_road_keeps st roadId k :
  lookup_dgvi k m (table st) = Some (calculateSegmentDGVI pg db k m) ->
  lookup_dgvi k m (table (process_road pg db m st roadId)) = Some (calculateSegmentDGVI pg db k m).
Proof.
  intros H. simpl. destruct (Z.eq_dec k roadId) as [-> | Hne].
  - apply lookup_upsert_same.
  - by rewrite lookup_upsert_other.
Qed.

Lemma pass_keeps ids st k :
  lookup_dgvi k m (table st) = Some (calculateSegmentDGVI pg db k m) ->
  lookup_dgvi k m (table (fold_left (process_road pg db m) ids st)) = Some (calculateSegmentDGVI pg db k m).
Proof.
  revert st. induction ids as [| a ids IH]; intros st H; simpl; [done |].
  apply IH. by apply process_road_keeps.
Qed.

Lemma pass_stores ids st k :
  In k ids ->
  lookup_dgvi k m (table (fold_left (process_road pg db m) ids st)) = Some (calculateSegmentDGVI pg db k m).
Proof.
  revert st. induction ids as [| a ids IH]; intros st Hin; simpl; [done |].
  destruct Hin as [-> | Hin].
  - apply pass_keeps. simpl. apply lookup_upsert_same.
  - by apply IH.
Qed.

Lemma pass_fixed ids st :
  (forall k, In k ids -> lookup_dgvi k m (table st) = Some (calculateSegmentDGVI pg db k m)) ->
  List.map row_values (table (fold_left (process_road pg db m) ids st))
  = List.map row_values (table st).
Proof.
  revert st. induction ids as [| a ids IH]; intros st H; simpl; [done |].
  assert (Hstep : List.map row_values (table (process_road pg db m st a))
                  = List.map row_values (table st)).
  { simpl. apply upsert_fixed. apply H. by left. }
  rewrite IH; [done |].
  intros k Hk. rewrite (lookup_dgvi_values _ _ _ _ Hstep). apply H. by right.
Qed.
End Pass.

(** The normalising update. *)

Lemma month_values_values mo t1 t2 :
  List.map row_values t1 = List.map row_values t2 ->
  month_values mo t1 = month_values mo t2.
Proof.
  unfold month_values.
  revert t2. induction t1 as [| r1 t1 IH]; intros [| r2 t2] H;
    split_rows H; simpl; [done |].
  rewrite Hmo.
  destruct (String.eqb (dgvi_month r2) mo); simpl; rewrite (IH t2 Ht); congruence.
Qed.

Lemma normalize_values mo t1 t2 :
  List.map row_values t1 = List.map row_values t2 ->
  List.map row_values (normalize_month mo t1)
  = List.map row_values (normalize_month mo t2).
Proof.
  intros H. unfold normalize_month.
  rewrite (month_values_values mo t1 t2 H).
  destruct (sql_min _) as [lo |]; [| done].
  destruct (sql_max _) as [hi |]; [| done].
  revert t2 H. induction t1 as [| r1 t1 IH]; intros [| r2 t2] H;
    split_rows H; simpl; [done |].
  rewrite (IH t2 Ht), Hmo.
  destruct (String.eqb (dgvi_month r2) mo); unfold row_values; simpl; congruence.
Qed.

Lemma month_values_normalize mo t :
  month_values mo (normalize_month mo t) = month_values mo t.
Proof.
  unfold normalize_month.
  destruct (sql_min _) as [lo |]; [| done].
  destruct (sql_max _) as [hi |]; [| done].
  unfold month_values. induction t as [| r t IH]; simpl; [done |].
  destruct (String.eqb (dgvi_month r) mo) eqn:E; simpl; rewrite E; simpl;
    by rewrite IH.
Qed.

Lemma normalize_idempotent mo t :
  normalize_month mo (normalize_month mo t) = normalize_month mo t.
Proof.
  unfold normalize_month at 1. rewrite month_values_normalize.
  unfold normalize_month.
  destruct (sql_min _) as [lo |]; [| done].
  destruct (sql_max _) as [hi |]; [| done].
  rewrite List.map_map. apply List.map_ext. intros r.
  destruct (String.eqb (dgvi_month r) mo) eqn:E; simpl; by rewrite E.
Qed.

Lemma lookup_normalize k mo t :
  lookup_dgvi k m (normalize_month mo t) = lookup_dgvi k m t.
Proof.
  unfold normalize_month.
  destruct (sql_min _) as [lo |]; [| done].
  destruct (sql_max _) as [hi |]; [| done].
  induction t as [| r t IH]; simpl; [done |].
  destruct (String.eqb (dgvi_month r) mo); unfold same_key in *; simpl;
    by rewrite IH.
Qed.

End Rebuild.

Section Normalisation.
Import DB DGVI.
Local Open Scope Q_scope.

Lemma fold_Qmin_le l : forall x y, In y (x :: l) -> fold_left Qmin l x <= y.
Proof.
  induction l as [| a l IH]; intros x y Hin; simpl.
  - destruct Hin as [-> | []]. apply Qle_refl.
  - destruct Hin as [-> | [-> | Hin]].
    + eapply Qle_trans; [apply IH; by left | apply Q.le_min_l].
    + eapply Qle_trans; [apply IH; by left | apply Q.le_min_r].
    + apply IH. by right.
Qed.

Lemma fold_Qmax_ge l : forall x y, In y (x :: l) -> y <= fold_left Qmax l x.
Proof.
  induction l as [| a l IH]; intros x y Hin; simpl.
  - destruct Hin as [-> | []]. apply Qle_refl.
  - destruct Hin as [-> | [-> | Hin]].
    + eapply Qle_trans; [apply Q.le_max_l | apply IH; by left].
    + eapply Qle_trans; [apply Q.le_max_r | apply IH; by left].
    + apply IH. by right.
Qed.

Lemma sql_min_le l lo y : sql_min l = Some lo -> In y l -> lo <= y.
Proof.
  destruct l as [| x l]; [done |]. intros [= <-] Hin. by apply fold_Qmin_le.
Qed.

Lemma sql_max_ge l hi y : sql_max l = Some hi -> In y l -> y <= hi.
Proof.
  destruct l as [| x l]; [done |]. intros [= <-] Hin. by apply fold_Qmax_ge.
Qed.

Lemma normalized_value_range lo hi d :
  lo <= d -> d <= hi -> 0 <= normalized_value lo hi d <= 1.
Proof.
  intros Hlo Hhi. unfold normalized_value.
  destruct (Qeq_bool hi lo) eqn:E; [split; discriminate |].
  apply Qeq_bool_neq in E.
  assert (Hpos : 0 < hi - lo).
  { assert (lo <= hi) by (eapply Qle_trans; eauto).
    destruct (Qlt_le_dec lo hi) as [Hlt | Hge]; [lra |].
    exfalso. apply E. apply Qle_antisym; assumption. }
  split.
  - apply Qle_shift_div_l; [assumption | lra].
  - apply Qle_shift_div_r; [assumption | lra].
Qed.

Lemma month_values_in mo r t :
  In r t -> dgvi_month r = mo -> In (dgvi r) (month_values mo t).
Proof.
  intros Hin Hmo. unfold month_values. apply List.in_map.
  apply List.filter_In. split; [assumption |]. by apply String.eqb_eq.
Qed.

Lemma normalize_month_row mo t r :
  In r (normalize_month mo t) -> dgvi_month r = mo ->
  exists lo hi,
    sql_min (month_values mo t) = Some lo /\
    sql_max (month_values mo t) = Some hi /\
    lo <= dgvi r <= hi /\
    dgvi_normalized r = Some (normalized_value lo hi (dgvi r)).
Proof.
  intros Hin Hmo.
  assert (Hsome : forall r0, In r0 t -> dgvi_month r0 = mo ->
            exists lo hi, sql_min (month_values mo t) = Some lo /\
                          sql_max (month_values mo t) = Some hi /\
                          lo <= dgvi r0 <= hi).
  { intros r0 Hr0 Hmo0. pose proof (month_values_in mo r0 t Hr0 Hmo0) as Hv.
    destruct (month_values mo t) as [| x l] eqn:El; [destruct Hv |].
    eexists _, _. split; [reflexivity |]. split; [reflexivity |].
    split; [by apply fold_Qmin_le | by apply fold_Qmax_ge]. }
  unfold normalize_month in Hin.
  destruct (sql_min (month_values mo t)) as [lo |] eqn:Emin;
    destruct (sql_max (month_values mo t)) as [hi |] eqn:Emax.
  - apply List.in_map_iff in Hin as (r0 & Hr & Hr0).
    destruct (String.eqb (dgvi_month r0) mo) eqn:E.
    + apply String.eqb_eq in E.
      destruct (Hsome r0 Hr0 E) as (lo' & hi' & [= <-] & [= <-] & Hb).
      subst r. simpl. eauto 10.
    + subst r0. apply String.eqb_neq in E. done.
  - destruct (Hsome r Hin Hmo) as (? & ? & _ & ? & _). discriminate.
  - destruct (Hsome r Hin Hmo) as (? & ? & ? & _ & _). discriminate.
  - destruct (Hsome r Hin Hmo) as (? & ? & ? & _ & _). discriminate.
Qed.

(** The state of the DGVI table after the upsert pass of a rebuild. *)
Lemma updateAllRoadDGVI_table pg db m :
  road_dgvi_table (fst (updateAllRoadDGVI pg db m))
  = normalize_month m
      (table (fold_left (process_road pg db m) (roads_query db)
                {| table := road_dgvi_table db; now := clock db;
                   processed := O; successful := O |})).
Proof. unfold updateAllRoadDGVI. simpl. by rewrite fold_batches. Qed.

(** C8: the per-month rebuild is idempotent on the [(dgvi, dgvi_normalized)]
    values of every [(road, month)] row; after it every row of the month has
    a normalized value in [[0, 1]]; and when the month's minimum and maximum
    [dgvi] are equal every normalized value of the month is 0. *)
Theorem updateAllRoadDGVI_idempotent_normalized pg db m :
  let db1 := fst (updateAllRoadDGVI pg db m) in
  let db2 := fst (updateAllRoadDGVI pg db1 m) in
  table_values db2 = table_values db1 /\
  (forall r, In r (road_dgvi_table db1) -> dgvi_month r = m ->
     exists v, dgvi_normalized r = Some v /\ 0 <= v <= 1) /\
  (forall lo hi r,
     sql_min (month_values m (road_dgvi_table db1)) = Some lo ->
     sql_max (month_values m (road_dgvi_table db1)) = Some hi ->
     lo == hi ->
     In r (road_dgvi_table db1) -> dgvi_month r = m ->
     dgvi_normalized r = Some 0).
Proof.
  intros db1 db2. subst db2. unfold table_values.
  rewrite (updateAllRoadDGVI_table pg db1 m).
  assert (Hroads : roads_query db1 = roads_query db) by reflexivity.
  assert (Hcalc : process_road pg db1 m = process_road pg db m) by reflexivity.
  rewrite Hroads, Hcalc. subst db1.
  rewrite (updateAllRoadDGVI_table pg db m).
  set (st0 := {| table := road_dgvi_table db; now := clock db;
                 processed := O; successful := O |}).
  set (T1 := table (fold_left (process_road pg db m) (roads_query db) st0)).
  split; [| split].
  - (* idempotence *)
    rewrite <- (normalize_idempotent m T1) at 2.
    apply normalize_values.
    rewrite (pass_fixed pg m db); [done |].
    intros k Hk. simpl. rewrite lookup_normalize.
    by apply pass_stores.
  - intros r Hin Hmo.
    destruct (normalize_month_row m T1 r Hin Hmo)
      as (lo & hi & _ & _ & [Hlo Hhi] & Hn).
    exists (normalized_value lo hi (dgvi r)). split; [assumption |].
    apply (normalized_value_range lo hi (dgvi r) Hlo Hhi).
  - intros lo hi r Hmin Hmax Heq Hin Hmo.
    rewrite month_values_normalize in Hmin, Hmax.
    destruct (normalize_month_row m T1 r Hin Hmo) as (lo' & hi' & Hmin' & Hmax' & _ & Hn).
    rewrite Hmin in Hmin'. rewrite Hmax in Hmax'.
    injection Hmin' as <-. injection Hmax' as <-.
    rewrite Hn. f_equal. unfold normalized_value.
    destruct (Qeq_bool hi lo) eqn:E; [done |].
    apply Qeq_bool_neq in E. exfalso. apply E. by symmetry.
Qed.

End Normalisation.


Section CityDGVI.
Import DB DGVI.
Local Open Scope Q_scope.

Example city_segment_dgvi :
  List.map (fun i => Qred (calculateSegmentDGVI City.pg City.db0 i "2025-08"))
           [1; 2; 3; 4; 5; 6]%Z
  = [-800; -800; -120; -120; -1000; 0].
Proof. vm_compute. reflexivity. Qed.

Example city_rebuild_values :
  List.map (fun v => (fst (fst (fst v)), Qred (snd (fst v)), option_map Qred (snd v)))
    (table_values City.db)
  = [ (1%Z, -800, Some (5 # 22)); (2%Z, -800, Some (5 # 22));
      (3%Z, -120, Some 1); (4%Z, -120, Some 1);
      (5%Z, -1000, Some 0) ].
Proof. vm_compute. reflexivity. Qed.

Example city_rebuild_statistics :
  snd (updateAllRoadDGVI City.pg City.db0 "2025-08")
  = {| totalRoads := 5; stat_processed := 5; stat_successful := 5;
       stat_month := "2025-08" |}.
Proof. vm_compute. reflexivity. Qed.

(** C1 (as stated) fails: street 5 has no GVI point of August 2025 within
    its buffer, and its DGVI is minus its length, -1000, not 0. *)
Lemma unmatched_edge_dgvi_is_minus_length :
  matched_gvi_points City.pg City.db0 5 "2025-08" = [] /\
  calculateSegmentDGVI City.pg City.db0 5 "2025-08" == -1000 /\
  ~ calculateSegmentDGVI City.pg City.db0 5 "2025-08" == 0.
Proof.
  split; [reflexivity |]. split; [reflexivity |].
  intros H. vm_compute in H. discriminate H.
Qed.

Lemma calculateSegmentDGVI_unmatched_witness :
  matched_gvi_points City.pg City.db0 5 "2025-08" = [] /\
  calculateSegmentDGVI City.pg City.db0 5 "2025-08" == - edge_length City.db0 5.
Proof.
  split; [reflexivity |].
  apply (calculateSegmentDGVI_unmatched City.pg City.db0 5 "2025-08").
  reflexivity.
Defined.

Lemma updateAllRoadDGVI_idempotent_normalized_witness :
  table_values (fst (updateAllRoadDGVI City.pg City.db "2025-08"))
  = table_values City.db.
Proof.
  exact (proj1 (updateAllRoadDGVI_idempotent_normalized City.pg City.db0 "2025-08")).
Defined.

End CityDGVI.

Section CityFeed.
Import SLApi.

(** Odenplan, a site unknown upstream, and Stadsbiblioteket: the failing
    site gets an empty list, the two others their bus departures. *)
Example city_batch :
  exists results, getBatchDepartures City.feed [1; 3; 2] 1200 = Normal results /\
    List.length <$> results !! 1 = Some 11%nat /\
    results !! 3 = Some [] /\
    List.length <$> results !! 2 = Some 2%nat /\
    results !! 8 = None.
Proof. eexists. split; [reflexivity |]. vm_compute. done. Qed.

Lemma getBatchDepartures_never_fails_witness :
  exists results, getBatchDepartures City.feed [1; 3; 2] 1200 = Normal results /\
    results !! 3 = Some [].
Proof.
  destruct (getBatchDepartures_never_fails City.feed [1; 3; 2] 1200)
    as (results & Hr & _ & _ & Hlast).
  exists results. split; [exact Hr |].
  apply (Hlast 1%nat 3); [reflexivity | | reflexivity].
  intros [| [| [| j]]] Hj; try lia; simpl; discriminate.
Defined.

End CityFeed.

Section Scoring.
Import PathSolver Route Engine.
Local Open Scope Q_scope.

Lemma gt_irrefl (x : JS.number) : JS.gt x x = false.
Proof.
  destruct x as [| q]; [done |]. simpl.
  assert (H : Qle_bool q q = true) by (apply Qle_bool_iff, Qle_refl).
  by rewrite H.
Qed.

(** C2 (as amended): with one surviving candidate, [scoreBusRoutes] gives it
    [timeNorm = 0] and [dgviNorm = 0], hence [durationScore = 1],
    [acDGVIScore = 0], and [totalScore = 1 - w_green]: the penalty term
    [w_green * (1 - dgviNorm)] is charged in full.  The total score is 1 only
    when the green weight is 0. *)
Theorem scoreBusRoutes_single (preferences : Preferences) (route : RoutePlan) :
  let b := bounds route [] in
  exists scored,
    scoreBusRoutes [route] preferences = [scored] /\
    timeNorm (minTime b) (maxTime b) route = JS.Num 0 /\
    dgviNorm (minDGVI b) (maxDGVI b) route = JS.Num 0 /\
    JS.same (durationScore scored) (JS.Num 1) /\
    acDGVIScore scored = JS.Num 0 /\
    JS.same (totalScore scored) (JS.Num (1 - green preferences)).
Proof.
  intros b.
  assert (Ht : timeNorm (minTime b) (maxTime b) route = JS.Num 0).
  { unfold timeNorm. subst b. simpl. unfold JS.math_max, JS.math_min. simpl.
    by rewrite gt_irrefl. }
  assert (Hd : dgviNorm (minDGVI b) (maxDGVI b) route = JS.Num 0).
  { unfold dgviNorm. subst b. simpl. unfold JS.math_max, JS.math_min. simpl.
    by rewrite gt_irrefl. }
  exists (score_route preferences b route).
  split; [reflexivity |]. split; [exact Ht |]. split; [exact Hd |].
  unfold score_route. rewrite Ht, Hd. simpl.
  split; [ring |]. split; [reflexivity | ring].
Qed.

End Scoring.

Section CityScoring.
Import PathSolver Route Engine.
Local Open Scope Q_scope.

(** C2 (as stated) fails: with the default weights (0.5, 0.5) the only
    direct candidate of the trip is scored 0.5, not 1. *)
Lemma single_candidate_total_score_is_half :
  exists candidate scored,
    CityTrip.directRoutes {| time := 0.5; green := 0.5 |} = [candidate] /\
    scoreBusRoutes [candidate] {| time := 0.5; green := 0.5 |} = [scored] /\
    JS.same (durationScore scored) (JS.Num 1) /\
    JS.same (acDGVIScore scored) (JS.Num 0) /\
    JS.same (totalScore scored) (JS.Num 0.5) /\
    ~ JS.same (totalScore scored) (JS.Num 1).
Proof.
  eexists _, _. split; [vm_compute; reflexivity |].
  split; [vm_compute; reflexivity |].
  split; [reflexivity |]. split; [reflexivity |]. split; [reflexivity |].
  intros H. vm_compute in H. discriminate H.
Qed.

End CityScoring.

Section Durations.
Import DB PathSolver Route Engine Transfer.
Local Open Scope Q_scope.

Lemma sum_durations_app segs1 segs2 :
  sum_durations (segs1 ++ segs2)
  = fold_left (fun acc s => JS.add acc (duration s)) segs2 (sum_durations segs1).
Proof. unfold sum_durations. apply fold_left_app. Qed.

(** A walking route has one segment, which lasts as long as the route. *)
Lemma createWalkingRoute_duration stamp c :
  JS.same (sum_durations (segments (createWalkingRoute stamp c)))
          (totalDuration (createWalkingRoute stamp c)).
Proof.
  simpl. unfold sum_durations. simpl.
  destruct (wr_totalDuration c) as [| q]; simpl; [done | ring].
Qed.

Lemma gt_zero_false q : 0 <= q -> JS.gt (JS.Num q) (JS.Num 0) = false -> q == 0.
Proof.
  simpl. intros Hq H. apply negb_false_iff, Qle_bool_iff in H.
  by apply Qle_antisym.
Qed.

(** A direct route whose two walks have finite, non-negative durations and
    whose total is computed as [findDirectRoutes] does lasts as long as its
    segments. *)
Lemma createDirectBusRoute_duration stamp c toDep ride fromArr :
  walkingToDeparture c = JS.Num toDep ->
  busRideDuration c = JS.Num ride ->
  walkingFromArrival c = JS.Num fromArr ->
  0 <= toDep -> 0 <= fromArr ->
  db_totalDuration c = JS.Num (toDep + ride + fromArr) ->
  JS.same (sum_durations (segments (createDirectBusRoute stamp c)))
          (totalDuration (createDirectBusRoute stamp c)).
Proof.
  intros Ha Hr Hb Hpa Hpb Ht. unfold createDirectBusRoute. cbn [segments totalDuration new_RoutePlan].
  rewrite Ha, Hb, Hr, Ht.
  destruct (JS.gt (JS.Num toDep) (JS.Num 0)) eqn:Ea;
    destruct (JS.gt (JS.Num fromArr) (JS.Num 0)) eqn:Eb;
    try (apply (gt_zero_false _ Hpa) in Ea);
    try (apply (gt_zero_false _ Hpb) in Eb);
    unfold sum_durations; simpl; lra.
Qed.

(** [createTransferRoute] itself keeps the invariant when every duration is
    finite, the walks are non-negative and the total is the sum that
    [createTransferRoutePlan] computes. *)
Lemma createTransferRoute_duration stamp c toFirst ride1 walk wait ride2 fromFinal :
  walkingToFirst c = JS.Num toFirst ->
  firstBusRideDuration c = JS.Num ride1 ->
  tc_intraSiteWalk c = JS.Num walk ->
  transferWaiting c = JS.Num wait ->
  secondBusRideDuration c = JS.Num ride2 ->
  walkingFromFinal c = JS.Num fromFinal ->
  0 <= toFirst -> 0 <= walk -> 0 <= fromFinal ->
  tc_totalDuration c = JS.Num (toFirst + ride1 + walk + wait + ride2 + fromFinal) ->
  JS.same (sum_durations (segments (createTransferRoute stamp c)))
          (totalDuration (createTransferRoute stamp c)).
Proof.
  intros H1 H2 H3 H4 H5 H6 Hp1 Hp3 Hp6 Ht. unfold createTransferRoute.
  cbn [segments totalDuration new_RoutePlan].
  rewrite H1, H2, H3, H4, H5, H6, Ht.
  destruct (JS.gt (JS.Num toFirst) (JS.Num 0)) eqn:E1;
    destruct (JS.gt (JS.Num walk) (JS.Num 0)) eqn:E3;
    destruct (JS.gt (JS.Num fromFinal) (JS.Num 0)) eqn:E6;
    try (apply (gt_zero_false _ Hp1) in E1);
    try (apply (gt_zero_false _ Hp3) in E3);
    try (apply (gt_zero_false _ Hp6) in E6);
    unfold sum_durations; simpl; lra.
Qed.

(** The stop where the first ride ends is handed over without coordinates
    and without a stop-point id: the intra-site distance is [NaN], and so
    are the walk, the waiting time and the total of every transfer
    itinerary. *)
Lemma calculateStopPointDistance_next_stop_site great_circle n stop2 :
  calculateStopPointDistance great_circle (next_stop_site n) stop2 = JS.NaN.
Proof. reflexivity. Qed.

Lemma add_NaN_r x : JS.add x JS.NaN = JS.NaN.
Proof. by destruct x. Qed.

Lemma fold_add_NaN segs :
  fold_left (fun acc s => JS.add acc (duration s)) segs JS.NaN = JS.NaN.
Proof. induction segs as [| s segs IH]; simpl; [done | exact IH]. Qed.

(** C3, the failing side: every transfer itinerary the chain search builds
    has a total duration of [NaN] and a waiting segment of duration [NaN];
    its total is not within one second of the sum of its segments. *)
Theorem createTransferRoutePlan_duration_NaN
    great_circle db stamp agent n connection maxDuration arrival gviMonth route :
  createTransferRoutePlan great_circle db stamp agent (next_stop_site n)
    connection maxDuration arrival gviMonth = Some route ->
  routeType route = transfer_bus /\
  totalDuration route = JS.NaN /\
  sum_durations (segments route) = JS.NaN /\
  within_one_second (sum_durations (segments route)) (totalDuration route) = false.
Proof.
  unfold createTransferRoutePlan.
  destruct (getStopPointSite db (c_departureStopId connection)) as [row |];
    [| discriminate].
  cbn zeta.
  rewrite !bool_decide_eq_true_2 by (simpl; discriminate).
  rewrite calculateStopPointDistance_next_stop_site.
  change (JS.div JS.NaN (JS.Num walkingSpeed)) with JS.NaN.
  rewrite ?add_NaN_r. simpl JS.sub. simpl JS.max2. rewrite ?add_NaN_r. simpl JS.add.
  simpl JS.gt. intros [= <-].
  split; [reflexivity |]. split; [reflexivity |].
  assert (Hs : sum_durations (segments (createTransferRoute stamp
     {| tc_origin := to_latlon (site_lon (originSite agent), site_lat (originSite agent));
        tc_destination := to_latlon (site_lon (c_destSite connection),
                                     site_lat (c_destSite connection));
        walkingToFirst := JS.Num (walkingDistance (originSite agent) / walkingSpeed);
        walkingToFirstDistance := JS.Num (walkingDistance (originSite agent));
        firstDepartureStop := stop_info (departureStopInfo agent);
        firstLineId := lineId agent;
        firstDeparture := departure_expectedTime agent;
        firstBusRideDuration :=
          JS.Num (seconds_between arrival (departure_expectedTime agent));
        firstArrival := arrival;
        transferArrivalStop := next_stop_site n;
        transferDepartureStop := stop_info row;
        transferSiteId := c_transferSiteId connection;
        tc_intraSiteWalk := JS.NaN;
        intraSiteDistance := JS.NaN;
        transferWaiting := JS.NaN;
        secondLineId := c_lineId connection;
        secondDeparture := c_departureTime connection;
        secondBusRideDuration := JS.Num (10 * 60);
        secondArrival := (c_departureTime connection + 600 * 1000)%Z;
        finalArrivalStop := stop_info row;
        walkingFromFinal :=
          JS.Num (walkingDistance (c_destSite connection) / walkingSpeed);
        walkingFromFinalDistance := JS.Num (walkingDistance (c_destSite connection));
        tc_totalDuration := JS.NaN;
        tc_gviDataMonth := gviMonth |})) = JS.NaN).
  { unfold createTransferRoute. cbn [segments new_RoutePlan tc_intraSiteWalk
      walkingToFirst transferWaiting walkingFromFinal JS.gt].
    rewrite !sum_durations_app.
    set (pre := sum_durations _).
    cbn [fold_left app duration createTransferWaitingSegment bw_duration].
    rewrite add_NaN_r. simpl. by rewrite !fold_add_NaN. }
  split; [exact Hs |]. by rewrite Hs.
Qed.

End Durations.

Section CityTransfers.
Import DB PathSolver Route Engine Transfer.
Local Open Scope Q_scope.

Example city_first_agent : head CityTrip.agents = Some CityTrip.agent1.
Proof. vm_compute. reflexivity. Qed.

Example city_first_hop :
  getNextStopDirect City.db (lineId CityTrip.agent1) (directionCode CityTrip.agent1)
    (currentStopId CityTrip.agent1) = Some CityTrip.hop1.
Proof. reflexivity. Qed.

Example city_first_connection :
  head (findConnectionsFromCachedDepartures City.db
          (default [] (CityTrip.departuresCache !! 2%Z))
          CityTrip.destinationSites 250000 (Some 2%Z))
  = Some CityTrip.connection1.
Proof. vm_compute. reflexivity. Qed.

Lemma createTransferRoutePlan_duration_NaN_witness :
  exists route,
    createTransferRoutePlan City.manhattan City.db 0 CityTrip.agent1
      (next_stop_site CityTrip.hop1) CityTrip.connection1 3600 190000 "2025-08"
    = Some route /\
    routeType route = transfer_bus /\
    totalDuration route = JS.NaN /\
    sum_durations (segments route) = JS.NaN /\
    within_one_second (sum_durations (segments route)) (totalDuration route) = false.
Proof.
  eexists. split; [vm_compute; reflexivity |].
  apply (createTransferRoutePlan_duration_NaN City.manhattan City.db 0
           CityTrip.agent1 CityTrip.hop1 CityTrip.connection1 3600 190000 "2025-08").
  vm_compute. reflexivity.
Defined.

(** Every itinerary of the search over the city has a total of [NaN]. *)
Example city_transfer_totals :
  List.map totalDuration CityTrip.transferRoutes = List.repeat JS.NaN 21.
Proof. vm_compute. reflexivity. Qed.

End CityTransfers.

Section TransferBounds.
Import DB PathSolver Route Engine Transfer.
Local Open Scope nat_scope.

Variable great_circle : Point -> Point -> Q.
Variable db : Database.
Variable stamp : Z.
Variable destinationSites : list Site.
Variable maxDuration : Q.
Variable gviMonth : string.
Variable cache : gmap Z (list SLApi.Departure).

(** The inner loop adds itineraries one at a time and returns as soon as
    there are two. *)
Lemma emit_connections_bound agent n estimatedTime connections :
  forall routes,
    List.length routes <= 1 ->
    let '(routes', returned) :=
      emit_connections great_circle db stamp agent n maxDuration estimatedTime
        gviMonth connections routes in
    List.length routes' <= 2 /\ (returned = false -> List.length routes' <= 1).
Proof.
  induction connections as [| c rest IH]; intros routes Hlen;
    cbn [emit_connections].
  - split; [lia | done].
  - destruct (Qle_bool _ _); [| by apply IH].
    destruct (createTransferRoutePlan _ _ _ _ _ _ _ _ _) as [route |];
      [| by apply IH].
    cbv zeta.
    destruct (2 <=? List.length (routes ++ [route])) eqn:E.
    + rewrite length_app. simpl. split; [lia | done].
    + apply Nat.leb_gt in E. apply IH. lia.
Qed.

Lemma chain_loop_bound agent :
  forall remaining currentStop estimatedTime acc,
    List.length (transferRoutes acc) <= 1 ->
    let result := chain_loop great_circle db stamp agent destinationSites
                    maxDuration gviMonth cache remaining currentStop
                    estimatedTime acc in
    List.length (transferRoutes result) <= 2 /\
    List.length (hops result) <= List.length (hops acc) + remaining.
Proof.
  induction remaining as [| remaining IH]; intros currentStop estimatedTime acc Hlen;
    cbn [chain_loop]; cbv zeta.
  - split; lia.
  - destruct (getNextStopDirect _ _ _ _) as [nextStopInfo |]; [| split; lia].
    destruct (negb _).
    { simpl. rewrite length_app. simpl. split; lia. }
    pose proof (emit_connections_bound agent nextStopInfo
                  (estimatedTime + 90 * 1000)%Z
                  (firstn 2 (findConnectionsFromCachedDepartures db
                     match next_site_id nextStopInfo with
                     | Some site => default [] (cache !! site)
                     | None => []
                     end destinationSites
                     (estimatedTime + 90 * 1000 + 60 * 1000)%Z
                     (next_site_id nextStopInfo)))
                  (transferRoutes acc) Hlen) as Hemit.
    destruct (emit_connections _ _ _ _ _ _ _ _ _ _) as [routes returned].
    destruct Hemit as [H2 H1].
    destruct returned.
    + simpl. rewrite length_app. simpl. split; lia.
    + specialize (IH (next_stop_point_id nextStopInfo)
                     (estimatedTime + 90 * 1000)%Z
                     {| transferRoutes := routes;
                        hops := hops acc ++ [next_stop_point_id nextStopInfo] |}).
      cbn [hops transferRoutes] in *. rewrite length_app in IH. simpl in IH.
      destruct (IH (H1 eq_refl)) as [Ha Hb]. split; [exact Ha | lia].
Qed.

(** An agent walks at most 10 hops and emits at most 2 itineraries. *)
Lemma findTransferChainCached_bounds agent :
  let result := findTransferChainCached great_circle db stamp agent
                  destinationSites maxDuration gviMonth cache in
  List.length (hops result) <= 10 /\ List.length (transferRoutes result) <= 2.
Proof.
  pose proof (chain_loop_bound agent 10 (currentStopId agent) (nominalTime agent)
                {| transferRoutes := []; hops := [] |}) as H.
  simpl in H. destruct H as [H2 H10]; [lia |]. split; assumption.
Qed.

(** The loop over the agents tests the total after an agent's itineraries
    have been added: it can end with 21. *)
Lemma agents_loop_bound agents :
  forall collected,
    List.length collected <= 19 ->
    List.length (agents_loop great_circle db stamp destinationSites maxDuration
                   gviMonth cache agents collected) <= 21.
Proof.
  induction agents as [| agent rest IH]; intros collected Hlen;
    cbn [agents_loop]; cbv zeta; [lia |].
  pose proof (findTransferChainCached_bounds agent) as [_ H2].
  destruct (20 <=? _) eqn:E.
  - rewrite length_app. lia.
  - apply Nat.leb_gt in E. apply IH. lia.
Qed.

Lemma findTransferRoutes_bound originSites currentTime :
  List.length (findTransferRoutes great_circle db stamp originSites
                 destinationSites currentTime maxDuration gviMonth cache) <= 21.
Proof. unfold findTransferRoutes. apply agents_loop_bound. simpl. lia. Qed.

End TransferBounds.

Section CityTransferCount.
Import DB PathSolver Route Engine Transfer.

(** C4, the failing side: in the city the first nine agents emit two
    itineraries each, the tenth one, and the eleventh two more; the search
    returns 21 itineraries, one more than the bound of 20.  The bounds per
    agent hold: no agent walks more than 10 hops or emits more than 2. *)
Theorem findTransferRoutes_emits_21 :
  List.map (fun a => List.length (transferRoutes (CityTrip.chain a)))
           (firstn 11 CityTrip.agents)
  = [2; 2; 2; 2; 2; 2; 2; 2; 2; 1; 2]%nat /\
  List.length CityTrip.transferRoutes = 21%nat /\
  ~ (List.length CityTrip.transferRoutes <= 20)%nat.
Proof.
  split; [vm_compute; reflexivity |].
  assert (H : List.length CityTrip.transferRoutes = 21%nat)
    by (vm_compute; reflexivity).
  split; [exact H |]. rewrite H. lia.
Qed.

End CityTransferCount.

Section Deduplication.
Import DB PathSolver Route Engine.

(** The loop keeps [seen] equal to the fingerprints of [unique], and
    [unique] free of repeated fingerprints. *)
Lemma dedup_loop_spec routes : forall (seen : gset string) unique,
  (forall fp, fp ∈ seen <-> fp ∈ fingerprint <$> unique) ->
  NoDup (fingerprint <$> unique) ->
  NoDup (fingerprint <$> dedup_loop routes seen unique) /\
  sublist (dedup_loop routes seen unique) (unique ++ routes) /\
  (forall c, c ∈ unique ++ routes ->
     fingerprint c ∈ fingerprint <$> dedup_loop routes seen unique).
Proof.
  induction routes as [| route rest IH]; intros seen unique Hseen Hnd; simpl.
  - rewrite app_nil_r. split; [done |]. split; [done |].
    intros c Hc. by apply list_elem_of_fmap_2.
  - destruct (decide (fingerprint route ∈ seen)) as [Hin | Hnin].
    + destruct (IH seen unique Hseen Hnd) as (H1 & H2 & H3).
      split; [done |]. split.
      * etransitivity; [exact H2 |]. apply sublist_app; [done |].
        by apply sublist_cons.
      * intros c Hc. apply elem_of_app in Hc as [Hc | Hc].
        { apply H3. apply elem_of_app. by left. }
        apply elem_of_cons in Hc as [-> | Hc].
        { apply Hseen in Hin. apply list_elem_of_fmap in Hin as (u & Hfp & Hu).
          rewrite Hfp. apply H3. apply elem_of_app. by left. }
        apply H3. apply elem_of_app. by right.
    + assert (Hseen' : forall fp, fp ∈ ({[fingerprint route]} ∪ seen : gset string)
                         <-> fp ∈ fingerprint <$> unique ++ [route]).
      { intros fp. rewrite fmap_app, elem_of_app, elem_of_union, elem_of_singleton.
        simpl. rewrite list_elem_of_singleton, Hseen. tauto. }
      assert (Hnd' : NoDup (fingerprint <$> unique ++ [route])).
      { rewrite fmap_app. apply NoDup_app. split; [done |]. split.
        - intros fp Hfp. simpl. rewrite list_elem_of_singleton. intros ->.
          apply Hnin. by apply Hseen.
        - simpl. apply NoDup_singleton. }
      destruct (IH _ _ Hseen' Hnd') as (H1 & H2 & H3).
      rewrite <- app_assoc in H2, H3. simpl in H2, H3. done.
Qed.

Lemma deduplicateRoutes_spec routes :
  NoDup (fingerprint <$> deduplicateRoutes routes) /\
  sublist (deduplicateRoutes routes) routes /\
  (forall c, c ∈ routes -> fingerprint c ∈ fingerprint <$> deduplicateRoutes routes).
Proof.
  apply (dedup_loop_spec routes ∅ []).
  - intros fp. simpl. rewrite elem_of_nil. set_solver.
  - simpl. apply NoDup_nil_2.
Qed.

(** The route of a candidate keeps its first position: a later candidate
    with the same fingerprint is the one dropped. *)
Lemma dedup_loop_acc routes : forall (seen : gset string) unique,
  dedup_loop routes seen unique = unique ++ dedup_loop routes seen [].
Proof.
  induction routes as [| route rest IH]; intros seen unique; simpl.
  - by rewrite app_nil_r.
  - destruct (decide (fingerprint route ∈ seen)); [apply IH |].
    rewrite (IH _ (unique ++ [route])), (IH _ [route]).
    by rewrite <- app_assoc.
Qed.

Lemma deduplicateRoutes_head route rest :
  exists others, deduplicateRoutes (route :: rest) = route :: others.
Proof.
  unfold deduplicateRoutes. simpl.
  destruct (decide (fingerprint route ∈ (∅ : gset string))) as [Hin | _];
    [set_solver |].
  rewrite dedup_loop_acc. simpl. eauto.
Qed.

(** The candidates come in the order of the strategies. *)
Lemma walking_candidates_strategies pg solve db stamp origin destination
    gviMonth preferences :
  sublist (strategy <$> walking_candidates pg solve db stamp origin destination
                          gviMonth preferences)
          [Some UserPreference; Some ASAP; Some GROOT].
Proof.
  unfold walking_candidates.
  change [Some UserPreference; Some ASAP; Some GROOT]
    with (Some <$> (fst <$> strategies preferences)).
  induction (strategies preferences) as [| st sts IH]; simpl; [done |].
  rewrite fmap_app.
  destruct (calculateWalkingRoute _ _ _ _ _ _ _ _) as [route | msg]; simpl.
  - destruct (RouteDGVI.calculateRouteDGVI _ _ _ _ _) as [d0 segs]. simpl.
    by apply sublist_skip.
  - by apply sublist_cons.
Qed.

(** C5: the walking routes returned have pairwise different fingerprints;
    there are at most two; they are the first two survivors of the
    deduplication, which keeps the candidates in the order of the strategies
    (user, ASAP, GROOT), keeps a representative of every fingerprint, and
    always keeps the first candidate. *)
Theorem generateWalkingCandidates_deduplicated pg solve db stamp origin destination
    gviMonth preferences :
  let candidates := walking_candidates pg solve db stamp origin destination
                      gviMonth preferences in
  let result := generateWalkingCandidates pg solve db stamp origin destination
                  gviMonth preferences in
  NoDup (fingerprint <$> result) /\
  (List.length result <= 2)%nat /\
  result `prefix_of` deduplicateRoutes candidates /\
  sublist result candidates /\
  sublist (strategy <$> result) [Some UserPreference; Some ASAP; Some GROOT] /\
  (forall c, c ∈ candidates ->
     fingerprint c ∈ fingerprint <$> deduplicateRoutes candidates) /\
  head result = head candidates.
Proof.
  intros candidates result.
  destruct (deduplicateRoutes_spec candidates) as (Hnd & Hsub & Hall).
  assert (Hres : result = take 2 (deduplicateRoutes candidates)) by reflexivity.
  assert (Hpre : result `prefix_of` deduplicateRoutes candidates)
    by (rewrite Hres; apply prefix_take).
  assert (Hsub' : sublist result candidates)
    by (etransitivity; [rewrite Hres; apply sublist_take | exact Hsub]).
  split.
  { rewrite Hres, fmap_take. exact (sublist_NoDup _ _ Hnd (sublist_take _ _)). }
  split.
  { rewrite Hres, length_take. lia. }
  split; [exact Hpre |]. split; [exact Hsub' |]. split.
  { etransitivity; [apply (fmap_sublist strategy), Hsub' |].
    apply walking_candidates_strategies. }
  split; [exact Hall |].
  rewrite Hres. destruct candidates as [| c cs]; [reflexivity |].
  destruct (deduplicateRoutes_head c cs) as [others ->]. reflexivity.
Qed.

End Deduplication.

Section SameVertex.
Import DB PathSolver Route Engine.
Local Open Scope Q_scope.

Lemma walking_route_query_same pg solve db preferences gviMonth v :
  no_row_for_same_vertex solve ->
  walking_route_query pg solve db preferences gviMonth v v
  = {| road_ids := None; total_length := None; merged_geom := None |}.
Proof. intros Hsolve. unfold walking_route_query. by rewrite Hsolve. Qed.

(** C7: when the nearest vertices of the two query points coincide, the
    solver finds no edge.  [calculateWalkingSegment] returns an empty edge
    list, distance 0 and duration 0; [calculateWalkingRoute] returns a route
    of one walking segment with an empty edge list, distance 0 and
    duration 0. *)
Theorem same_vertex_empty_path pg solve db stamp origin destination gviMonth
    preferences (v v' : Vertex) :
  no_row_for_same_vertex solve ->
  nearest_vertex db origin = Some v ->
  nearest_vertex db destination = Some v' ->
  vertex_id v = vertex_id v' ->
  calculateWalkingSegment pg solve db origin destination preferences gviMonth
  = {| wp_duration := JS.Num 0; wp_distance := Some 0;
       wp_roadIds := []; wp_geometry := None |} /\
  exists route w,
    calculateWalkingRoute pg solve db stamp origin destination gviMonth preferences
    = Normal route /\
    segments route = [Walking w] /\
    w_roadIds w = [] /\
    w_distance w = JS.Num 0 /\
    JS.same (w_duration w) (JS.Num 0) /\
    JS.same (totalDuration route) (JS.Num 0).
Proof.
  intros Hsolve Ho Hd Hv.
  unfold calculateWalkingSegment, calculateWalkingRoute.
  rewrite Ho, Hd, <- Hv, walking_route_query_same by done.
  split; [reflexivity |].
  eexists _, _. split; [reflexivity |]. split; [reflexivity |].
  repeat split; reflexivity.
Qed.

Lemma reference_dijkstra_same : no_row_for_same_vertex reference_dijkstra.
Proof. intros edges v. unfold reference_dijkstra. by rewrite Z.eqb_refl. Qed.

End SameVertex.

Section CityWalks.
Import DB PathSolver Route Engine.
Local Open Scope Q_scope.

(** Two points near corner A of the city. *)
Lemma same_vertex_empty_path_witness :
  no_row_for_same_vertex reference_dijkstra /\
  nearest_vertex City.db (1, 0) = Some {| vertex_id := 1; the_geom := (0, 0) |} /\
  nearest_vertex City.db (0, 2) = Some {| vertex_id := 1; the_geom := (0, 0) |} /\
  calculateWalkingSegment City.pg reference_dijkstra City.db
    (1, 0) (0, 2) {| time := 0.5; green := 0.5 |} "2025-08"
  = {| wp_duration := JS.Num 0; wp_distance := Some 0;
       wp_roadIds := []; wp_geometry := None |} /\
  exists route w,
    calculateWalkingRoute City.pg reference_dijkstra City.db 0 (1, 0) (0, 2)
      "2025-08" {| time := 0.5; green := 0.5 |} = Normal route /\
    segments route = [Walking w] /\
    w_roadIds w = [] /\
    w_distance w = JS.Num 0 /\
    JS.same (w_duration w) (JS.Num 0) /\
    JS.same (totalDuration route) (JS.Num 0).
Proof.
  split; [apply reference_dijkstra_same |].
  split; [reflexivity |]. split; [reflexivity |].
  apply (same_vertex_empty_path City.pg reference_dijkstra City.db 0
           (1, 0) (0, 2) "2025-08" {| time := 0.5; green := 0.5 |}
           {| vertex_id := 1; the_geom := (0, 0) |}
           {| vertex_id := 1; the_geom := (0, 0) |}).
  - apply reference_dijkstra_same.
  - reflexivity.
  - reflexivity.
  - reflexivity.
Defined.

(** From A to C with weights (0.7, 0.3): the user's route and the fastest
    route both take the grey streets 1 and 2, the greenest takes streets 3
    and 4; the duplicate is dropped. *)
Example city_walking_routes :
  List.map (fun r => (strategy r, fingerprint r))
    (generateWalkingCandidates City.pg reference_dijkstra City.db 0
       CityTrip.origin CityTrip.destination "2025-08"
       {| time := 0.7; green := 0.3 |})
  = [ (Some UserPreference, "1,2"); (Some GROOT, "3,4") ].
Proof. vm_compute. reflexivity. Qed.

Example city_walking_candidates :
  List.map (fun r => (strategy r, fingerprint r))
    (walking_candidates City.pg reference_dijkstra City.db 0
       CityTrip.origin CityTrip.destination "2025-08"
       {| time := 0.7; green := 0.3 |})
  = [ (Some UserPreference, "1,2"); (Some ASAP, "1,2"); (Some GROOT, "3,4") ].
Proof. vm_compute. reflexivity. Qed.

(** The fingerprint orders the edge ids as strings, whatever their order
    along the path: 10 comes before 2 and 9. *)
Example fingerprint_orders_ids_as_strings :
  List.map (fun ids =>
    fingerprint (createWalkingRoute 0
      {| wr_totalDuration := JS.Num 0; wr_totalDistance := None;
         wr_origin := to_latlon CityTrip.origin;
         wr_destination := to_latlon CityTrip.destination;
         wr_roadIds := ids; wr_geometry := None;
         wr_gviDataMonth := "2025-08" |}))
    [Some [9; 10; 2]%Z; Some [2; 9; 10]%Z; Some []; None]
  = ["10,2,9"; "10,2,9"; ""; ""].
Proof. vm_compute. reflexivity. Qed.

End CityWalks.

Section Planning.
Import DB PathSolver Route Engine.

Lemma Forall_insert_sorted {A} (P : A -> Prop) leb x (l : list A) :
  P x -> Forall P l -> Forall P (insert_sorted leb x l).
Proof.
  intros Hx Hl. induction Hl as [| y l Hy Hl IH]; simpl.
  - by constructor.
  - destruct (leb x y); repeat constructor; assumption.
Qed.

Lemma Forall_sort_by {A} (P : A -> Prop) leb (l : list A) :
  Forall P l -> Forall P (sort_by leb l).
Proof.
  unfold sort_by. induction 1 as [| x l Hx Hl IH]; simpl; [constructor |].
  by apply Forall_insert_sorted.
Qed.

Lemma length_insert_sorted {A} leb x (l : list A) :
  List.length (insert_sorted leb x l) = S (List.length l).
Proof.
  induction l as [| y l IH]; simpl; [done |].
  destruct (leb x y); simpl; [done | by rewrite IH].
Qed.

Lemma length_sort_by {A} leb (l : list A) :
  List.length (sort_by leb l) = List.length l.
Proof.
  unfold sort_by. induction l as [| x l IH]; simpl; [done |].
  by rewrite length_insert_sorted, IH.
Qed.

Lemma Forall_sublist {A} (P : A -> Prop) (k l : list A) :
  sublist k l -> Forall P l -> Forall P k.
Proof.
  intros Hsub Hl. apply Forall_forall. intros x Hx.
  rewrite Forall_forall in Hl. apply Hl. by eapply elem_of_sublist.
Qed.

Lemma walking_candidates_type pg solve db stamp origin destination gviMonth
    preferences :
  Forall (fun r => routeType r = walking)
    (walking_candidates pg solve db stamp origin destination gviMonth preferences).
Proof.
  unfold walking_candidates.
  induction (strategies preferences) as [| st sts IH]; simpl; [constructor |].
  apply Forall_app. split; [| exact IH].
  unfold calculateWalkingRoute.
  destruct (nearest_vertex db origin), (nearest_vertex db destination);
    repeat constructor.
Qed.

Lemma generateWalkingCandidates_type pg solve db stamp origin destination
    gviMonth preferences :
  Forall (fun r => routeType r = walking)
    (generateWalkingCandidates pg solve db stamp origin destination gviMonth
       preferences).
Proof.
  unfold generateWalkingCandidates.
  eapply Forall_sublist; [| apply walking_candidates_type].
  etransitivity; [apply sublist_take |]. apply deduplicateRoutes_spec.
Qed.

Lemma direct_route_type pg solve db stamp originSites destinationSites currentTime
    maxDuration gviMonth preferences destJourneys journey route :
  direct_route pg solve db stamp originSites destinationSites currentTime
    maxDuration gviMonth preferences destJourneys journey = Some route ->
  routeType route = direct_bus.
Proof.
  unfold direct_route. intros H.
  repeat match type of H with
  | context [mbind _ ?o] => destruct o; simpl in H; [| discriminate H]
  | context [if ?b then _ else _] => destruct b; [discriminate H |]
  end.
  by injection H as <-.
Qed.

Lemma findDirectRoutes_type pg solve db stamp originSites destinationSites
    currentTime maxDuration gviMonth cache preferences :
  Forall (fun r => routeType r = direct_bus)
    (findDirectRoutes pg solve db stamp originSites destinationSites currentTime
       maxDuration gviMonth cache preferences).
Proof.
  unfold findDirectRoutes. apply Forall_forall. intros r Hr.
  apply list_elem_of_omap in Hr as (j & _ & Hj).
  by eapply direct_route_type.
Qed.

Lemma generateBusCandidates_type pg solve db feed origin destination currentTime
    gviMonth preferences :
  Forall (fun r => routeType r = direct_bus)
    (generateBusCandidates pg solve db feed origin destination currentTime
       gviMonth preferences).
Proof.
  unfold generateBusCandidates.
  destruct (findNearbySites pg db origin) as [| o os]; [constructor |].
  destruct (findNearbySites pg db destination) as [| d ds]; [constructor |].
  cbv zeta. unfold SLApi.getBatchDepartures.
  unfold enrichVisualizationData. apply List.Forall_map.
  match goal with |- Forall _ (firstn 2 ?l) =>
    assert (H : Forall (fun r => routeType r = direct_bus) l) end.
  { unfold scoreBusRoutes.
    match goal with |- Forall _ (match ?l with _ => _ end) =>
      assert (Hl : Forall (fun r => routeType r = direct_bus) l) end.
    { apply List.Forall_map. eapply Forall_sublist; [apply sublist_take |].
      apply Forall_sort_by. apply findDirectRoutes_type. }
    destruct Hl as [| c cs Hc Hcs]; [constructor |].
    apply Forall_sort_by. apply List.Forall_map. by constructor. }
  eapply Forall_sublist; [apply sublist_take | exact H].
Qed.

(** C9: [planRoutes] returns at most two walking routes followed by at most
    two bus routes, hence at most four routes, and the list it returns is
    the same for every value of [maxResults]. *)
Theorem planRoutes_at_most_four_ignores_maxResults
    pg solve db feed now origin destination (options : Options) :
  exists walkingRoutes busRoutes,
    planRoutes pg solve db feed now origin destination options
    = Normal (walkingRoutes ++ busRoutes) /\
    (List.length walkingRoutes <= 2)%nat /\
    (List.length busRoutes <= 2)%nat /\
    (List.length (walkingRoutes ++ busRoutes) <= 4)%nat /\
    Forall (fun r => routeType r = walking) walkingRoutes /\
    Forall (fun r => routeType r = direct_bus) busRoutes /\
    forall maxResults,
      planRoutes pg solve db feed now origin destination
        {| opt_gviMonth := opt_gviMonth options;
           opt_preferences := opt_preferences options;
           opt_maxResults := maxResults |}
      = Normal (walkingRoutes ++ busRoutes).
Proof.
  eexists _, _. split; [reflexivity |].
  assert (H2 : forall l : list RoutePlan, (List.length (firstn 2 l) <= 2)%nat)
    by (intros l; rewrite length_take; lia).
  split; [apply H2 |]. split; [apply H2 |]. split.
  { rewrite length_app. pose proof (H2 (generateWalkingCandidates pg solve db now
      origin destination (default "2025-06" (opt_gviMonth options))
      (default {| time := 0.5; green := 0.5 |} (opt_preferences options)))).
    pose proof (H2 (generateBusCandidates pg solve db feed origin destination now
      (default "2025-06" (opt_gviMonth options))
      (default {| time := 0.5; green := 0.5 |} (opt_preferences options)))).
    lia. }
  split.
  { eapply Forall_sublist; [apply sublist_take |].
    apply generateWalkingCandidates_type. }
  split.
  { eapply Forall_sublist; [apply sublist_take |].
    apply generateBusCandidates_type. }
  reflexivity.
Qed.

End Planning.

Section CityPlanning.
Import DB PathSolver Route Engine.
Local Open Scope Q_scope.

Lemma generateWalkingCandidates_deduplicated_witness :
  NoDup (fingerprint <$>
           generateWalkingCandidates City.pg reference_dijkstra City.db 0
             CityTrip.origin CityTrip.destination "2025-08"
             {| time := 0.7; green := 0.3 |}).
Proof.
  exact (proj1 (generateWalkingCandidates_deduplicated City.pg reference_dijkstra
                  City.db 0 CityTrip.origin CityTrip.destination "2025-08"
                  {| time := 0.7; green := 0.3 |})).
Defined.

(** The plan for the trip: the user's walk, the greenest walk and the bus
    of line 50, whatever [maxResults] is. *)
Example city_plan :
  List.map (fun maxResults =>
    match planRoutes City.pg reference_dijkstra City.db City.feed 0
            CityTrip.origin CityTrip.destination (CityTrip.options maxResults) with
    | Normal routes => List.map (fun r => (routeType r, strategy r)) routes
    | Thrown _ => []
    end) [None; Some 1%Z; Some 2%Z; Some 4%Z]
  = List.repeat [ (walking, Some UserPreference); (walking, Some GROOT);
                  (direct_bus, None) ] 4.
Proof. vm_compute. reflexivity. Qed.

(** The durations of the bus route: no walk to the stop, no wait, a ride of
    600 s and a walk of 1000 m; the total is their sum. *)
Example city_plan_bus_durations :
  match planRoutes City.pg reference_dijkstra City.db City.feed 0
          CityTrip.origin CityTrip.destination (CityTrip.options None) with
  | Normal [_; _; bus] =>
      Forall2 JS.same (List.map duration (segments bus))
                      [JS.Num 0; JS.Num 600; JS.Num (1000 / 1.4)] /\
      within_one_second (sum_durations (segments bus)) (totalDuration bus) = true /\
      JS.same (totalScore bus) (JS.Num 0.7)
  | _ => False
  end.
Proof.
  vm_compute. split; [repeat constructor | split; reflexivity].
Qed.

End CityPlanning.

(* ================================================================== *)
(** * Further properties of the embedded code *)
(* ================================================================== *)

Section SortFacts.
Context {A : Type} (leb : A -> A -> bool).

Lemma insert_sorted_Permutation x (l : list A) :
  insert_sorted leb x l ≡ₚ x :: l.
Proof.
  induction l as [| y l IH]; simpl; [done |].
  destruct (leb x y); [done |].
  rewrite IH. apply Permutation_swap.
Qed.

Lemma sort_by_Permutation (l : list A) : sort_by leb l ≡ₚ l.
Proof.
  unfold sort_by. induction l as [| x l IH]; simpl; [done |].
  by rewrite insert_sorted_Permutation, IH.
Qed.

Lemma sort_by_In x (l : list A) : In x (sort_by leb l) <-> In x l.
Proof.
  rewrite <- !list_elem_of_In. by rewrite sort_by_Permutation.
Qed.

Hypothesis leb_total : forall a b, leb a b = false -> leb b a = true.

Lemma insert_sorted_Sorted x (l : list A) :
  Sorted (fun a b => leb a b = true) l ->
  Sorted (fun a b => leb a b = true) (insert_sorted leb x l).
Proof.
  induction 1 as [| y l Hl IH Hy]; simpl.
  - by repeat constructor.
  - destruct (leb x y) eqn:E.
    + constructor; [by constructor |]. by constructor.
    + constructor; [exact IH |].
      destruct l as [| z l]; simpl.
      * constructor. by apply leb_total.
      * destruct (leb x z) eqn:Ez.
        -- constructor. by apply leb_total.
        -- constructor. by inversion Hy.
Qed.

Lemma sort_by_Sorted (l : list A) :
  Sorted (fun a b => leb a b = true) (sort_by leb l).
Proof.
  unfold sort_by. induction l as [| x l IH]; simpl; [constructor |].
  by apply insert_sorted_Sorted.
Qed.

End SortFacts.

(** ** The segment integral ([calculateSegmentDGVI]) *)

Section SegmentIntegral.
Import DB DGVI.
Local Open Scope Q_scope.

Lemma fold_left_Qplus_acc (l : list Q) : forall a,
  fold_left Qplus l a == a + fold_left Qplus l 0.
Proof.
  induction l as [| x l IH]; intros a; simpl; [ring |].
  rewrite (IH (a + x)), (IH (0 + x)). ring.
Qed.

Lemma by_position_total a b : by_position a b = false -> by_position b a = true.
Proof.
  unfold by_position. intros H. apply Qle_bool_iff.
  destruct (Qlt_le_dec (fst b) (fst a)) as [Hlt | Hle].
  - by apply Qlt_le_weak.
  - apply Qle_bool_iff in Hle. congruence.
Qed.

Lemma points_sorted (l : list (Q * Q)) :
  StronglySorted (fun a b => fst a <= fst b) (sort_by by_position l).
Proof.
  apply Sorted_StronglySorted.
  - intros a b c Hab Hbc. by apply Qle_trans with (fst b).
  - pose proof (sort_by_Sorted by_position by_position_total l) as H.
    induction H as [| a s Hs IH Ha]; constructor; [exact IH |].
    destruct Ha as [| b s' Hab]; constructor.
    by apply Qle_bool_iff.
Qed.

Lemma last_default {A} (rest : list A) : forall a b,
  List.last (b :: rest) a = List.last rest b.
Proof.
  induction rest as [| c rest IH]; intros a b; [reflexivity |].
  change (List.last (b :: c :: rest) a) with (List.last (c :: rest) a).
  by rewrite !IH.
Qed.

Lemma last_In_cons {A} (rest : list A) : forall a,
  In (List.last rest a) (a :: rest).
Proof.
  induction rest as [| c rest IH]; intros a; [by left |].
  rewrite last_default. right. apply IH.
Qed.

Lemma sorted_le_last (rest : list (Q * Q)) : forall a x,
  StronglySorted (fun a b => fst a <= fst b) (a :: rest) ->
  In x (a :: rest) -> fst x <= fst (List.last rest a).
Proof.
  induction rest as [| b rest IH]; intros a x Hs Hx.
  - destruct Hx as [<- | []]. simpl. apply Qle_refl.
  - inversion Hs as [| ? ? Hs' Hall]; subst.
    rewrite last_default.
    destruct Hx as [<- | Hx].
    + apply Qle_trans with (fst b).
      * by inversion Hall.
      * apply IH; [exact Hs' | by left].
    + by apply IH.
Qed.

Lemma first_gvi_or_zero_In (P : Q -> Prop) matched :
  P 0 -> Forall (fun p => P (snd p)) matched -> P (first_gvi_or_zero matched).
Proof.
  intros H0 Hall. unfold first_gvi_or_zero.
  destruct (sort_by by_position matched) as [| x s] eqn:E; [exact H0 |].
  rewrite List.Forall_forall in Hall. apply Hall.
  rewrite <- (sort_by_In by_position), E. by left.
Qed.

Lemma last_gvi_or_zero_In (P : Q -> Prop) matched :
  P 0 -> Forall (fun p => P (snd p)) matched -> P (last_gvi_or_zero matched).
Proof.
  intros H0 Hall. unfold last_gvi_or_zero.
  destruct (List.rev (sort_by by_position matched)) as [| x s] eqn:E; [exact H0 |].
  rewrite List.Forall_forall in Hall. apply Hall.
  rewrite <- (sort_by_In by_position). apply in_rev. rewrite E. by left.
Qed.

(** What holds of every matched point, and of the synthesized endpoints,
    holds of every point of [points_with_endpoints]. *)
Lemma points_with_endpoints_Forall (P : Q * Q -> Prop) matched :
  Forall P matched ->
  (has_position 0 matched = false -> P (0, first_gvi_or_zero matched)) ->
  (has_position 1 matched = false -> P (1, last_gvi_or_zero matched)) ->
  Forall P (points_with_endpoints matched).
Proof.
  intros Hm H0 H1. unfold points_with_endpoints.
  apply List.Forall_forall. intros x Hx.
  rewrite sort_by_In in Hx.
  apply in_app_or in Hx as [Hx | Hx].
  { rewrite List.Forall_forall in Hm. by apply Hm. }
  apply in_app_or in Hx as [Hx | Hx].
  - destruct (has_position 0 matched); [destruct Hx |].
    destruct Hx as [<- | []]. by apply H0.
  - destruct (has_position 1 matched); [destruct Hx |].
    destruct Hx as [<- | []]. by apply H1.
Qed.

Lemma points_with_endpoints_has (p : Q) matched :
  p == 0 \/ p == 1 ->
  exists x, In x (points_with_endpoints matched) /\ fst x == p.
Proof.
  intros Hp. unfold points_with_endpoints.
  assert (forall q, has_position q matched = true ->
            exists x, In x matched /\ fst x == q) as Hhas.
  { intros q Hq. unfold has_position in Hq.
    apply existsb_exists in Hq as [x [Hx Hq]].
    exists x. split; [exact Hx | by apply Qeq_bool_iff]. }
  destruct Hp as [Hp | Hp].
  - destruct (has_position 0 matched) eqn:E.
    + destruct (Hhas 0 E) as [x [Hx Hq]]. exists x. split.
      * rewrite sort_by_In. apply in_or_app. by left.
      * by rewrite Hq, Hp.
    + exists (0, first_gvi_or_zero matched). split.
      * rewrite sort_by_In. apply in_or_app. right.
        apply in_or_app. left. by left.
      * simpl. by rewrite Hp.
  - destruct (has_position 1 matched) eqn:E.
    + destruct (Hhas 1 E) as [x [Hx Hq]]. exists x. split.
      * rewrite sort_by_In. apply in_or_app. by left.
      * by rewrite Hq, Hp.
    + exists (1, last_gvi_or_zero matched). split.
      * rewrite sort_by_In. apply in_or_app. right.
        apply in_or_app. right.
        destruct (has_position 0 matched); by left.
      * simpl. by rewrite Hp.
Qed.

(** The points run from position 0 to position 1. *)
Lemma points_with_endpoints_span matched :
  Forall (fun p => 0 <= fst p <= 1) matched ->
  exists a rest,
    points_with_endpoints matched = a :: rest /\
    fst a == 0 /\ fst (List.last rest a) == 1.
Proof.
  intros Hm.
  assert (Forall (fun p => 0 <= fst p <= 1) (points_with_endpoints matched)) as Hall.
  { apply points_with_endpoints_Forall; [exact Hm | |]; intros _; simpl; lra. }
  pose proof (points_sorted
    (matched
     ++ (if has_position 0 matched then [] else [(0, first_gvi_or_zero matched)])
     ++ (if has_position 1 matched then [] else [(1, last_gvi_or_zero matched)])))
    as Hs.
  fold (points_with_endpoints matched) in Hs.
  destruct (points_with_endpoints_has 0 matched ltac:(by left)) as [x0 [Hx0 Hp0]].
  destruct (points_with_endpoints_has 1 matched ltac:(by right)) as [x1 [Hx1 Hp1]].
  destruct (points_with_endpoints matched) as [| a rest] eqn:E; [destruct Hx0 |].
  exists a, rest. split; [reflexivity |].
  rewrite List.Forall_forall in Hall.
  split.
  - apply Qle_antisym.
    + rewrite <- Hp0.
      inversion Hs as [| ? ? Hs' Ha]; subst.
      destruct Hx0 as [<- | Hx0]; [apply Qle_refl |].
      rewrite List.Forall_forall in Ha. by apply Ha.
    + apply (Hall a). by left.
  - apply Qle_antisym.
    + apply (Hall (List.last rest a)).
      apply last_In_cons.
    + rewrite <- Hp1. by apply sorted_le_last.
Qed.

End SegmentIntegral.

Section SegmentValue.
Import DB DGVI.
Local Open Scope Q_scope.

Lemma intervals_cons L a b rest :
  fold_left Qplus
    (List.map (interval_term L) (segment_intervals (a :: b :: rest))) 0
  == interval_term L (a, b)
     + fold_left Qplus
         (List.map (interval_term L) (segment_intervals (b :: rest))) 0.
Proof.
  change (segment_intervals (a :: b :: rest))
    with ((a, b) :: segment_intervals (b :: rest)).
  cbn [List.map fold_left].
  rewrite fold_left_Qplus_acc. ring.
Qed.

Lemma interval_term_bounds L a b :
  0 <= L -> fst a <= fst b ->
  0 <= snd a <= 1 -> 0 <= snd b <= 1 ->
  (fst a - fst b) * L <= interval_term L (a, b) <= 0.
Proof.
  destruct a as [pa va], b as [pb vb]. simpl. intros HL Hp Ha Hb.
  assert (0 <= (pb - pa) * L) as Hw by (apply Qmult_le_0_compat; lra).
  unfold Qdiv. change (/ 2) with (1 # 2).
  assert ((pa - pb) * L == - ((pb - pa) * L)) as -> by ring.
  generalize dependent ((pb - pa) * L). intros w Hw.
  nra.
Qed.

Lemma intervals_bounds L : 0 <= L -> forall rest a,
  StronglySorted (fun a b => fst a <= fst b) (a :: rest) ->
  Forall (fun p => 0 <= snd p <= 1) (a :: rest) ->
  (fst a - fst (List.last rest a)) * L
  <= fold_left Qplus
       (List.map (interval_term L) (segment_intervals (a :: rest))) 0
  <= 0.
Proof.
  intros HL. induction rest as [| b rest IH]; intros a Hs Hv.
  - simpl. lra.
  - rewrite intervals_cons, last_default.
    inversion Hs as [| ? ? Hs' Hab]; subst.
    inversion Hv as [| ? ? Hva Hv']; subst.
    specialize (IH b Hs' Hv').
    assert (fst a <= fst b) as Hp by (by inversion Hab).
    assert (0 <= snd b <= 1) as Hvb by (by inversion Hv').
    pose proof (interval_term_bounds L a b HL Hp Hva Hvb) as Ht.
    split.
    + assert ((fst a - fst (List.last rest b)) * L
              == (fst a - fst b) * L + (fst b - fst (List.last rest b)) * L)
        as -> by ring.
      lra.
    + lra.
Qed.


Lemma segment_dgvi_query_length pg db roadId m :
  segment_dgvi_query pg db roadId m
  == fold_left Qplus
       (List.map (interval_term (edge_length db roadId))
          (segment_intervals
             (points_with_endpoints (matched_gvi_points pg db roadId m)))) 0
  \/ (segment_dgvi_query pg db roadId m == 0 /\ edge_length db roadId == 0).
Proof.
  unfold segment_dgvi_query, edge_length.
  destruct (road_info db roadId) as [| r rs]; [by right |].
  destruct (length r); [by left | by right].
Qed.

Lemma segment_dgvi_query_bounds pg db roadId m :
  0 <= edge_length db roadId ->
  Forall (fun p => (0 <= fst p <= 1) /\ (0 <= snd p <= 1))
         (matched_gvi_points pg db roadId m) ->
  - edge_length db roadId <= segment_dgvi_query pg db roadId m <= 0.
Proof.
  intros HL Hm.
  destruct (segment_dgvi_query_length pg db roadId m) as [-> | [-> H0]];
    [| lra].
  set (matched := matched_gvi_points pg db roadId m) in *.
  assert (Forall (fun p => 0 <= fst p <= 1) matched) as Hpos
    by (eapply Forall_impl; [exact Hm | by intros ? [? ?]]).
  assert (Forall (fun p => 0 <= snd p <= 1) matched) as Hval
    by (eapply Forall_impl; [exact Hm | by intros ? [? ?]]).
  destruct (points_with_endpoints_span matched Hpos) as (a & rest & E & Ha & Hl).
  pose proof (points_sorted
    (matched
     ++ (if has_position 0 matched then [] else [(0, first_gvi_or_zero matched)])
     ++ (if has_position 1 matched then [] else [(1, last_gvi_or_zero matched)])))
    as Hs.
  fold (points_with_endpoints matched) in Hs.
  assert (Forall (fun p => 0 <= snd p <= 1) (points_with_endpoints matched)) as Hv.
  { apply points_with_endpoints_Forall; [exact Hval | |]; intros _; simpl.
    - apply (first_gvi_or_zero_In (fun v => 0 <= v <= 1)); [lra | exact Hval].
    - apply (last_gvi_or_zero_In (fun v => 0 <= v <= 1)); [lra | exact Hval]. }
  rewrite E in *.
  pose proof (intervals_bounds _ HL rest a Hs Hv) as Hb.
  rewrite Ha, Hl in Hb. lra.
Qed.



End SegmentValue.

Section CitySegments.
Import DB DGVI.
Local Open Scope Q_scope.



End CitySegments.

(** ** Accumulation along a route ([calculateWalkingDGVI],
    [calculateRouteDGVI]) *)

Section RouteAccumulation.
Import DB DGVI Route RouteDGVI.
Local Open Scope Q_scope.

Variable pg : PostGIS.
Variable solve : PathSolver.Dijkstra.
Variable db : Database.
Variable m : string.

Lemma walking_fold (l : list Z) : forall a,
  fold_left (fun totalDGVI roadId =>
               totalDGVI + calculateSegmentDGVI pg db roadId m) l a
  == a + fold_left (fun totalDGVI roadId =>
                      totalDGVI + calculateSegmentDGVI pg db roadId m) l 0.
Proof.
  induction l as [| x l IH]; intros a; simpl; [ring |].
  rewrite (IH (a + _)), (IH (0 + _)). ring.
Qed.

Lemma calculateWalkingDGVI_fold (l : list Z) :
  calculateWalkingDGVI pg db (Some l) m
  = fold_left (fun totalDGVI roadId =>
                 totalDGVI + calculateSegmentDGVI pg db roadId m) l 0.
Proof. by destruct l. Qed.

Lemma calculateWalkingDGVI_cons x (l : list Z) :
  calculateWalkingDGVI pg db (Some (x :: l)) m
  == calculateSegmentDGVI pg db x m + calculateWalkingDGVI pg db (Some l) m.
Proof.
  rewrite !calculateWalkingDGVI_fold. simpl. rewrite walking_fold. ring.
Qed.


Lemma calculateRouteDGVI_fold (segs : list Segment) : forall acc,
  fold_left (fun acc s =>
               let '(d, s') := segment_dgvi pg solve db m s in
               (fst acc + d, snd acc ++ [s']))
            segs acc
  = (fold_left (fun t s => t + fst (segment_dgvi pg solve db m s)) segs (fst acc),
     snd acc ++ List.map (fun s => snd (segment_dgvi pg solve db m s)) segs).
Proof.
  induction segs as [| s segs IH]; intros [t out]; simpl.
  - by rewrite app_nil_r.
  - rewrite IH. destruct (segment_dgvi pg solve db m s) as [d s'] eqn:E.
    simpl. by rewrite <- app_assoc.
Qed.

Lemma route_total_fold (segs : list Segment) : forall a,
  fold_left (fun t s => t + fst (segment_dgvi pg solve db m s)) segs a
  == a + fold_left (fun t s => t + fst (segment_dgvi pg solve db m s)) segs 0.
Proof.
  induction segs as [| x l IH]; intros a; simpl; [ring |].
  rewrite (IH (a + _)), (IH (0 + _)). ring.
Qed.

Lemma segment_dgvi_ride r : fst (segment_dgvi pg solve db m (BusRide r)) = 0.
Proof.
  simpl. destruct (JS.truthy_id (br_startStopId r) && JS.truthy_id (br_endStopId r));
    [| reflexivity].
  by destruct (br_startStopId r), (br_endStopId r).
Qed.

Lemma segment_dgvi_kind s :
  type (snd (segment_dgvi pg solve db m s)) = type s /\
  duration (snd (segment_dgvi pg solve db m s)) = duration s /\
  roadIds (snd (segment_dgvi pg solve db m s)) = roadIds s /\
  match s with
  | BusRide _ => True
  | _ => snd (segment_dgvi pg solve db m s) = s
  end.
Proof.
  destruct s as [w | b | r]; simpl; [done | done |].
  destruct (JS.truthy_id (br_startStopId r) && JS.truthy_id (br_endStopId r));
    [| done].
  by destruct (br_startStopId r), (br_endStopId r).
Qed.

(** X4: bus rides never count towards the DGVI of a route: the total is
    the total of the route without its bus-ride segments.  The call keeps
    the number, order, types, durations and edge lists of the segments, and
    leaves walking and waiting segments untouched. *)
Theorem calculateRouteDGVI_ignores_bus_rides (segs : list Segment) :
  fst (calculateRouteDGVI pg solve db segs m)
  == fst (calculateRouteDGVI pg solve db
            (List.filter (fun s => match s with BusRide _ => false | _ => true end)
                         segs) m) /\
  List.map type (snd (calculateRouteDGVI pg solve db segs m)) = List.map type segs /\
  List.map duration (snd (calculateRouteDGVI pg solve db segs m))
  = List.map duration segs /\
  List.map roadIds (snd (calculateRouteDGVI pg solve db segs m))
  = List.map roadIds segs /\
  Forall2 (fun s s' => match s with BusRide _ => True | _ => s' = s end)
          segs (snd (calculateRouteDGVI pg solve db segs m)).
Proof.
  unfold calculateRouteDGVI. rewrite !calculateRouteDGVI_fold.
  cbn [fst snd app].
  split; [| split; [| split; [| split]]].
  - induction segs as [| s segs IH]; [reflexivity |].
    cbn [List.filter fold_left].
    destruct s as [w | b | r].
    + cbn [fold_left].
      rewrite route_total_fold, (route_total_fold (List.filter _ segs)), IH.
      reflexivity.
    + cbn [fold_left].
      rewrite route_total_fold, (route_total_fold (List.filter _ segs)), IH.
      reflexivity.
    + rewrite segment_dgvi_ride, route_total_fold, IH. ring.
  - rewrite List.map_map. apply List.map_ext. intros s.
    apply segment_dgvi_kind.
  - rewrite List.map_map. apply List.map_ext. intros s.
    apply segment_dgvi_kind.
  - rewrite List.map_map. apply List.map_ext. intros s.
    apply segment_dgvi_kind.
  - induction segs as [| s segs IH]; simpl; constructor; [| exact IH].
    pose proof (segment_dgvi_kind s) as (_ & _ & _ & H).
    by destruct s.
Qed.

End RouteAccumulation.

Section SaneData.
Import DB DGVI Route RouteDGVI.
Local Open Scope Q_scope.

Variable pg : PostGIS.
Variable solve : PathSolver.Dijkstra.
Variable db : Database.
Variable m : string.

Hypothesis lengths_nonnegative :
  Forall (fun r => match length r with Some l => 0 <= l | None => True end)
         (stockholm_osm db).
Hypothesis gvi_in_unit_interval :
  Forall (fun g => match gvi g with Some v => 0 <= v <= 1 | None => True end)
         (gvi_points db).
Hypothesis positions_in_unit_interval :
  Forall (fun r =>
    Forall (fun g =>
      within_buffer_1m pg (geom r) (geometry g) = true ->
      0 <= line_locate_point pg (geom r) (geometry g) <= 1)
      (gvi_points db))
    (stockholm_osm db).

Lemma road_info_In r roadId : In r (road_info db roadId) -> In r (stockholm_osm db).
Proof. unfold road_info. intros H. by apply filter_In in H as [H _]. Qed.

Lemma edge_length_nonnegative roadId : 0 <= edge_length db roadId.
Proof.
  unfold edge_length.
  destruct (road_info db roadId) as [| r rs] eqn:E; [lra |].
  assert (In r (stockholm_osm db)) as Hr
    by (apply (road_info_In r roadId); rewrite E; by left).
  rewrite List.Forall_forall in lengths_nonnegative.
  specialize (lengths_nonnegative r Hr).
  destruct (length r); [exact lengths_nonnegative | lra].
Qed.

Lemma matched_gvi_points_sane roadId :
  Forall (fun p => (0 <= fst p <= 1) /\ (0 <= snd p <= 1))
         (matched_gvi_points pg db roadId m).
Proof.
  apply List.Forall_forall. intros p Hp. unfold matched_gvi_points in Hp.
  apply in_flat_map in Hp as [r [Hr Hp]].
  apply in_flat_map in Hp as [g [Hg Hp]].
  apply road_info_In in Hr.
  rewrite List.Forall_forall in gvi_in_unit_interval, positions_in_unit_interval.
  specialize (gvi_in_unit_interval g Hg).
  specialize (positions_in_unit_interval r Hr).
  rewrite List.Forall_forall in positions_in_unit_interval.
  specialize (positions_in_unit_interval g Hg).
  destruct (gvi g) as [v |]; [| destruct Hp].
  destruct (within_buffer_1m pg (geom r) (geometry g)); [| destruct Hp].
  destruct (String.eqb (month g) m); [| destruct Hp].
  destruct Hp as [<- | []]. simpl. split; [by apply positions_in_unit_interval | exact gvi_in_unit_interval].
Qed.

Lemma calculateSegmentDGVI_nonpositive roadId :
  calculateSegmentDGVI pg db roadId m <= 0.
Proof.
  unfold calculateSegmentDGVI. rewrite or_zero_eq.
  apply segment_dgvi_query_bounds;
    [apply edge_length_nonnegative | apply matched_gvi_points_sane].
Qed.

Lemma calculateWalkingDGVI_nonpositive (l : list Z) :
  calculateWalkingDGVI pg db (Some l) m <= 0.
Proof.
  induction l as [| x l IH]; [apply Qle_refl |].
  rewrite calculateWalkingDGVI_cons.
  pose proof (calculateSegmentDGVI_nonpositive x). lra.
Qed.

Lemma sum_le_count (vs : list Q) :
  Forall (fun v => v <= 1) vs ->
  fold_left Qplus vs 0 <= inject_Z (Z.of_nat (List.length vs)).
Proof.
  induction 1 as [| v vs Hv _ IH]; [apply Qle_refl |].
  cbn [fold_left List.length].
  rewrite fold_left_Qplus_acc, Nat2Z.inj_succ, <- Z.add_1_l, inject_Z_plus.
  change (inject_Z 1) with 1. lra.
Qed.

Lemma avg_gvi_le_1 r a : avg_gvi pg db r m = Some a -> a <= 1.
Proof.
  unfold avg_gvi.
  set (vs := omap _ (gvi_points db)).
  assert (Forall (fun v => v <= 1) vs) as Hvs.
  { apply List.Forall_forall. intros v Hv.
    apply list_elem_of_In in Hv. apply list_elem_of_omap in Hv as [g [Hg Hv]].
    apply list_elem_of_In in Hg.
    rewrite List.Forall_forall in gvi_in_unit_interval.
    specialize (gvi_in_unit_interval g Hg).
    destruct (within_buffer_1m pg (geom r) (geometry g) && String.eqb (month g) m);
      [| discriminate].
    rewrite Hv in gvi_in_unit_interval. lra. }
  destruct vs as [| v vs'] eqn:E; [discriminate |].
  intros [= <-].
  apply Qle_shift_div_r.
  - change 0 with (inject_Z 0). rewrite <- Zlt_Qlt. simpl List.length. lia.
  - rewrite Qmult_1_l. exact (sum_le_count (v :: vs') Hvs).
Qed.

Lemma waiting_road_dgvi_nonpositive roadId :
  waiting_road_dgvi pg db roadId m <= 0.
Proof.
  unfold waiting_road_dgvi.
  destruct (road_info db roadId) as [| r rs] eqn:E; [lra |].
  assert (In r (stockholm_osm db)) as Hr
    by (apply (road_info_In r roadId); rewrite E; by left).
  rewrite List.Forall_forall in lengths_nonnegative.
  specialize (lengths_nonnegative r Hr).
  destruct (avg_gvi pg db r m) as [a |] eqn:Ea; [| lra].
  apply avg_gvi_le_1 in Ea.
  destruct (length r) as [len |]; [| lra].
  assert (0 <= len * (1 - a)) by (apply Qmult_le_0_compat; lra).
  assert (len * a - len == - (len * (1 - a))) as -> by ring.
  lra.
Qed.

Lemma sum_nonpositive (l : list Q) :
  Forall (fun v => v <= 0) l -> fold_left Qplus l 0 <= 0.
Proof.
  induction 1 as [| v vs Hv _ IH]; [apply Qle_refl |].
  cbn [fold_left]. rewrite fold_left_Qplus_acc. lra.
Qed.

Lemma calculateWaitingDGVI_nonpositive stopGeom :
  calculateWaitingDGVI pg db stopGeom m <= 0.
Proof.
  unfold calculateWaitingDGVI.
  destruct (lon stopGeom) as [x |]; [| lra].
  destruct (lat stopGeom) as [y |]; [| lra].
  rewrite or_zero_eq. apply sum_nonpositive.
  apply List.Forall_map, List.Forall_forall. intros r _.
  apply waiting_road_dgvi_nonpositive.
Qed.

(** X5: on sane data (no negative edge length, every green view index in
    [0, 1], every sample of an edge located at a fraction in [0, 1] of it)
    the DGVI of a walking path, of a waiting area and of a whole route is
    never positive. *)
Theorem calculateRouteDGVI_nonpositive (segs : list Segment) (l : list Z)
    (stopGeom : LatLon) :
  calculateWalkingDGVI pg db (Some l) m <= 0 /\
  calculateWaitingDGVI pg db stopGeom m <= 0 /\
  fst (calculateRouteDGVI pg solve db segs m) <= 0.
Proof.
  split; [apply calculateWalkingDGVI_nonpositive |].
  split; [apply calculateWaitingDGVI_nonpositive |].
  unfold calculateRouteDGVI. rewrite calculateRouteDGVI_fold. cbn [fst].
  induction segs as [| s segs' IH]; [apply Qle_refl |].
  cbn [fold_left]. rewrite route_total_fold.
  assert (fst (segment_dgvi pg solve db m s) <= 0) as Hs.
  { destruct s as [w | b | r].
    - cbn [segment_dgvi fst]. destruct (w_roadIds w) as [| x xs]; [apply Qle_refl |].
      exact (calculateWalkingDGVI_nonpositive (x :: xs)).
    - simpl. apply calculateWaitingDGVI_nonpositive.
    - rewrite segment_dgvi_ride. apply Qle_refl. }
  lra.
Qed.

End SaneData.

Section CitySaneData.
Import DB DGVI Route RouteDGVI.
Local Open Scope Q_scope.

(** The walk along streets 3 and 4 of the example city. *)
Lemma calculateRouteDGVI_nonpositive_witness :
  calculateWalkingDGVI City.pg City.db0 (Some [3; 4]%Z) "2025-08" <= 0.
Proof.
  refine (proj1 (calculateRouteDGVI_nonpositive City.pg
                   PathSolver.reference_dijkstra City.db0 "2025-08" _ _ _
                   [] [3; 4]%Z {| lat := Some 0; lon := Some 0 |})).
  - vm_compute. repeat constructor; discriminate.
  - vm_compute. repeat constructor; discriminate.
  - vm_compute. repeat (constructor || intro); try discriminate.
Defined.

End CitySaneData.

(** ** The rebuild of a month ([updateAllRoadDGVI]): what it writes and
    what it leaves alone *)

Section RebuildInvariants.
Import DB DGVI.
Local Open Scope Q_scope.

Variable pg : PostGIS.
Variable db : Database.
Variable m : string.

Lemma lookup_dgvi_In k mo t d :
  lookup_dgvi k mo t = Some d ->
  exists r, In r t /\ road_id r = k /\ dgvi_month r = mo /\ dgvi r = d.
Proof.
  induction t as [| r t IH]; simpl; [discriminate |].
  destruct (same_key k mo r) eqn:E.
  - intros [= <-]. exists r. unfold same_key in E.
    apply andb_true_iff in E as [E1 E2].
    apply Z.eqb_eq in E1. apply String.eqb_eq in E2. auto.
  - intros H. destruct (IH H) as (r' & ? & ?). exists r'. auto.
Qed.

(** X6: after a rebuild every edge of the road table has a row for the
    month, holding the DGVI of the edge and a normalized value. *)
Theorem updateAllRoadDGVI_covers_every_road (road : Road) :
  In road (stockholm_osm db) ->
  exists row,
    In row (road_dgvi_table (fst (updateAllRoadDGVI pg db m))) /\
    road_id row = id road /\ dgvi_month row = m /\
    dgvi row = calculateSegmentDGVI pg db (id road) m /\
    is_Some (dgvi_normalized row).
Proof.
  intros Hroad. rewrite updateAllRoadDGVI_table.
  set (T1 := table (fold_left (process_road pg db m) (roads_query db) _)).
  assert (lookup_dgvi (id road) m (normalize_month m T1)
          = Some (calculateSegmentDGVI pg db (id road) m)) as Hl.
  { rewrite lookup_normalize. apply pass_stores.
    unfold roads_query. rewrite sort_by_In. by apply List.in_map. }
  destruct (lookup_dgvi_In _ _ _ _ Hl) as (row & Hin & Hid & Hmo & Hd).
  exists row. repeat (split; [assumption |]).
  destruct (normalize_month_row m T1 row Hin Hmo) as (lo & hi & _ & _ & _ & Hn).
  rewrite Hn. by eexists.
Qed.

Lemma upsert_other_months k d n t :
  List.filter (fun r => negb (String.eqb (dgvi_month r) m)) (upsert k m d n t)
  = List.filter (fun r => negb (String.eqb (dgvi_month r) m)) t.
Proof.
  induction t as [| r t IH]; simpl.
  - by rewrite String.eqb_refl.
  - destruct (same_key k m r) eqn:E; simpl.
    + unfold same_key in E. apply andb_true_iff in E as [_ E]. by rewrite E.
    + by rewrite IH.
Qed.

Lemma normalize_other_months t :
  List.filter (fun r => negb (String.eqb (dgvi_month r) m)) (normalize_month m t)
  = List.filter (fun r => negb (String.eqb (dgvi_month r) m)) t.
Proof.
  unfold normalize_month.
  destruct (sql_min (month_values m t)), (sql_max (month_values m t)); try done.
  induction t as [| r t IH]; simpl; [done |].
  destruct (String.eqb (dgvi_month r) m) eqn:E; simpl; rewrite E; simpl.
  - exact IH.
  - by rewrite IH.
Qed.

Lemma upsert_keys k d n t :
  List.map (fun r => (road_id r, dgvi_month r)) (upsert k m d n t)
  = List.map (fun r => (road_id r, dgvi_month r)) t
  \/ (List.map (fun r => (road_id r, dgvi_month r)) (upsert k m d n t)
      = List.map (fun r => (road_id r, dgvi_month r)) t ++ [(k, m)]
      /\ ~ In (k, m) (List.map (fun r => (road_id r, dgvi_month r)) t)).
Proof.
  induction t as [| r t IH]; simpl.
  - right. split; [done | tauto].
  - destruct (same_key k m r) eqn:E; simpl.
    + by left.
    + destruct IH as [-> | [-> Hnot]]; [by left |].
      right. split; [done |].
      intros [[= H1 H2] | H]; [| by apply Hnot].
      unfold same_key in E. rewrite H1, H2, Z.eqb_refl, String.eqb_refl in E.
      discriminate.
Qed.

Lemma normalize_keys t :
  List.map (fun r => (road_id r, dgvi_month r)) (normalize_month m t)
  = List.map (fun r => (road_id r, dgvi_month r)) t.
Proof.
  unfold normalize_month.
  destruct (sql_min (month_values m t)), (sql_max (month_values m t)); try done.
  rewrite List.map_map. apply List.map_ext. intros r.
  by destruct (String.eqb (dgvi_month r) m).
Qed.

Lemma pass_invariants ids : forall st,
  let st' := fold_left (process_road pg db m) ids st in
  List.filter (fun r => negb (String.eqb (dgvi_month r) m)) (table st')
  = List.filter (fun r => negb (String.eqb (dgvi_month r) m)) (table st) /\
  (List.NoDup (List.map (fun r => (road_id r, dgvi_month r)) (table st)) ->
   List.NoDup (List.map (fun r => (road_id r, dgvi_month r)) (table st'))) /\
  processed st' = (processed st + List.length ids)%nat /\
  successful st'
  = (successful st
     + List.length
         (List.filter (fun k => negb (Qeq_bool (calculateSegmentDGVI pg db k m) 0))
                      ids))%nat.
Proof.
  induction ids as [| k ids IH]; intros st; cbn zeta.
  - simpl. repeat split; [done | lia | lia].
  - cbn [fold_left]. destruct (IH (process_road pg db m st k)) as (H1 & H2 & H3 & H4).
    rewrite H1, H3, H4. cbn [process_road table processed successful].
    rewrite upsert_other_months.
    split; [done |]. split; [| split].
    + intros Hnd. apply H2. cbn [process_road table].
      destruct (upsert_keys k (calculateSegmentDGVI pg db k m) (now st) (table st))
        as [-> | [-> Hnot]]; [exact Hnd |].
      apply NoDup_ListNoDup. apply (proj2 (NoDup_app _ _)).
      split; [by apply NoDup_ListNoDup |]. split.
      * intros x Hx Hx'. apply list_elem_of_In in Hx.
        apply list_elem_of_singleton in Hx'. by subst x.
      * apply NoDup_singleton.
    + cbn [List.length]. lia.
    + cbn [List.filter].
      destruct (Qeq_bool (calculateSegmentDGVI pg db k m) 0); simpl; lia.
Qed.

(** X7: a rebuild of month [m] leaves the rows of every other month
    exactly as they were, and keeps the primary key [(road_id, month)] of
    the DGVI table free of duplicates. *)
Theorem updateAllRoadDGVI_other_months_untouched :
  let t0 := road_dgvi_table db in
  let t1 := road_dgvi_table (fst (updateAllRoadDGVI pg db m)) in
  List.filter (fun r => negb (String.eqb (dgvi_month r) m)) t1
  = List.filter (fun r => negb (String.eqb (dgvi_month r) m)) t0 /\
  (List.NoDup (List.map (fun r => (road_id r, dgvi_month r)) t0) ->
   List.NoDup (List.map (fun r => (road_id r, dgvi_month r)) t1)).
Proof.
  cbn zeta. rewrite updateAllRoadDGVI_table.
  rewrite normalize_other_months, normalize_keys.
  set (st0 := {| table := road_dgvi_table db; now := clock db;
                 processed := O; successful := O |}).
  destruct (pass_invariants (roads_query db) st0) as (H1 & H2 & _).
  split; [exact H1 | exact H2].
Qed.

(** X8: the statistics a rebuild reports: every edge of the road table is
    processed once, and the "successful" ones are exactly the edges whose
    DGVI is not 0. *)
Theorem updateAllRoadDGVI_statistics :
  let stats := snd (updateAllRoadDGVI pg db m) in
  totalRoads stats = List.length (stockholm_osm db) /\
  stat_processed stats = totalRoads stats /\
  stat_successful stats
  = List.length
      (List.filter
         (fun r => negb (Qeq_bool (calculateSegmentDGVI pg db (id r) m) 0))
         (stockholm_osm db)) /\
  (stat_successful stats <= stat_processed stats)%nat /\
  stat_month stats = m.
Proof.
  cbn zeta. unfold updateAllRoadDGVI. cbn [snd totalRoads stat_processed
    stat_successful stat_month].
  rewrite fold_batches.
  set (st0 := {| table := road_dgvi_table db; now := clock db;
                 processed := O; successful := O |}).
  destruct (pass_invariants (roads_query db) st0) as (_ & _ & H3 & H4).
  cbn zeta in H3, H4. rewrite H3, H4. cbn [processed successful st0].
  assert (List.length (roads_query db) = List.length (stockholm_osm db)) as Hlen.
  { unfold roads_query.
    rewrite (Permutation_length (sort_by_Permutation Z.leb _)).
    apply List.length_map. }
  assert (List.length
            (List.filter
               (fun k => negb (Qeq_bool (calculateSegmentDGVI pg db k m) 0))
               (roads_query db))
          = List.length
              (List.filter
                 (fun r => negb (Qeq_bool (calculateSegmentDGVI pg db (id r) m) 0))
                 (stockholm_osm db))) as Hcount.
  { unfold roads_query.
    assert (forall (f : Z -> bool) (l l' : list Z), l ≡ₚ l' ->
              List.length (List.filter f l) = List.length (List.filter f l')) as Hperm.
    { intros f l l' Hp. induction Hp as [| x ? ? _ IH | x y ? | ? ? ? _ IH1 _ IH2];
        simpl; [done | | | congruence].
      - destruct (f x); simpl; congruence.
      - destruct (f x), (f y); reflexivity. }
    rewrite (Hperm _ _ _ (sort_by_Permutation Z.leb _)). clear.
    induction (stockholm_osm db) as [| r rs IH]; simpl; [done |].
    destruct (Qeq_bool (calculateSegmentDGVI pg db (id r) m) 0); simpl;
      by rewrite IH. }
  rewrite Hlen, Hcount. repeat split; try lia.
  simpl. rewrite <- Hlen.
  etransitivity; [apply List.filter_length_le |]. lia.
Qed.

End RebuildInvariants.

Section CityRebuild.
Import DB DGVI.
Local Open Scope Q_scope.

(** Street 4 of the example city after the rebuild of August 2025. *)
Lemma updateAllRoadDGVI_covers_every_road_witness :
  exists row,
    In row (road_dgvi_table (fst (updateAllRoadDGVI City.pg City.db0 "2025-08"))) /\
    road_id row = 4%Z /\ dgvi_month row = "2025-08" /\
    dgvi row = calculateSegmentDGVI City.pg City.db0 4 "2025-08" /\
    is_Some (dgvi_normalized row).
Proof.
  apply (updateAllRoadDGVI_covers_every_road City.pg City.db0 "2025-08"
           (City.street 4 (0, 10) (10, 10) 1200 4 3)).
  simpl. tauto.
Defined.

End CityRebuild.

(** ** Months of GVI data *)

Section MonthsOfData.
Import DB Months.

Lemma distinct_In (l : list string) x :
  In x (Engine.distinct String.eqb l) <-> In x l.
Proof.
  induction l as [| y l IH]; simpl; [done |].
  rewrite filter_In, IH. split.
  - intros [-> | [H _]]; auto.
  - intros [-> | H]; [by left |].
    destruct (String.eqb y x) eqn:E.
    + apply String.eqb_eq in E. by left.
    + right. split; [exact H | reflexivity].
Qed.

Lemma distinct_NoDup (l : list string) :
  List.NoDup (Engine.distinct String.eqb l).
Proof.
  induction l as [| y l IH]; simpl; constructor.
  - rewrite filter_In, String.eqb_refl. intros [_ H]. discriminate.
  - by apply List.NoDup_filter.
Qed.

Lemma valued_months_In db mo :
  In mo (valued_months db)
  <-> exists g, In g (gvi_points db) /\ month g = mo /\ is_Some (gvi g).
Proof.
  unfold valued_months. rewrite in_map_iff. split.
  - intros (g & Hm & Hg). apply filter_In in Hg as [Hg Hv].
    exists g. repeat split; [done | done |].
    destruct (gvi g); [by eexists | discriminate].
  - intros (g & Hg & Hm & [v Hv]). exists g. split; [done |].
    apply filter_In. split; [done |]. by rewrite Hv.
Qed.

Lemma getAvailableMonths_In db mo :
  In mo (getAvailableMonths db) <-> In mo (valued_months db).
Proof. unfold getAvailableMonths. by rewrite sort_by_In, distinct_In. Qed.

Lemma includes_In l mo : includes l mo = true <-> In mo l.
Proof.
  unfold includes. rewrite existsb_exists. split.
  - intros (x & Hx & E). apply String.eqb_eq in E. by subst.
  - intros H. exists mo. split; [done | apply String.eqb_refl].
Qed.

(** X9: [validateMonth] accepts exactly the strings of the shape
    [dddd-dd] for which some GVI point carries a value; the engine's
    [validateGVIDataMonth] checks the data only, so it accepts every month
    [validateMonth] accepts; and the list of available months has no
    duplicates. *)
Theorem validateMonth_accepts db mo :
  (isValid (validateMonth db mo) = true
   <-> month_format mo = true /\
       exists g, In g (gvi_points db) /\ month g = mo /\ is_Some (gvi g)) /\
  (validateGVIDataMonth db mo = true
   <-> exists g, In g (gvi_points db) /\ month g = mo /\ is_Some (gvi g)) /\
  (month_format mo = true -> String.length mo = 7%nat) /\
  List.NoDup (getAvailableMonths db).
Proof.
  assert (validateGVIDataMonth db mo = true
          <-> exists g, In g (gvi_points db) /\ month g = mo /\ is_Some (gvi g))
    as Hdata.
  { unfold validateGVIDataMonth.
    by rewrite includes_In, getAvailableMonths_In, valued_months_In. }
  split; [| split; [exact Hdata | split]].
  - rewrite <- Hdata. unfold validateMonth, validateGVIDataMonth.
    destruct (month_format mo); simpl; [| by intuition].
    destruct (includes (getAvailableMonths db) mo); simpl; by intuition.
  - unfold month_format. intros H.
    rewrite <- (string_of_list_ascii_of_string mo).
    destruct (list_ascii_of_string mo) as [| ? [| ? [| ? [| ? [| ? [| ? [| ? [| ? ?]]]]]]]];
      try discriminate.
    reflexivity.
  - unfold getAvailableMonths.
    apply NoDup_ListNoDup.
    rewrite (sort_by_Permutation _ _).
    apply NoDup_ListNoDup, distinct_NoDup.
Qed.

Lemma by_count_then_month_total a b :
  by_count_then_month a b = false -> by_count_then_month b a = true.
Proof.
  unfold by_count_then_month. intros H.
  apply orb_false_iff in H as [H1 H2]. apply Nat.ltb_ge in H1.
  apply orb_true_iff.
  destruct (Nat.ltb_spec (snd a) (snd b)) as [| Hge]; [by left | right].
  assert (snd a = snd b) as E by lia.
  rewrite E, Nat.eqb_refl in *. simpl in *.
  destruct (String.leb_total (fst a) (fst b)) as [H | H]; [exact H | congruence].
Qed.

Lemma filter_eqb_absent (l : list string) mo :
  ~ In mo l -> List.filter (String.eqb mo) l = [].
Proof.
  induction l as [| y l IH]; simpl; [done |]. intros Hmo.
  destruct (String.eqb mo y) eqn:Ey.
  - apply String.eqb_eq in Ey. subst. exfalso. apply Hmo. by left.
  - apply IH. intros H. apply Hmo. by right.
Qed.

(** X10: when some GVI point has a value and no valued point has an empty
    month, [getRecommendedMonth] returns an available month, and no month
    has more valued points than it. *)
Theorem getRecommendedMonth_most_populated db :
  valued_months db <> [] ->
  ~ In "" (valued_months db) ->
  In (getRecommendedMonth db) (getAvailableMonths db) /\
  validateGVIDataMonth db (getRecommendedMonth db) = true /\
  forall mo, (point_count db mo <= point_count db (getRecommendedMonth db))%nat.
Proof.
  intros Hne Hnamed.
  unfold getRecommendedMonth.
  set (groups := List.map (fun mo => (mo, point_count db mo))
                          (Engine.distinct String.eqb (valued_months db))).
  pose proof (sort_by_Sorted by_count_then_month by_count_then_month_total groups)
    as Hsorted.
  assert (forall row, In row (sort_by by_count_then_month groups) ->
            In (fst row) (valued_months db) /\ snd row = point_count db (fst row))
    as Hrows.
  { intros row Hrow. rewrite sort_by_In in Hrow. unfold groups in Hrow.
    apply in_map_iff in Hrow as (mo & <- & Hmo). split; [| done].
    by apply distinct_In. }
  assert (forall mo, In mo (valued_months db) ->
            In (mo, point_count db mo) (sort_by by_count_then_month groups))
    as Hall.
  { intros mo Hmo. rewrite sort_by_In. unfold groups.
    apply in_map_iff. exists mo. split; [done |]. by apply distinct_In. }
  destruct (sort_by by_count_then_month groups) as [| row rest] eqn:E.
  { exfalso. destruct (valued_months db) as [| mo l]; [done |].
    destruct (Hall mo ltac:(by left)). }
  destruct (Hrows row ltac:(by left)) as [Hin Hcount].
  assert (String.eqb (fst row) "" = false) as ->.
  { apply String.eqb_neq. intros Hempty. apply Hnamed. by rewrite <- Hempty. }
  assert (In (fst row) (getAvailableMonths db)) as Havail
    by (by apply getAvailableMonths_In).
  split; [exact Havail |]. split; [by apply includes_In |].
  intros mo.
  destruct (in_dec string_dec mo (valued_months db)) as [Hmo | Hmo].
  - assert (Sorted (fun a b : string * nat => (snd b <= snd a)%nat) (row :: rest))
      as Hcounts.
    { clear -Hsorted.
      induction Hsorted as [| a s Hs IH Ha]; constructor; [exact IH |].
      destruct Ha as [| b s' Hab]; constructor.
      unfold by_count_then_month in Hab.
      apply orb_true_iff in Hab as [Hab | Hab].
      - apply Nat.ltb_lt in Hab. lia.
      - apply andb_true_iff in Hab as [Hab _]. apply Nat.eqb_eq in Hab. lia. }
    apply Sorted_StronglySorted in Hcounts; [| intros a b c; simpl; lia].
    inversion Hcounts as [| ? ? _ Hhead]; subst.
    destruct (Hall mo Hmo) as [-> | Hrest]; [done |].
    rewrite List.Forall_forall in Hhead. specialize (Hhead _ Hrest).
    rewrite <- Hcount. exact Hhead.
  - unfold point_count at 1. rewrite (filter_eqb_absent _ _ Hmo). simpl. lia.
Qed.

End MonthsOfData.

Section CityMonths.
Import DB Months.

(** The example city has five valued samples of August 2025 and one of
    July 2025. *)
Lemma getRecommendedMonth_most_populated_witness :
  In (getRecommendedMonth City.db0) (getAvailableMonths City.db0) /\
  validateGVIDataMonth City.db0 (getRecommendedMonth City.db0) = true /\
  forall mo,
    (point_count City.db0 mo <= point_count City.db0 (getRecommendedMonth City.db0))%nat.
Proof.
  apply (getRecommendedMonth_most_populated City.db0).
  - vm_compute. discriminate.
  - vm_compute. intuition discriminate.
Defined.

Example city_months :
  getAvailableMonths City.db0 = ["2025-08"; "2025-07"] /\
  getRecommendedMonth City.db0 = "2025-08" /\
  validateMonth City.db0 "2025-07" = Valid /\
  validateMonth City.db0 "2025-8" = InvalidFormat /\
  validateMonth City.db0 "2025-09" = NoData ["2025-08"; "2025-07"].
Proof. by vm_compute. Qed.

End CityMonths.

(** ** Validation of route plans *)

Section PlanValidation.
Import Route PlanViews.

Lemma positive_duration_valid (d : JS.number) :
  JS.gt d (JS.Num 0) = true ->
  invalid_duration d = false /\
  negb (JS.truthy d) || JS.le d (JS.Num 0) = false.
Proof.
  destruct d as [| q]; simpl; [discriminate |].
  intros H. apply negb_true_iff in H.
  assert (~ (q <= 0)%Q) as Hq by (rewrite <- Qle_bool_iff; congruence).
  apply Qnot_le_lt in Hq.
  assert (Qeq_bool q 0 = false) as ->.
  { apply not_true_is_false. rewrite Qeq_bool_iff. intros E.
    rewrite E in Hq. by apply Qlt_irrefl in Hq. }
  unfold invalid_duration. simpl.
  assert (Qeq_bool q 0 = false) as ->.
  { apply not_true_is_false. rewrite Qeq_bool_iff. intros E.
    rewrite E in Hq. by apply Qlt_irrefl in Hq. }
  assert (Qle_bool 0 q = true) as -> by (apply Qle_bool_iff; by apply Qlt_le_weak).
  by rewrite H.
Qed.

Lemma nonpositive_duration_invalid (d : JS.number) :
  JS.gt d (JS.Num 0) = false ->
  negb (JS.truthy d) || JS.le d (JS.Num 0) = true.
Proof.
  destruct d as [| q]; simpl; [done |].
  intros H. apply negb_false_iff in H. rewrite H. apply orb_true_r.
Qed.

(** X11: the sequence rules of [validateSegmentSequence] hold of every
    route the three factories build: no two plain walks follow each other,
    and every waiting segment is followed by a bus ride. *)
Theorem factories_respect_sequence_rules
    (stamp : Z) (w : WalkingRouteConfig) (d : DirectBusConfig) (t : TransferConfig) :
  sequence_checks 0 (segments (createWalkingRoute stamp w)) = [] /\
  sequence_checks 0 (segments (createDirectBusRoute stamp d)) = [] /\
  sequence_checks 0 (segments (createTransferRoute stamp t)) = [].
Proof.
  split; [reflexivity |]. split.
  - unfold createDirectBusRoute. cbn [segments new_RoutePlan].
    destruct (JS.gt (walkingToDeparture d) (JS.Num 0)),
             (JS.gt (walkingFromArrival d) (JS.Num 0)); reflexivity.
  - unfold createTransferRoute. cbn [segments new_RoutePlan].
    destruct (JS.gt (walkingToFirst t) (JS.Num 0)),
             (JS.gt (tc_intraSiteWalk t) (JS.Num 0)),
             (JS.gt (walkingFromFinal t) (JS.Num 0)); reflexivity.
Qed.

(** X12: [validate] accepts a walking route exactly when its total
    duration is a number greater than 0, and it rejects every direct and
    every transfer route the factories build: their first waiting segment
    is created with duration 0, which [BaseSegment.validate] reports as
    'Invalid duration'. *)
Theorem validate_rejects_bus_routes
    (stamp : Z) (w : WalkingRouteConfig) (d : DirectBusConfig) (t : TransferConfig) :
  (isValid (validate (createWalkingRoute stamp w)) = true
   <-> JS.gt (wr_totalDuration w) (JS.Num 0) = true) /\
  (exists i, In (InvalidDuration i) (validate (createDirectBusRoute stamp d))) /\
  isValid (validate (createDirectBusRoute stamp d)) = false /\
  (exists i, In (InvalidDuration i) (validate (createTransferRoute stamp t))) /\
  isValid (validate (createTransferRoute stamp t)) = false.
Proof.
  assert (forall errors i, In (InvalidDuration i) errors -> isValid errors = false)
    as Hinvalid by (intros [| e errors] i H; [destruct H | reflexivity]).
  assert (exists i, In (InvalidDuration i) (validate (createDirectBusRoute stamp d)))
    as Hd.
  { unfold validate, createDirectBusRoute. cbn [segments new_RoutePlan totalDuration].
    destruct (JS.gt (walkingToDeparture d) (JS.Num 0)).
    - exists 1%nat. apply in_or_app. right. cbn.
      apply in_or_app. left. apply in_or_app. right. by left.
    - exists 0%nat. apply in_or_app. right. cbn.
      apply in_or_app. left. by left. }
  assert (exists i, In (InvalidDuration i) (validate (createTransferRoute stamp t)))
    as Ht.
  { unfold validate, createTransferRoute. cbn [segments new_RoutePlan totalDuration].
    destruct (JS.gt (walkingToFirst t) (JS.Num 0)).
    - exists 1%nat. apply in_or_app. right. cbn.
      apply in_or_app. left. apply in_or_app. right. by left.
    - exists 0%nat. apply in_or_app. right. cbn.
      apply in_or_app. left. by left. }
  split; [| split; [exact Hd | split; [| split; [exact Ht |]]]].
  - unfold validate, createWalkingRoute, validateSegmentSequence.
    cbn [segments new_RoutePlan totalDuration createWalkingSegment
         segment_checks sequence_checks duration w_duration wc_duration].
    destruct (JS.gt (wr_totalDuration w) (JS.Num 0)) eqn:E.
    + destruct (positive_duration_valid _ E) as [-> ->]. by split.
    + rewrite (nonpositive_duration_invalid _ E). by split.
  - destruct Hd as [i Hi]. by apply (Hinvalid _ i).
  - destruct Ht as [i Hi]. by apply (Hinvalid _ i).
Qed.

End PlanValidation.

(** ** Summary and timeline of a route plan *)

Section PlanSummary.
Import Route PlanViews.

Lemma segmentCounts_fold (k : string) (segs : list Segment) :
  forall counts : gmap string nat,
  default 0%nat
    (fold_left (fun counts s =>
                  <[count_key s := (default 0 (counts !! count_key s) + 1)%nat]> counts)
               segs counts !! k)
  = (default 0 (counts !! k)
     + List.length (List.filter (fun s => String.eqb (count_key s) k) segs))%nat.
Proof.
  induction segs as [| s segs IH]; intros counts; simpl; [lia |].
  rewrite IH. destruct (String.eqb (count_key s) k) eqn:E.
  - apply String.eqb_eq in E. subst k. rewrite lookup_insert_eq. simpl. lia.
  - apply String.eqb_neq in E. by rewrite lookup_insert_ne.
Qed.

Lemma segmentCounts_key (k : string) (segs : list Segment) :
  default 0%nat (segmentCounts segs !! k)
  = List.length (List.filter (fun s => String.eqb (count_key s) k) segs).
Proof. unfold segmentCounts. by rewrite segmentCounts_fold, lookup_empty. Qed.

Lemma count_key_ride s : String.eqb (count_key s) "bus_ride" = is_type bus_ride_t s.
Proof. destruct s as [w | b | r]; [| done | done]. simpl. by destruct (w_subtype w) as [[] |]. Qed.

Lemma count_key_waiting s :
  String.eqb (count_key s) "bus_waiting" = is_type bus_waiting_t s.
Proof. destruct s as [w | b | r]; [| done | done]. simpl. by destruct (w_subtype w) as [[] |]. Qed.

Lemma count_key_intra s :
  String.eqb (count_key s) "walking_intra_site_transfer" = is_intra_site s.
Proof.
  destruct s as [w | b | r]; [| done | done].
  unfold is_intra_site. simpl. by destruct (w_subtype w) as [[] |].
Qed.

Lemma count_key_walking s :
  String.eqb (count_key s) "walking"
  = is_type walking_t s && negb (is_intra_site s).
Proof.
  destruct s as [w | b | r]; [| done | done].
  unfold is_intra_site. simpl. by destruct (w_subtype w) as [[] |].
Qed.

Lemma intra_site_walking s : is_intra_site s = true -> is_type walking_t s = true.
Proof. by destruct s. Qed.

Lemma count_exists {A} (f : A -> bool) (l : list A) :
  negb (List.length (List.filter f l) =? 0)%nat = existsb f l.
Proof.
  induction l as [| x l IH]; simpl; [done |].
  destruct (f x); simpl; [done | exact IH].
Qed.

(** X13: the counts of [getSummary] partition the segments: walking (plain
    or intra-site), bus-ride and waiting segments add up to the number of
    segments, each count is the number of segments of that type, and
    [hasIntraSiteTransfer] holds exactly when some walking segment is an
    intra-site transfer. *)
Theorem getSummary_counts (r : RoutePlan) :
  let s := getSummary r in
  (walkingSegments s + busRideSegments s + waitingSegments s
   = List.length (segments r))%nat /\
  walkingSegments s = List.length (List.filter (is_type walking_t) (segments r)) /\
  busRideSegments s = List.length (List.filter (is_type bus_ride_t) (segments r)) /\
  waitingSegments s = List.length (List.filter (is_type bus_waiting_t) (segments r)) /\
  hasIntraSiteTransfer s = existsb is_intra_site (segments r).
Proof.
  cbn zeta. unfold getSummary.
  cbn [walkingSegments busRideSegments waitingSegments hasIntraSiteTransfer].
  assert (match segmentCounts (segments r) !! "walking_intra_site_transfer" with
          | Some n => negb (n =? 0)%nat
          | None => false
          end
          = negb (default 0%nat
                    (segmentCounts (segments r) !! "walking_intra_site_transfer")
                  =? 0)%nat) as ->
    by (by destruct (segmentCounts (segments r) !! "walking_intra_site_transfer")).
  rewrite !segmentCounts_key.
  rewrite (List.filter_ext _ _ count_key_ride),
          (List.filter_ext _ _ count_key_waiting),
          (List.filter_ext _ _ count_key_intra),
          (List.filter_ext _ _ count_key_walking).
  assert ((List.length
             (List.filter (fun s => is_type walking_t s && negb (is_intra_site s))
                          (segments r))
           + List.length (List.filter is_intra_site (segments r)))%nat
          = List.length (List.filter (is_type walking_t) (segments r))) as Hwalk.
  { induction (segments r) as [| s segs IH]; simpl; [done |].
    destruct (is_intra_site s) eqn:Ei.
    - rewrite (intra_site_walking s Ei). simpl. lia.
    - rewrite andb_true_r. destruct (is_type walking_t s); simpl; lia. }
  rewrite Hwalk. clear Hwalk. split; [| by rewrite count_exists].
  induction (segments r) as [| s segs IH]; simpl; [done |].
  destruct s; simpl; lia.
Qed.

Lemma timing_loop_lookup (segs : list Segment) : forall i0 c k d,
  timing_loop i0 c segs !! k = Some d ->
  exists s, segs !! k = Some s /\
    segmentIndex d = (i0 + k)%nat /\
    startTime d = fold_left (fun acc s => JS.add acc (duration s)) (take k segs) c /\
    endTime d = JS.add (startTime d) (duration s) /\
    td_duration d = duration s /\ td_type d = type s.
Proof.
  induction segs as [| s segs IH]; intros i0 c k d H; [done |].
  destruct k as [| k]; simpl in H.
  - injection H as <-. exists s. simpl. repeat split; try done; lia.
  - destruct (IH _ _ _ _ H) as (s' & Hs & Hi & Hstart & Hend & Hd & Ht).
    exists s'. simpl. repeat split; try done. lia.
Qed.

(** X14: the timeline of [getTimingDetails] tiles the route: one entry per
    segment, in order; the first starts at 0, every entry ends its own
    duration after its start, every entry starts where the previous one
    ended, and the last one ends at the sum of the segment durations. *)
Theorem getTimingDetails_tiles (r : RoutePlan) :
  let details := getTimingDetails r in
  List.length details = List.length (segments r) /\
  (forall i d, details !! i = Some d ->
     exists s, segments r !! i = Some s /\
       segmentIndex d = i /\ td_type d = type s /\ td_duration d = duration s /\
       startTime d = sum_durations (take i (segments r)) /\
       endTime d = JS.add (startTime d) (td_duration d)) /\
  (forall d, details !! 0%nat = Some d -> startTime d = JS.Num 0) /\
  (forall i d d', details !! i = Some d -> details !! S i = Some d' ->
     startTime d' = endTime d) /\
  (forall d, last details = Some d -> endTime d = sum_durations (segments r)).
Proof.
  cbn zeta. unfold getTimingDetails.
  assert (forall segs i0 c, List.length (timing_loop i0 c segs) = List.length segs)
    as Hlen.
  { induction segs as [| s segs IH]; intros i0 c; simpl; [done |]. by rewrite IH. }
  assert (forall i d, timing_loop 0 (JS.Num 0) (segments r) !! i = Some d ->
     exists s, segments r !! i = Some s /\
       segmentIndex d = i /\ td_type d = type s /\ td_duration d = duration s /\
       startTime d = sum_durations (take i (segments r)) /\
       endTime d = JS.add (startTime d) (td_duration d)) as Hentry.
  { intros i d H.
    destruct (timing_loop_lookup _ _ _ _ _ H) as (s & Hs & Hi & Hstart & Hend & Hd & Ht).
    exists s. rewrite Hd. by repeat split. }
  assert (forall i s, segments r !! i = Some s ->
            sum_durations (take (S i) (segments r))
            = JS.add (sum_durations (take i (segments r))) (duration s)) as Hstep.
  { intros i s Hs. rewrite (take_S_r _ _ _ Hs). unfold sum_durations.
    by rewrite fold_left_app. }
  split; [apply Hlen |]. split; [exact Hentry |]. split; [| split].
  - intros d H. by destruct (Hentry _ _ H) as (s & _ & _ & _ & _ & -> & _).
  - intros i d d' H H'.
    destruct (Hentry _ _ H) as (s & Hs & _ & _ & Hd & Hstart & ->).
    destruct (Hentry _ _ H') as (s' & _ & _ & _ & _ & -> & _).
    by rewrite (Hstep _ _ Hs), Hstart, Hd.
  - intros d H. rewrite last_lookup, Hlen in H.
    destruct (Hentry _ _ H) as (s & Hs & _ & _ & Hd & Hstart & ->).
    rewrite Hstart, Hd, <- (Hstep _ _ Hs). f_equal.
    apply take_ge. apply lookup_lt_Some in Hs. lia.
Qed.

End PlanSummary.

(** ** Durations as text ([_formatDuration]) *)

Section FormatDuration.
Import PlanViews.
Local Open Scope Q_scope.







End FormatDuration.

(** ** Nearby sites ([findNearbySites]) *)

Section NearbySites.
Import DB Engine.
Local Open Scope Q_scope.

Lemma Sorted_firstn {A} (R : A -> A -> Prop) (l : list A) : forall n,
  Sorted R l -> Sorted R (firstn n l).
Proof.
  induction l as [| x l IH]; intros n Hs; [by destruct n |].
  destruct n as [| n]; [constructor |]. simpl.
  inversion Hs as [| ? ? Hs' Hx]; subst.
  constructor; [by apply IH |].
  destruct Hx as [| y l' Hxy]; [destruct n; constructor |].
  destruct n; constructor. exact Hxy.
Qed.

Lemma firstn_subset {A} (l : list A) : forall n x, In x (firstn n l) -> In x l.
Proof.
  induction l as [| y l IH]; intros [| n] x H; simpl in *; try done.
  destruct H as [-> | H]; [by left | right; by eapply IH].
Qed.

Lemma distinct_subset {A} (same : A -> A -> bool) (l : list A) x :
  In x (distinct same l) -> In x l.
Proof.
  induction l as [| y l IH]; simpl; [done |].
  intros [-> | H]; [by left |].
  right. apply IH. by apply filter_In in H as [H _].
Qed.

Lemma by_distance_total (a b : Site) :
  Qle_bool (walkingDistance a) (walkingDistance b) = false ->
  Qle_bool (walkingDistance b) (walkingDistance a) = true.
Proof.
  intros H. apply Qle_bool_iff.
  destruct (Qlt_le_dec (walkingDistance a) (walkingDistance b)) as [Hlt | Hle].
  - apply Qlt_le_weak in Hlt. apply Qle_bool_iff in Hlt. congruence.
  - exact Hle.
Qed.

(** X16: [findNearbySites] returns at most five sites, nearest first; each
    is a row of the site table with its distance to the point; and as soon
    as the site table is not empty the answer is not empty, whatever the
    distances (the three closest sites are always candidates). *)
Theorem findNearbySites_nearest_first pg db point :
  (List.length (findNearbySites pg db point) <= 5)%nat /\
  Sorted (fun a b => walkingDistance a <= walkingDistance b)
         (findNearbySites pg db point) /\
  Forall (fun s => exists bs, In bs (sl_bus_sites db) /\
            siteId s = bs_site_id bs /\ siteName s = bs_site_name bs /\
            (site_lon s, site_lat s) = bs_geom bs /\
            walkingDistance s = geo_distance pg (bs_geom bs) point)
         (findNearbySites pg db point) /\
  (sl_bus_sites db <> [] -> findNearbySites pg db point <> []).
Proof.
  unfold findNearbySites.
  set (row := fun bs : BusSite =>
         {| siteId := bs_site_id bs; siteName := bs_site_name bs;
            site_lat := snd (bs_geom bs); site_lon := fst (bs_geom bs);
            walkingDistance := geo_distance pg (bs_geom bs) point |}).
  set (walking_sites := List.filter _ (sl_bus_sites db)).
  set (closest_sites := firstn 3 (sort_by _ (sl_bus_sites db))).
  set (combined := distinct same_site (List.map row (walking_sites ++ closest_sites))).
  split; [| split; [| split]].
  - rewrite length_firstn. lia.
  - apply Sorted_firstn.
    pose proof (sort_by_Sorted _ by_distance_total combined) as Hs.
    induction Hs as [| a s Hs IH Ha]; constructor; [exact IH |].
    destruct Ha as [| b s' Hab]; constructor. by apply Qle_bool_iff.
  - apply List.Forall_forall. intros s Hs.
    apply firstn_subset in Hs.
    rewrite sort_by_In in Hs. apply distinct_subset in Hs.
    apply in_map_iff in Hs as (bs & <- & Hbs).
    exists bs. split.
    + apply in_app_or in Hbs as [Hbs | Hbs].
      * by apply filter_In in Hbs as [Hbs _].
      * apply firstn_subset in Hbs. by rewrite sort_by_In in Hbs.
    + simpl. repeat split. by destruct (bs_geom bs).
  - intros Hne Hempty.
    apply (f_equal (@List.length _)) in Hempty.
    rewrite length_firstn, length_sort_by in Hempty.
    assert (combined <> []) as Hc.
    { unfold combined, closest_sites.
      destruct (sort_by _ (sl_bus_sites db)) as [| bs l] eqn:E.
      - apply (f_equal (@List.length _)) in E. rewrite length_sort_by in E.
        destruct (sl_bus_sites db); [done | discriminate].
      - rewrite List.map_app. simpl firstn. rewrite List.map_cons.
        destruct (List.map row walking_sites); simpl; discriminate. }
    destruct combined; [done | simpl in Hempty; lia].
Qed.

End NearbySites.

(** ** Direct bus routes ([findDirectRoutes]) *)

Section DirectRoutes.
Import DB PathSolver Route Engine.
Local Open Scope Q_scope.

Lemma find_In {A} (f : A -> bool) (l : list A) x :
  List.find f l = Some x -> In x l /\ f x = true.
Proof. apply List.find_some. Qed.

Lemma direct_route_inv pg solve db stamp originSites destinationSites currentTime
    maxDuration gviMonth preferences destJourneys journey route :
  direct_route pg solve db stamp originSites destinationSites currentTime
    maxDuration gviMonth preferences destJourneys journey = Some route ->
  exists ride originSite departureRow arrivalRow,
    List.filter (PlanViews.is_type bus_ride_t) (segments route) = [BusRide ride] /\
    List.length (List.filter (PlanViews.is_type bus_waiting_t) (segments route)) = 1%nat /\
    In originSite originSites /\
    br_lineId ride = ji_lineId (snd journey) /\
    br_expectedDeparture ride = ji_expectedTime (snd journey) /\
    br_duration ride
    = JS.Num (seconds_between (br_expectedArrival ride) (br_expectedDeparture ride)) /\
    0 < seconds_between (br_expectedArrival ride) (br_expectedDeparture ride) /\
    seconds_between (br_expectedArrival ride) (br_expectedDeparture ride)
    <= maxDuration /\
    walkingDistance originSite / walkingSpeed + 60
    <= seconds_between (br_expectedDeparture ride) currentTime /\
    In departureRow (sl_bus_stop_points db) /\
    br_startStopId ride = Some (stop_point_id departureRow) /\
    In arrivalRow (sl_bus_stop_points db) /\
    br_endStopId ride = Some (stop_point_id arrivalRow).
Proof.
  unfold direct_route. intros H.
  destruct (map_get (fst journey) destJourneys) as [arrInfo |]; simpl in H;
    [| discriminate H].
  destruct (Qle_bool (seconds_between (ji_expectedTime arrInfo)
                                      (ji_expectedTime (snd journey))) 0) eqn:Epos;
    [discriminate H |].
  destruct (Qle_bool (seconds_between (ji_expectedTime arrInfo)
                                      (ji_expectedTime (snd journey))) maxDuration)
    eqn:Emax; [| discriminate H].
  simpl in H.
  destruct (List.find _ originSites) as [originSite |] eqn:Eo; simpl in H;
    [| discriminate H].
  destruct (Qle_bool (walkingDistance originSite / walkingSpeed + 60) _) eqn:Ewalk;
    [| discriminate H].
  simpl in H.
  destruct (getStopPointSite db (ji_stopPointId (snd journey))) as [departureRow |]
    eqn:Ed; simpl in H; [| discriminate H].
  destruct (getStopPointSite db (ji_stopPointId arrInfo)) as [arrivalRow |]
    eqn:Ea; simpl in H; [| discriminate H].
  destruct (List.find _ destinationSites) as [destSite |]; simpl in H;
    [| discriminate H].
  injection H as <-.
  apply find_In in Eo as [Ho _].
  unfold getStopPointSite in Ed, Ea.
  apply find_In in Ed as [Hd _]. apply find_In in Ea as [Ha _].
  eexists _, originSite, departureRow, arrivalRow.
  unfold createDirectBusRoute. cbn [segments new_RoutePlan].
  split.
  { destruct (JS.gt (walkingToDeparture _) (JS.Num 0)),
             (JS.gt (walkingFromArrival _) (JS.Num 0)); reflexivity. }
  split.
  { destruct (JS.gt (walkingToDeparture _) (JS.Num 0)),
             (JS.gt (walkingFromArrival _) (JS.Num 0)); reflexivity. }
  cbn. repeat split; try done.
  - apply Qnot_le_lt. rewrite <- Qle_bool_iff. congruence.
  - by apply Qle_bool_iff.
  - by apply Qle_bool_iff.
Qed.

(** X17: every direct route [findDirectRoutes] returns has exactly one bus
    ride and one waiting segment; the ride lasts from the departure at the
    origin stop to the departure of the same journey at the destination
    stop, more than 0 s and at most [maxDuration]; the bus leaves no earlier
    than 60 s after the traveller can reach the origin site at walking
    speed; and both stops of the ride are rows of the stop-point table. *)
Theorem findDirectRoutes_feasible pg solve db stamp originSites destinationSites
    currentTime maxDuration gviMonth cache preferences :
  Forall (fun route =>
    routeType route = direct_bus /\
    exists ride originSite departureRow arrivalRow,
      List.filter (PlanViews.is_type bus_ride_t) (segments route) = [BusRide ride] /\
      List.length (List.filter (PlanViews.is_type bus_waiting_t) (segments route))
      = 1%nat /\
      In originSite originSites /\
      br_duration ride
      = JS.Num (seconds_between (br_expectedArrival ride) (br_expectedDeparture ride)) /\
      0 < seconds_between (br_expectedArrival ride) (br_expectedDeparture ride) /\
      seconds_between (br_expectedArrival ride) (br_expectedDeparture ride)
      <= maxDuration /\
      walkingDistance originSite / walkingSpeed + 60
      <= seconds_between (br_expectedDeparture ride) currentTime /\
      In departureRow (sl_bus_stop_points db) /\
      br_startStopId ride = Some (stop_point_id departureRow) /\
      In arrivalRow (sl_bus_stop_points db) /\
      br_endStopId ride = Some (stop_point_id arrivalRow))
    (findDirectRoutes pg solve db stamp originSites destinationSites currentTime
       maxDuration gviMonth cache preferences).
Proof.
  unfold findDirectRoutes. apply List.Forall_forall. intros route Hr.
  apply list_elem_of_In, list_elem_of_omap in Hr as (j & _ & Hj).
  split; [by eapply direct_route_type |].
  destruct (direct_route_inv _ _ _ _ _ _ _ _ _ _ _ _ _ Hj)
    as (ride & o & d & a & H1 & H2 & H3 & _ & _ & H4 & H5 & H6 & H7 & H8 & H9 & H10 & H11).
  exists ride, o, d, a. repeat split; assumption.
Qed.

End DirectRoutes.

(** ** Ranking of bus routes ([scoreBusRoutes]) *)

Section Ranking.
Import PathSolver Route Engine.
Local Open Scope Q_scope.

Lemma math_min_finite (xs : list JS.number) : forall x,
  Forall (fun n => exists q, n = JS.Num q) xs ->
  exists m, JS.math_min (JS.Num x) xs = JS.Num m /\ m <= x /\
            forall q, In (JS.Num q) xs -> m <= q.
Proof.
  unfold JS.math_min.
  induction xs as [| n xs IH]; intros x Hxs; simpl.
  - exists x. split; [done |]. split; [apply Qle_refl | by intros q []].
  - inversion Hxs as [| ? ? [y ->] Hxs']; subst. simpl.
    destruct (IH (if Qle_bool x y then x else y) Hxs') as (m & -> & Hm & Hall).
    assert (m <= x /\ m <= y) as [Hmx Hmy].
    { destruct (Qle_bool x y) eqn:E.
      - apply Qle_bool_iff in E. split; [done | by apply Qle_trans with x].
      - split; [| done]. apply Qle_trans with y; [done |].
        apply Qlt_le_weak, Qnot_le_lt. rewrite <- Qle_bool_iff. congruence. }
    exists m. split; [done |]. split; [done |].
    intros q [[= ->] | Hq]; [done | by apply Hall].
Qed.

Lemma math_max_finite (xs : list JS.number) : forall x,
  Forall (fun n => exists q, n = JS.Num q) xs ->
  exists m, JS.math_max (JS.Num x) xs = JS.Num m /\ x <= m /\
            forall q, In (JS.Num q) xs -> q <= m.
Proof.
  unfold JS.math_max.
  induction xs as [| n xs IH]; intros x Hxs; simpl.
  - exists x. split; [done |]. split; [apply Qle_refl | by intros q []].
  - inversion Hxs as [| ? ? [y ->] Hxs']; subst. simpl.
    destruct (IH (if Qle_bool x y then y else x) Hxs') as (m & -> & Hm & Hall).
    assert (x <= m /\ y <= m) as [Hmx Hmy].
    { destruct (Qle_bool x y) eqn:E.
      - apply Qle_bool_iff in E. split; [by apply Qle_trans with y | done].
      - split; [done |]. apply Qle_trans with x; [| done].
        apply Qlt_le_weak, Qnot_le_lt. rewrite <- Qle_bool_iff. congruence. }
    exists m. split; [done |]. split; [done |].
    intros q [[= ->] | Hq]; [done | by apply Hall].
Qed.

(** [(d - lo) / (hi - lo)] for [lo <= d <= hi], under the guard [hi > lo]. *)
Lemma norm_range (lo hi d : Q) :
  lo <= d -> d <= hi ->
  exists v,
    (if JS.gt (JS.Num hi) (JS.Num lo)
     then JS.div (JS.sub (JS.Num d) (JS.Num lo)) (JS.sub (JS.Num hi) (JS.Num lo))
     else JS.Num 0) = JS.Num v /\ 0 <= v <= 1.
Proof.
  intros Hlo Hhi. simpl.
  destruct (Qle_bool hi lo) eqn:E; simpl.
  - exists 0. split; [done | lra].
  - assert (lo < hi) as Hlt by (apply Qnot_le_lt; rewrite <- Qle_bool_iff; congruence).
    assert (Qeq_bool (hi - lo) 0 = false) as ->.
    { apply not_true_is_false. rewrite Qeq_bool_iff. lra. }
    exists ((d - lo) / (hi - lo)). split; [done |]. split.
    + apply Qle_shift_div_l; lra.
    + apply Qle_shift_div_r; lra.
Qed.

Lemma or_zero_finite (g : Q) :
  exists g', JS.or_else (JS.Num g) (JS.Num 0) = JS.Num g' /\ g' == g.
Proof.
  unfold JS.or_else. simpl. destruct (Qeq_bool g 0) eqn:E; simpl.
  - apply Qeq_bool_iff in E. exists 0. split; [done | by symmetry].
  - by exists g.
Qed.

Lemma Sorted_impl_Forall {A} (R R' : A -> A -> Prop) (P : A -> Prop) (l : list A) :
  (forall a b, P a -> P b -> R a b -> R' a b) ->
  Forall P l -> Sorted R l -> Sorted R' l.
Proof.
  intros Himpl Hall Hs. induction Hs as [| a s Hs IH Ha]; constructor.
  - apply IH. by inversion Hall.
  - destruct Ha as [| b s' Hab]; constructor.
    inversion Hall as [| ? ? Pa Hall']; subst. inversion Hall'; subst.
    by apply Himpl.
Qed.

Lemma descending_total (a b : RoutePlan) :
  descending totalScore a b = false -> descending totalScore b a = true.
Proof.
  unfold descending.
  destruct (totalScore a) as [| x], (totalScore b) as [| y]; simpl; try done.
  rewrite !negb_involutive. intros H.
  apply Qle_bool_iff.
  assert (~ y - x <= 0) as Hn by (rewrite <- Qle_bool_iff; congruence).
  apply Qnot_le_lt in Hn. lra.
Qed.

(** X18: for non-negative weights that add up to 1 and candidates whose
    duration and DGVI are numbers, [scoreBusRoutes] returns the same routes
    reordered, each with [durationScore], [acDGVIScore] and [totalScore] in
    [0, 1], and ranked by [totalScore], highest first. *)
Theorem scoreBusRoutes_ranked (routes : list RoutePlan) (preferences : Preferences) :
  0 <= time preferences -> 0 <= green preferences ->
  time preferences + green preferences == 1 ->
  Forall (fun r => (exists d, totalDuration r = JS.Num d) /\
                   (exists g, totalAcDGVI r = JS.Num g)) routes ->
  List.map (fun r => (routeId r, totalDuration r, totalAcDGVI r))
           (scoreBusRoutes routes preferences)
  ≡ₚ List.map (fun r => (routeId r, totalDuration r, totalAcDGVI r)) routes /\
  Forall (fun r => exists d a t,
            durationScore r = JS.Num d /\ acDGVIScore r = JS.Num a /\
            totalScore r = JS.Num t /\
            0 <= d <= 1 /\ 0 <= a <= 1 /\ 0 <= t <= 1)
         (scoreBusRoutes routes preferences) /\
  Sorted (fun a b => JS.ge (totalScore a) (totalScore b) = true)
         (scoreBusRoutes routes preferences).
Proof.
  intros Ht Hg Hsum Hfin.
  destruct routes as [| first others]; [by repeat split; constructor |].
  unfold scoreBusRoutes.
  set (b := bounds first others).
  set (scored := List.map (score_route preferences b) (first :: others)).
  assert (Forall (fun r => exists d a t,
            durationScore r = JS.Num d /\ acDGVIScore r = JS.Num a /\
            totalScore r = JS.Num t /\
            0 <= d <= 1 /\ 0 <= a <= 1 /\ 0 <= t <= 1) scored) as Hrange.
  { inversion Hfin as [| ? ? [[d0 Hd0] [g0 Hg0]] Hothers]; subst.
    assert (Forall (fun n => exists q, n = JS.Num q) (List.map totalDuration others))
      as Hdur.
    { apply List.Forall_map. eapply Forall_impl; [exact Hothers |].
      by intros r [Hd _]. }
    assert (Forall (fun n => exists q, n = JS.Num q)
              (List.map (fun r => JS.or_else (totalAcDGVI r) (JS.Num 0)) others))
      as Hdgvi.
    { apply List.Forall_map. eapply Forall_impl; [exact Hothers |].
      intros r [_ [g Hr]]. rewrite Hr.
      destruct (or_zero_finite g) as (g' & -> & _). by eexists. }
    destruct (or_zero_finite g0) as (g0' & Hg0' & Eg0).
    destruct (math_min_finite _ d0 Hdur) as (tmin & Htmin & Htmin0 & Htmin_all).
    destruct (math_max_finite _ d0 Hdur) as (tmax & Htmax & Htmax0 & Htmax_all).
    destruct (math_min_finite _ g0' Hdgvi) as (gmin & Hgmin & Hgmin0 & Hgmin_all).
    destruct (math_max_finite _ g0' Hdgvi) as (gmax & Hgmax & Hgmax0 & Hgmax_all).
    assert (minTime b = JS.Num tmin) as Eb1 by (unfold b, bounds; cbn [minTime]; by rewrite Hd0).
    assert (maxTime b = JS.Num tmax) as Eb2 by (unfold b, bounds; cbn [maxTime]; by rewrite Hd0).
    assert (minDGVI b = JS.Num gmin) as Eb3
      by (unfold b, bounds; cbn [minDGVI]; by rewrite Hg0, Hg0').
    assert (maxDGVI b = JS.Num gmax) as Eb4
      by (unfold b, bounds; cbn [maxDGVI]; by rewrite Hg0, Hg0').
    apply List.Forall_map, List.Forall_forall. intros r Hr.
    rewrite List.Forall_forall in Hfin.
    destruct (Hfin r Hr) as [[d Hd] [g Hgr]].
    assert (tmin <= d <= tmax) as [Hd1 Hd2].
    { destruct Hr as [<- | Hr].
      - rewrite Hd0 in Hd. injection Hd as <-. by split.
      - split; [apply Htmin_all | apply Htmax_all];
          rewrite <- Hd; by apply (List.in_map totalDuration). }
    assert (gmin <= g <= gmax) as [Hg1 Hg2].
    { destruct (or_zero_finite g) as (g' & Hg' & Eg).
      destruct Hr as [<- | Hr].
      - rewrite Hg0 in Hgr. injection Hgr as <-. rewrite <- Eg0. by split.
      - rewrite <- Eg.
        split; [apply Hgmin_all | apply Hgmax_all]; rewrite <- Hg', <- Hgr;
          by apply (List.in_map (fun r => JS.or_else (totalAcDGVI r) (JS.Num 0))). }
    destruct (norm_range tmin tmax d Hd1 Hd2) as (tn & Etn & Htn).
    destruct (norm_range gmin gmax g Hg1 Hg2) as (dn & Edn & Hdn).
    unfold score_route, timeNorm, dgviNorm.
    rewrite Eb1, Eb2, Eb3, Eb4, Hd, Hgr, Etn, Edn.
    cbn [with_scores durationScore acDGVIScore totalScore penalty JS.sub JS.add
         JS.mul JS.lift2].
    eexists _, _, _. split; [reflexivity |]. split; [reflexivity |].
    split; [reflexivity |].
    split; [lra |]. split; [lra |].
    assert (0 <= time preferences * tn) by (apply Qmult_le_0_compat; lra).
    assert (0 <= time preferences * (1 - tn)) by (apply Qmult_le_0_compat; lra).
    assert (0 <= green preferences * (1 - dn)) by (apply Qmult_le_0_compat; lra).
    assert (0 <= green preferences * dn) by (apply Qmult_le_0_compat; lra).
    split; [| lra].
    assert (1 - (time preferences * tn + green preferences * (1 - dn))
            == time preferences * (1 - tn) + green preferences * dn
               + (1 - (time preferences + green preferences))) as -> by ring.
    rewrite Hsum. lra. }
  split; [| split].
  - etransitivity.
    { apply Permutation_map. apply sort_by_Permutation. }
    unfold scored. rewrite List.map_map. reflexivity.
  - by apply Forall_sort_by.
  - apply (Sorted_impl_Forall (fun a b => descending totalScore a b = true) _
             (fun r => exists t, totalScore r = JS.Num t)).
    + intros x y [tx Hx] [ty Hy]. unfold descending. rewrite Hx, Hy. simpl.
      rewrite negb_involutive. intros H. apply Qle_bool_iff in H.
      apply Qle_bool_iff. lra.
    + apply Forall_sort_by. eapply Forall_impl; [exact Hrange |].
      intros r (d & a & t & _ & _ & Htot & _). by exists t.
    + apply sort_by_Sorted. apply descending_total.
Qed.

End Ranking.

Section CityRanking.
Import PathSolver Route Engine.
Local Open Scope Q_scope.

(** The three walking candidates of the example trip, scored with the
    weights 0.7 and 0.3. *)
Lemma scoreBusRoutes_ranked_witness :
  Sorted (fun a b => JS.ge (totalScore a) (totalScore b) = true)
    (scoreBusRoutes
       (walking_candidates City.pg reference_dijkstra City.db 0
          CityTrip.origin CityTrip.destination "2025-08"
          {| time := 0.7; green := 0.3 |})
       {| time := 0.7; green := 0.3 |}).
Proof.
  refine (proj2 (proj2 (scoreBusRoutes_ranked _ {| time := 0.7; green := 0.3 |}
                          _ _ _ _))).
  - vm_compute. discriminate.
  - vm_compute. discriminate.
  - vm_compute. reflexivity.
  - vm_compute. repeat (constructor || eexists).
Defined.

End CityRanking.

(** ** The recursive stop-sequence queries ([getStopsAlongBusRide],
    [checkJourneyDestinations]) *)

Section StopSequences.
Import DB Route Engine Transfer.

Lemma recursive_query_Forall {R} (P : R -> Prop) (step : R -> list R) fuel :
  (forall r, P r -> Forall P (step r)) ->
  forall working, Forall P working -> Forall P (recursive_query fuel step working).
Proof.
  intros Hstep. induction fuel as [| fuel IH]; intros working Hw; simpl;
    [constructor |].
  destruct working as [| r w]; [constructor |].
  apply Forall_app. split; [exact Hw |].
  apply IH. apply List.Forall_flat_map.
  eapply Forall_impl; [exact Hw | exact Hstep].
Qed.

Lemma levels_sorted (l1 l2 : list Z) (k : Z) :
  Forall (eq k) l1 -> Forall (Z.le k) l2 -> StronglySorted Z.le l2 ->
  StronglySorted Z.le (l1 ++ l2).
Proof.
  intros H1 H2 Hs. induction H1 as [| x l1 <- H1 IH]; simpl; [exact Hs |].
  constructor; [exact IH |].
  apply Forall_app. split; [| exact H2].
  eapply Forall_impl; [exact H1 |]. intros y <-. lia.
Qed.

Lemma recursive_query_levels {R} (order : R -> Z) (step : R -> list R) fuel :
  (forall r, Forall (fun r' => order r' = (order r + 1)%Z) (step r)) ->
  forall k working,
    Forall (fun r => order r = k) working ->
    Forall (fun r => (k <= order r)%Z) (recursive_query fuel step working) /\
    StronglySorted Z.le (List.map order (recursive_query fuel step working)).
Proof.
  intros Hstep. induction fuel as [| fuel IH]; intros k working Hw; simpl;
    [split; constructor |].
  destruct working as [| r w]; [split; constructor |].
  set (working := r :: w) in *.
  assert (Forall (fun r' => order r' = (k + 1)%Z) (flat_map step working)) as Hnext.
  { apply List.Forall_flat_map. eapply Forall_impl; [exact Hw |].
    intros x <-. apply Hstep. }
  destruct (IH (k + 1)%Z _ Hnext) as [Hge Hsorted].
  split.
  - apply Forall_app. split.
    + eapply Forall_impl; [exact Hw |]. intros x Hx. simpl in Hx. lia.
    + eapply Forall_impl; [exact Hge |]. intros x Hx. simpl in Hx. lia.
  - rewrite List.map_app. apply (levels_sorted _ _ k).
    + apply List.Forall_map. eapply Forall_impl; [exact Hw |]. by intros x <-.
    + apply List.Forall_map. eapply Forall_impl; [exact Hge |].
      intros x Hx. simpl in Hx. lia.
    + exact Hsorted.
Qed.

Lemma stops_joined_rows db lineId directionCode stop order :
  Forall (fun r =>
    pr_order r = order /\ pr_stop_point_id r = stop /\
    exists bt sp,
      In bt (sl_bus_trips db) /\ on_line lineId directionCode bt = true /\
      bt_stop_point_id bt = pr_stop_point_id r /\
      bt_next_stop_point_id bt = pr_next_stop_point_id r /\
      In sp (sl_bus_stop_points db) /\ stop_point_id sp = pr_stop_point_id r /\
      pr_point r = sp_geom sp)
    (stops_joined db lineId directionCode stop order).
Proof.
  apply List.Forall_forall. intros r Hr. unfold stops_joined in Hr.
  apply in_flat_map in Hr as (bt & Hbt & Hr).
  destruct (on_line lineId directionCode bt) eqn:Eline; [| destruct Hr].
  destruct (bt_stop_point_id bt =? stop)%Z eqn:Estop; [| destruct Hr].
  simpl in Hr. apply in_map_iff in Hr as (sp & <- & Hsp).
  apply filter_In in Hsp as [Hsp Eid].
  apply Z.eqb_eq in Estop, Eid. simpl.
  split; [done |]. split; [done |]. exists bt, sp. by repeat split.
Qed.

(** X19: the stops [getStopsAlongBusRide] lists are numbered from 1 to at
    most 50 and returned by non-decreasing number; number 1 is the start
    stop of the ride; and every listed stop is a row of the stop-point
    table that the line (in the given direction) leaves from. *)
Theorem getStopsAlongBusRide_numbered db lineId directionCode startStopId endStopId :
  Forall (fun s =>
    (1 <= sa_sequenceOrder s <= 50)%Z /\
    (sa_sequenceOrder s = 1%Z -> sa_stopPointId s = startStopId) /\
    exists bt sp,
      In bt (sl_bus_trips db) /\ on_line lineId directionCode bt = true /\
      bt_stop_point_id bt = sa_stopPointId s /\
      In sp (sl_bus_stop_points db) /\ stop_point_id sp = sa_stopPointId s /\
      (sa_lon s, sa_lat s) = sp_geom sp)
    (getStopsAlongBusRide db lineId directionCode startStopId endStopId) /\
  StronglySorted Z.le
    (List.map sa_sequenceOrder
       (getStopsAlongBusRide db lineId directionCode startStopId endStopId)).
Proof.
  unfold getStopsAlongBusRide.
  set (step := fun jp : PathRow =>
         if negb (pr_next_stop_point_id jp =? endStopId)%Z && (pr_order jp <? 50)%Z
         then stops_joined db lineId directionCode (pr_next_stop_point_id jp)
                           (pr_order jp + 1)
         else []).
  set (start := stops_joined db lineId directionCode startStopId 1).
  split.
  - apply List.Forall_map.
    apply (recursive_query_Forall (fun r =>
      (1 <= pr_order r <= 50)%Z /\
      (pr_order r = 1%Z -> pr_stop_point_id r = startStopId) /\
      exists bt sp,
        In bt (sl_bus_trips db) /\ on_line lineId directionCode bt = true /\
        bt_stop_point_id bt = pr_stop_point_id r /\
        In sp (sl_bus_stop_points db) /\ stop_point_id sp = pr_stop_point_id r /\
        (fst (pr_point r), snd (pr_point r)) = sp_geom sp)).
    + intros r [[Hlo Hhi] _]. unfold step.
      destruct (negb (pr_next_stop_point_id r =? endStopId)%Z); simpl; [| constructor].
      destruct (Z.ltb_spec (pr_order r) 50); [| constructor].
      eapply Forall_impl; [apply stops_joined_rows |].
      intros r' (Ho & _ & bt & sp & ? & ? & ? & _ & ? & ? & Hp).
      split; [lia |]. split; [lia |].
      exists bt, sp. repeat split; try done. rewrite Hp. by destruct (sp_geom sp).
    + eapply Forall_impl; [apply stops_joined_rows |].
      intros r' (Ho & Hs & bt & sp & ? & ? & ? & _ & ? & ? & Hp).
      split; [lia |]. split; [done |].
      exists bt, sp. repeat split; try done. rewrite Hp. by destruct (sp_geom sp).
  - rewrite List.map_map. cbn [sa_sequenceOrder].
    apply (recursive_query_levels pr_order step 50) with (k := 1%Z).
    + intros r. unfold step.
      destruct (negb (pr_next_stop_point_id r =? endStopId)%Z && (pr_order r <? 50)%Z);
        [| constructor].
      eapply Forall_impl; [apply stops_joined_rows |]. by intros r' [Ho _].
    + eapply Forall_impl; [apply stops_joined_rows |]. by intros r' [Ho _].
Qed.

Lemma distinct_Z_NoDup (l : list Z) : List.NoDup (distinct Z.eqb l).
Proof.
  induction l as [| y l IH]; simpl; constructor.
  - rewrite filter_In, Z.eqb_refl. intros [_ H]. discriminate.
  - by apply List.NoDup_filter.
Qed.

Lemma reach_joined_rows db line direction stop depth :
  Forall (fun r =>
    exists bt sp,
      In bt (sl_bus_trips db) /\ on_line line direction bt = true /\
      In sp (sl_bus_stop_points db) /\
      stop_point_id sp = bt_next_stop_point_id bt /\
      rr_site_id r = sp_site_id sp)
    (reach_joined db line direction stop depth).
Proof.
  apply List.Forall_forall. intros r Hr. unfold reach_joined in Hr.
  apply in_flat_map in Hr as (bt & Hbt & Hr).
  destruct (on_line line direction bt) eqn:Eline; [| destruct Hr].
  destruct (bt_stop_point_id bt =? stop)%Z; [| destruct Hr].
  simpl in Hr. apply in_map_iff in Hr as (sp & <- & Hsp).
  apply filter_In in Hsp as [Hsp Eid]. apply Z.eqb_eq in Eid.
  exists bt, sp. by repeat split.
Qed.

(** X20: [checkJourneyDestinations] answers with destination sites only,
    each once, and each is the site of a stop point that the line (in the
    given direction) arrives at. *)
Theorem checkJourneyDestinations_sound db line direction stop (destSiteIds : list Z) :
  List.NoDup (checkJourneyDestinations db line direction stop destSiteIds) /\
  Forall (fun site =>
    In site destSiteIds /\
    exists bt sp,
      In bt (sl_bus_trips db) /\ on_line line direction bt = true /\
      In sp (sl_bus_stop_points db) /\
      stop_point_id sp = bt_next_stop_point_id bt /\
      sp_site_id sp = Some site)
    (checkJourneyDestinations db line direction stop destSiteIds).
Proof.
  unfold checkJourneyDestinations. split; [apply distinct_Z_NoDup |].
  apply List.Forall_forall. intros site Hsite.
  apply distinct_subset, filter_In in Hsite as [Hsite Hdest].
  split.
  - apply existsb_exists in Hdest as (x & Hx & E). apply Z.eqb_eq in E. by subst.
  - apply list_elem_of_In, list_elem_of_omap in Hsite as (r & Hr & Hsome).
    apply list_elem_of_In in Hr.
    assert (Forall (fun r => exists bt sp,
              In bt (sl_bus_trips db) /\ on_line line direction bt = true /\
              In sp (sl_bus_stop_points db) /\
              stop_point_id sp = bt_next_stop_point_id bt /\
              rr_site_id r = sp_site_id sp)
            (recursive_query 20
               (fun jp : ReachRow =>
                  if (rr_depth jp <? 20)%Z
                  then reach_joined db line direction (rr_next_stop_point_id jp)
                                    (rr_depth jp + 1)
                  else [])
               (reach_joined db line direction stop 1))) as Hall.
    { apply recursive_query_Forall; [| apply reach_joined_rows].
      intros r' _. destruct (rr_depth r' <? 20)%Z; [apply reach_joined_rows | constructor]. }
    rewrite List.Forall_forall in Hall.
    destruct (Hall r Hr) as (bt & sp & ? & ? & ? & ? & Hs).
    exists bt, sp. repeat split; try done. by rewrite <- Hs.
Qed.

End StopSequences.

(** ** Agents and connections of the transfer search *)

Section TransferSearch.
Import DB PathSolver Route Engine Transfer.

Lemma connections_loop_Forall db destinationSites earliestTime transferSiteId
    (P : Connection -> Prop) (departures0 : list SLApi.Departure) :
  (forall dep j sp destSiteId destSite,
     In dep departures0 ->
     (earliestTime <= SLApi.expected dep)%Z ->
     SLApi.journey_id dep = Some j -> dep_stop_id dep = Some sp ->
     In destSiteId
        (checkJourneyDestinations db (dep_line_id dep) (SLApi.direction_code dep) sp
           (List.map siteId destinationSites)) ->
     List.find (fun s => (siteId s =? destSiteId)%Z) destinationSites = Some destSite ->
     P {| c_journeyId := j; c_lineId := dep_line_id dep;
          c_departureTime := SLApi.expected dep; c_departureStopId := sp;
          c_transferSiteId := transferSiteId; c_destSiteId := destSiteId;
          c_destSite := destSite;
          c_directionCode := SLApi.direction_code dep |}) ->
  forall departures processedKeys connections,
    (forall dep, In dep departures -> In dep departures0) ->
    Forall P connections ->
    Forall P (connections_loop db destinationSites earliestTime transferSiteId
                departures processedKeys connections).
Proof.
  intros HP. induction departures as [| dep rest IH];
    intros processedKeys connections Hsub Hc; simpl; [exact Hc |].
  assert (forall d, In d rest -> In d departures0) as Hrest
    by (intros d Hd; apply Hsub; by right).
  destruct (Z.ltb_spec (SLApi.expected dep) earliestTime) as [| Htime];
    [by apply IH |].
  destruct (SLApi.journey_id dep) as [j |] eqn:Ej; [| by apply IH].
  destruct (dep_stop_id dep) as [sp |] eqn:Esp; [| by apply IH].
  destruct (negb (j =? 0)%Z && negb (sp =? 0)%Z); [| by apply IH].
  destruct (bool_decide _); [by apply IH |].
  apply IH; [exact Hrest |].
  apply Forall_app. split; [exact Hc |].
  apply List.Forall_forall. intros c Hcin.
  apply list_elem_of_In, list_elem_of_omap in Hcin as (destSiteId & Hd & Hsome).
  apply list_elem_of_In, distinct_subset in Hd.
  destruct (List.find _ destinationSites) as [destSite |] eqn:Ef;
    simpl in Hsome; [| discriminate].
  injection Hsome as <-.
  apply (HP dep j sp destSiteId destSite); try done.
  apply Hsub. by left.
Qed.

(** X21: [findConnectionsFromCachedDepartures] returns at most five
    connections; each boards one of the first ten cached departures, not
    before [earliestTime], at a stop and with a journey id that the
    departure names, and leads to a destination site that
    [checkJourneyDestinations] reports for that line, direction and stop;
    the destination-site row it carries is the one with that site id. *)
Theorem findConnectionsFromCachedDepartures_sound db departures destinationSites
    earliestTime transferSiteId :
  (List.length (findConnectionsFromCachedDepartures db departures destinationSites
                  earliestTime transferSiteId) <= 5)%nat /\
  Forall (fun c =>
    (earliestTime <= c_departureTime c)%Z /\
    c_transferSiteId c = transferSiteId /\
    In (c_destSite c) destinationSites /\
    siteId (c_destSite c) = c_destSiteId c /\
    exists dep,
      In dep (firstn 10 departures) /\
      SLApi.expected dep = c_departureTime c /\
      SLApi.journey_id dep = Some (c_journeyId c) /\
      dep_stop_id dep = Some (c_departureStopId c) /\
      dep_line_id dep = c_lineId c /\
      SLApi.direction_code dep = c_directionCode c /\
      In (c_destSiteId c)
         (checkJourneyDestinations db (c_lineId c) (c_directionCode c)
            (c_departureStopId c) (List.map siteId destinationSites)))
    (findConnectionsFromCachedDepartures db departures destinationSites
       earliestTime transferSiteId).
Proof.
  unfold findConnectionsFromCachedDepartures. split.
  { rewrite length_firstn. lia. }
  apply List.Forall_forall. intros c Hc. apply firstn_subset in Hc.
  revert c Hc. apply List.Forall_forall.
  apply (connections_loop_Forall db destinationSites earliestTime transferSiteId _
           (firstn 10 departures)); [| done | constructor].
  intros dep j sp destSiteId destSite Hdep Htime Hj Hsp Hreach Hfind.
  apply List.find_some in Hfind as [Hin Hid]. apply Z.eqb_eq in Hid.
  cbn. repeat split; try done.
  exists dep. by repeat split.
Qed.

Lemma map_set_length {V} (k : Z) (v : V) (m : list (Z * V)) :
  (List.length (map_set k v m) <= S (List.length m))%nat.
Proof.
  induction m as [| [k' v'] m IH]; simpl; [lia |].
  destruct (k' =? k)%Z; simpl; lia.
Qed.

Lemma map_set_keys {V} (k : Z) (v : V) (m : list (Z * V)) x :
  In x (List.map fst (map_set k v m)) -> x = k \/ In x (List.map fst m).
Proof.
  induction m as [| [k' v'] m IH]; simpl; [intros [<- | []]; by left |].
  destruct (Z.eqb_spec k' k); simpl.
  - intros [<- | H]; [by left | right; by right].
  - intros [<- | H]; [right; by left |].
    destruct (IH H); [by left | right; by right].
Qed.

Lemma site_departures_bound (sites : list Site) cache :
  (List.length (site_departures sites cache) <= List.length sites)%nat /\
  forall k, In k (List.map fst (site_departures sites cache)) ->
            In k (List.map siteId sites).
Proof.
  unfold site_departures.
  assert (forall (m : list (Z * list SLApi.Departure)),
    let m' := fold_left (fun m site =>
                 map_set (siteId site) (default [] (cache !! siteId site)) m)
                sites m in
    (List.length m' <= List.length m + List.length sites)%nat /\
    forall k, In k (List.map fst m') ->
              In k (List.map fst m) \/ In k (List.map siteId sites)) as H.
  { induction sites as [| s sites IH]; intros m; simpl; [split; [lia | by left] |].
    destruct (IH (map_set (siteId s) (default [] (cache !! siteId s)) m)) as [Hl Hk].
    split.
    - pose proof (map_set_length (siteId s) (default [] (cache !! siteId s)) m). lia.
    - intros k Hin. destruct (Hk k Hin) as [H | H]; [| right; by right].
      apply map_set_keys in H as [-> | H]; [right; by left | by left]. }
  destruct (H []) as [Hl Hk]. split; [exact Hl |].
  intros k Hin. by destruct (Hk k Hin) as [[] | ?].
Qed.

Lemma omap_length_le {A B} (f : A -> option B) (l : list A) :
  (List.length (omap f l) <= List.length l)%nat.
Proof.
  induction l as [| x l IH]; simpl; [lia |].
  unfold omap in IH. destruct (f x); simpl; lia.
Qed.

(** X22: the transfer search creates at most ten agents per origin site;
    every agent starts at a stop point of the stop-point table, at the time
    of the departure it boarded, and belongs to one of the origin sites. *)
Theorem query_agents_bounded db (originSites : list Site) departuresCache :
  (List.length (query_agents db originSites departuresCache)
   <= 10 * List.length originSites)%nat /\
  Forall (fun agent =>
    In (originSite agent) originSites /\
    In (departureStopInfo agent) (sl_bus_stop_points db) /\
    stop_point_id (departureStopInfo agent) = currentStopId agent /\
    nominalTime agent = departure_expectedTime agent /\
    journeyId agent <> 0%Z /\ currentStopId agent <> 0%Z)
    (query_agents db originSites departuresCache).
Proof.
  unfold query_agents. split.
  - destruct (site_departures_bound originSites departuresCache) as [Hlen _].
    revert Hlen. generalize (site_departures originSites departuresCache).
    intros m Hlen.
    assert (forall (f : Z * list SLApi.Departure -> list QueryAgent),
              (forall sd, List.length (f sd) <= 10)%nat ->
              (List.length (flat_map f m) <= 10 * List.length m)%nat) as Hflat.
    { intros f Hf. induction m as [| sd m' IH]; simpl; [lia |].
      rewrite length_app. specialize (Hf sd).
      assert (List.length (flat_map f m') <= 10 * List.length m')%nat
        by (apply IH; simpl in Hlen; lia).
      lia. }
    etransitivity; [apply Hflat | lia].
    intros sd. etransitivity; [apply omap_length_le |].
    rewrite length_firstn. lia.
  - apply List.Forall_flat_map, List.Forall_forall. intros sd _.
    apply List.Forall_forall. intros agent Hagent.
    apply list_elem_of_In, list_elem_of_omap in Hagent as (dep & _ & Hsome).
    destruct (SLApi.journey_id dep) as [j |]; [| discriminate].
    destruct (dep_stop_id dep) as [sp |]; [| discriminate].
    destruct (negb (j =? 0)%Z) eqn:Ej; [| discriminate].
    destruct (negb (sp =? 0)%Z) eqn:Esp; [| discriminate].
    simpl in Hsome.
    destruct (List.find _ originSites) as [site |] eqn:Es; simpl in Hsome;
      [| discriminate].
    destruct (getStopPointSite db sp) as [stop |] eqn:Estop; simpl in Hsome;
      [| discriminate].
    injection Hsome as <-. cbn.
    apply List.find_some in Es as [Hs _].
    unfold getStopPointSite in Estop. apply List.find_some in Estop as [Hstop Hid].
    apply Z.eqb_eq in Hid.
    apply negb_true_iff, Z.eqb_neq in Ej, Esp.
    by repeat split.
Qed.

(** X23: the bounds of the transfer search: an agent is carried over at
    most ten stops and contributes at most two itineraries, and the search
    returns at most twenty-one itineraries. *)
Theorem findTransferRoutes_bounds great_circle db stamp originSites destinationSites
    currentTime maxDuration gviMonth cache agent :
  (List.length (hops (findTransferChainCached great_circle db stamp agent
                        destinationSites maxDuration gviMonth cache)) <= 10)%nat /\
  (List.length (transferRoutes (findTransferChainCached great_circle db stamp agent
                        destinationSites maxDuration gviMonth cache)) <= 2)%nat /\
  (List.length (findTransferRoutes great_circle db stamp originSites
                  destinationSites currentTime maxDuration gviMonth cache) <= 21)%nat.
Proof.
  pose proof (findTransferChainCached_bounds great_circle db stamp destinationSites
                maxDuration gviMonth cache agent) as [H1 H2].
  split; [exact H1 |]. split; [exact H2 |].
  apply findTransferRoutes_bound.
Qed.

End TransferSearch.

(** ** The walk of a query agent ([QueryAgent.moveTo]) *)

Section AgentWalk.
Import Agent.

Lemma includes_Z (x : Z) (l : list Z) : existsb (Z.eqb x) l = true <-> In x l.
Proof.
  rewrite existsb_exists. split.
  - intros (y & Hy & E). apply Z.eqb_eq in E. by subst.
  - intros H. exists x. split; [done | apply Z.eqb_refl].
Qed.

Lemma moves_spec (steps : list (Z * Z)) : forall a,
  List.NoDup (visitedStops a) ->
  match moves a steps with
  | Normal a' =>
      List.NoDup (visitedStops a') /\
      visitedStops a' = visitedStops a ++ List.map fst steps /\
      routeChain a'
      = routeChain a
        ++ List.map (fun s => {| stopId := fst s; arrivalTime := snd s;
                                 travelTime := 0 |}) steps /\
      currentStopId a' = List.last (List.map fst steps) (currentStopId a) /\
      nominalTime a' = List.last (List.map snd steps) (nominalTime a) /\
      departureTime a' = departureTime a
  | Thrown _ => ~ List.NoDup (visitedStops a ++ List.map fst steps)
  end.
Proof.
  induction steps as [| [stop time] steps IH]; intros a Ha.
  - simpl. rewrite !app_nil_r. by repeat split.
  - cbn [moves List.map fst snd]. unfold moveTo.
    destruct (existsb (Z.eqb stop) (visitedStops a)) eqn:E.
    + apply includes_Z in E. intros Hnd.
      apply NoDup_ListNoDup, NoDup_app in Hnd as (_ & Hdisj & _).
      apply (Hdisj stop); [by apply list_elem_of_In | by left].
    + assert (~ In stop (visitedStops a)) as Hnew
        by (rewrite <- includes_Z; congruence).
      match goal with
      | |- context [moves ?a1 steps] => specialize (IH a1)
      end.
      cbn [visitedStops routeChain currentStopId nominalTime departureTime] in IH.
      assert (List.NoDup (visitedStops a ++ [stop])) as Hnd.
      { apply NoDup_ListNoDup, NoDup_app. split; [by apply NoDup_ListNoDup |].
        split; [| apply NoDup_singleton].
        intros x Hx Hx'. apply list_elem_of_singleton in Hx'. subst.
        by apply Hnew, list_elem_of_In. }
      specialize (IH Hnd). rewrite <- !app_assoc in IH. cbn [app] in IH.
      rewrite Z.sub_diag in IH. rewrite !last_default. cbv zeta.
      rewrite Z.sub_diag. exact IH.
Qed.

(** X24: a walk of a fresh agent over a list of stops succeeds exactly
    when no stop is visited twice (the start stop included).  After a
    successful walk the visited stops are the start stop followed by the
    stops of the walk, the agent stands at the last one at its arrival
    time, the chain has one entry per move, and every recorded
    [travelTime] is 0. *)
Theorem moveTo_never_revisits (start time departure : Z) (steps : list (Z * Z)) :
  match moves (new start time departure) steps with
  | Normal a =>
      List.NoDup (start :: List.map fst steps) /\
      visitedStops a = start :: List.map fst steps /\
      List.map stopId (routeChain a) = List.map fst steps /\
      List.map arrivalTime (routeChain a) = List.map snd steps /\
      Forall (fun e => travelTime e = 0) (routeChain a) /\
      currentStopId a = List.last (List.map fst steps) start /\
      nominalTime a = List.last (List.map snd steps) time /\
      stopsVisited (getProgress a) = S (List.length steps) /\
      totalTravelTime (getProgress a)
      = List.last (List.map snd steps) time - departure
  | Thrown _ => ~ List.NoDup (start :: List.map fst steps)
  end.
Proof.
  pose proof (moves_spec steps (new start time departure)) as H.
  cbn [new visitedStops routeChain currentStopId nominalTime departureTime] in H.
  specialize (H ltac:(repeat constructor; by intros [])).
  destruct (moves (new start time departure) steps) as [a | msg]; [| exact H].
  destruct H as (H1 & H2 & H3 & H4 & H5 & H6).
  rewrite H2 in H1. simpl in H1, H2, H3.
  split; [exact H1 |]. split; [exact H2 |].
  rewrite H3, !List.map_map. cbn [stopId arrivalTime].
  split; [reflexivity |].
  split; [reflexivity |].
  split; [apply List.Forall_map; by apply List.Forall_forall |].
  split; [exact H4 |]. split; [exact H5 |].
  unfold getProgress. cbn [stopsVisited totalTravelTime].
  rewrite H2, H5, H6. simpl. by rewrite List.length_map.
Qed.

End AgentWalk.

(** ** Saving stop sequences ([saveRouteSequences]) *)

Section SavedSequences.
Import Builder.

Lemma saveRouteSequences_candidates (journeyRoutes : JourneyRoutes) : forall st,
  fold_left (fun st (js : Z * list StopEvent) =>
    let journeyId := fst js in
    let stops := snd js in
    if (List.length stops <? 2)%nat then st
    else
      fold_left (fun st p =>
                   match sequence_row journeyId p with
                   | Some r => insert st r
                   | None => st
                   end)
                (pairs (sort_by by_expected stops)) st)
    journeyRoutes st
  = fold_left insert (candidate_rows journeyRoutes) st.
Proof.
  induction journeyRoutes as [| js rest IH]; intros st; [reflexivity |].
  cbn [fold_left candidate_rows flat_map]. rewrite fold_left_app, IH. f_equal.
  cbv zeta. destruct (List.length (snd js) <? 2)%nat; [reflexivity |].
  generalize (pairs (sort_by by_expected (snd js))). clear.
  intros ps. revert st. induction ps as [| p ps IH]; intros st; [reflexivity |].
  cbn [fold_left]. rewrite IH.
  change (omap (sequence_row (fst js)) (p :: ps))
    with (match sequence_row (fst js) p with
          | Some r => r :: omap (sequence_row (fst js)) ps
          | None => omap (sequence_row (fst js)) ps
          end).
  by destruct (sequence_row (fst js) p).
Qed.

Lemma conflicts_app table added r :
  conflicts table r = true -> conflicts (table ++ added) r = true.
Proof.
  unfold conflicts. destruct (conflict_key r); [| done].
  rewrite existsb_app. intros ->. reflexivity.
Qed.

Lemma conflicts_self table r :
  conflict_key r <> None -> conflicts (table ++ [r]) r = true.
Proof.
  unfold conflicts. destruct (conflict_key r) as [k |] eqn:E; [| done].
  intros _. rewrite existsb_app. simpl. rewrite E.
  rewrite bool_decide_eq_true_2 by done. apply orb_true_r.
Qed.

Lemma insert_fold (cs : list TripRow) : forall st,
  exists added,
    fold_left insert cs st = (fst st ++ added, (snd st + List.length added)%nat) /\
    (forall r, In r added -> In r cs) /\
    (List.NoDup (omap conflict_key (fst st)) ->
     List.NoDup (omap conflict_key (fst st ++ added))) /\
    (forall r, conflict_key r <> None ->
       In r cs \/ conflicts (fst st) r = true ->
       conflicts (fst st ++ added) r = true).
Proof.
  induction cs as [| c cs IH]; intros [table n].
  - exists []. simpl. rewrite app_nil_r, Nat.add_0_r.
    split; [done |]. split; [done |]. split; [done |].
    by intros r _ [[] | H].
  - cbn [fold_left]. unfold insert at 2. cbn [fst snd].
    destruct (conflicts table c) eqn:E.
    + destruct (IH (table, n)) as (added & Hf & Hin & Hnd & Hc).
      exists added. cbn [fst snd] in *.
      split; [exact Hf |]. split; [intros r Hr; right; by apply Hin |].
      split; [exact Hnd |].
      intros r Hk [[<- | Hr] | Hr].
      * by apply conflicts_app.
      * apply Hc; [done | by left].
      * apply Hc; [done | by right].
    + destruct (IH (table ++ [c], S n)) as (added & Hf & Hin & Hnd & Hc).
      exists (c :: added). cbn [fst snd] in *.
      rewrite <- app_assoc in Hf, Hnd, Hc. cbn [app] in Hf, Hnd, Hc.
      split; [rewrite Hf; f_equal; simpl; lia |].
      split; [intros r [<- | Hr]; [by left | right; by apply Hin] |].
      split.
      * intros Ht. apply Hnd.
        rewrite omap_app. apply NoDup_ListNoDup, NoDup_app.
        split; [by apply NoDup_ListNoDup |].
        unfold conflicts in E.
        destruct (conflict_key c) as [k |] eqn:Ek.
        -- split.
           ++ intros x Hx Hx'.
              change (omap conflict_key [c]) with
                (match conflict_key c with Some k => [k] | None => [] end) in Hx'.
              rewrite Ek in Hx'. apply list_elem_of_singleton in Hx'. subst x.
              apply list_elem_of_omap in Hx as (y & Hy & Hyk).
              assert (existsb (fun x => bool_decide (conflict_key x = Some k)) table
                      = true) as Habs; [| congruence].
              apply existsb_exists. exists y.
              split; [by apply list_elem_of_In |].
              by apply bool_decide_eq_true_2.
           ++ change (omap conflict_key [c]) with
                (match conflict_key c with Some k => [k] | None => [] end).
              rewrite Ek. apply NoDup_singleton.
        -- change (omap conflict_key [c]) with
             (match conflict_key c with Some k => [k] | None => [] end).
           rewrite Ek. split; [by intros x _ Hx; apply elem_of_nil in Hx |].
           apply NoDup_nil_2.
      * intros r Hk [[<- | Hr] | Hr].
        -- apply Hc; [done |]. right. by apply conflicts_self.
        -- apply Hc; [done | by left].
        -- apply Hc; [done |]. right. by apply conflicts_app.
Qed.

Lemma insert_fold_fixed (cs : list TripRow) : forall table n,
  (forall r, In r cs -> conflicts table r = true) ->
  fold_left insert cs (table, n) = (table, n).
Proof.
  induction cs as [| c cs IH]; intros table n H; [reflexivity |].
  cbn [fold_left]. unfold insert at 2. cbn [fst snd].
  rewrite (H c) by (by left). apply IH. intros r Hr. apply H. by right.
Qed.

Lemma candidate_rows_valid journeyRoutes :
  Forall (fun r => tr_stop_point_id r <> tr_next_stop_point_id r /\
                   tr_stop_point_id r <> 0%Z /\ tr_next_stop_point_id r <> 0%Z)
         (candidate_rows journeyRoutes).
Proof.
  unfold candidate_rows. apply List.Forall_flat_map, List.Forall_forall.
  intros js _. destruct (List.length (snd js) <? 2)%nat; [constructor |].
  apply List.Forall_forall. intros r Hr.
  apply list_elem_of_In, list_elem_of_omap in Hr as (p & _ & Hp).
  unfold sequence_row in Hp.
  destruct (se_stop_point_id (fst p)) as [c |]; [| discriminate].
  destruct (se_stop_point_id (snd p)) as [n |]; [| discriminate].
  destruct (Z.eqb_spec c 0); [discriminate |].
  destruct (Z.eqb_spec n 0); [discriminate |].
  destruct (Z.eqb_spec c n); [discriminate |].
  simpl in Hp. by injection Hp as <-.
Qed.

(** X25: [saveRouteSequences] only appends: the rows already in the table
    stay as they are, and the returned count is the number of rows added.
    No added row links a stop to itself or has a stop id of 0.  The
    uniqueness of (line, direction, stop, next stop) among rows without
    NULL is preserved.  And when every stop seen carries a line and a
    direction, saving the same journeys again adds nothing. *)
Theorem saveRouteSequences_appends (table : list TripRow)
    (journeyRoutes : JourneyRoutes) :
  exists added,
    saveRouteSequences table journeyRoutes = (table ++ added, List.length added) /\
    Forall (fun r => tr_stop_point_id r <> tr_next_stop_point_id r /\
                     tr_stop_point_id r <> 0%Z /\ tr_next_stop_point_id r <> 0%Z)
           added /\
    (List.NoDup (omap conflict_key table) ->
     List.NoDup (omap conflict_key (table ++ added))) /\
    (Forall (fun js => Forall (fun e => is_Some (se_line_id e) /\
                                        is_Some (se_direction_code e)) (snd js))
            journeyRoutes ->
     saveRouteSequences (table ++ added) journeyRoutes = (table ++ added, O)).
Proof.
  unfold saveRouteSequences. rewrite !saveRouteSequences_candidates.
  destruct (insert_fold (candidate_rows journeyRoutes) (table, O))
    as (added & Hf & Hin & Hnd & Hc).
  cbn [fst snd] in *. exists added.
  split; [exact Hf |]. split; [| split; [exact Hnd |]].
  - pose proof (candidate_rows_valid journeyRoutes) as Hv.
    rewrite List.Forall_forall in Hv. apply List.Forall_forall.
    intros r Hr. by apply Hv, Hin.
  - intros Hlines. rewrite saveRouteSequences_candidates.
    apply insert_fold_fixed. intros r Hr. apply Hc; [| by left].
    unfold candidate_rows in Hr. apply in_flat_map in Hr as (js & Hjs & Hr).
    rewrite List.Forall_forall in Hlines. specialize (Hlines js Hjs).
    destruct (List.length (snd js) <? 2)%nat; [destruct Hr |].
    apply list_elem_of_In, list_elem_of_omap in Hr as (p & Hp & Hrow).
    assert (In (fst p) (snd js)) as Hfst.
    { apply list_elem_of_In in Hp.
      assert (forall (l : list StopEvent) q, In q (pairs l) -> In (fst q) l) as Hpairs.
      { induction l as [| a [| b l] IH]; intros q Hq; try destruct Hq.
        - subst q. by left.
        - right. by apply IH. }
      apply Hpairs in Hp. by rewrite sort_by_In in Hp. }
    rewrite List.Forall_forall in Hlines.
    destruct (Hlines _ Hfst) as [[l Hl] [d Hd]].
    unfold sequence_row in Hrow.
    destruct (se_stop_point_id (fst p)); [| discriminate].
    destruct (se_stop_point_id (snd p)); [| discriminate].
    destruct (_ || _ || _); [discriminate |].
    injection Hrow as <-. unfold conflict_key. cbn. by rewrite Hl, Hd.
Qed.

End SavedSequences.

(** ** The HTTP handlers *)

Section Handlers.
Import DB PathSolver Route Engine Api.

(** X26: [POST /update-dgvi] rebuilds the month exactly when the month has
    the shape [dddd-dd] and some GVI point carries a value for it; then it
    answers with the statistics of [updateAllRoadDGVI].  In every other
    case it answers 400 and leaves the database as it was. *)
Theorem update_dgvi_guarded pg db (month : option string) :
  (status (snd (update_dgvi pg db month)) = 200%Z
   <-> exists mo, month = Some mo /\ Months.month_format mo = true /\
         exists g, In g (gvi_points db) /\ DB.month g = mo /\ is_Some (gvi g)) /\
  (status (snd (update_dgvi pg db month)) <> 200%Z ->
   status (snd (update_dgvi pg db month)) = 400%Z /\
   fst (update_dgvi pg db month) = db) /\
  (forall mo, month = Some mo ->
     status (snd (update_dgvi pg db month)) = 200%Z ->
     update_dgvi pg db month
     = (fst (DGVI.updateAllRoadDGVI pg db mo),
        Ok (snd (DGVI.updateAllRoadDGVI pg db mo)))).
Proof.
  assert (forall mo, Months.isValid (Months.validateMonth db mo) = true ->
            mo <> "") as Hnonempty.
  { intros mo H ->. unfold Months.validateMonth in H. by vm_compute in H. }
  assert (forall mo, Months.isValid (Months.validateMonth db mo) = true
            <-> Months.month_format mo = true /\
                exists g, In g (gvi_points db) /\ DB.month g = mo /\ is_Some (gvi g))
    as Hvalid.
  { intros mo. unfold Months.validateMonth.
    rewrite <- valued_months_In, <- getAvailableMonths_In, <- includes_In.
    destruct (Months.month_format mo); simpl; [| by intuition].
    destruct (Months.includes (Months.getAvailableMonths db) mo); simpl; by intuition. }
  unfold update_dgvi. destruct month as [mo |].
  - destruct (String.eqb_spec mo "") as [-> | Hne].
    + cbn [fst snd status]. split; [| split].
      * split; [discriminate |]. intros (mo & [= <-] & Hf & _). discriminate.
      * by intros _.
      * intros mo _ H. discriminate.
    + destruct (Months.isValid (Months.validateMonth db mo)) eqn:E; cbn [negb].
      * destruct (DGVI.updateAllRoadDGVI pg db mo) as [db' stats] eqn:Eu.
        cbn [fst snd status]. split; [| split].
        -- split; [| done]. intros _. exists mo. split; [done |]. by apply Hvalid.
        -- intros H. by destruct H.
        -- intros mo' [= <-] _. by rewrite Eu.
      * cbn [fst snd status]. split; [| split].
        -- split; [discriminate |]. intros (mo' & [= <-] & H).
           apply Hvalid in H. congruence.
        -- by intros _.
        -- intros mo' _ H. discriminate.
  - cbn [fst snd status]. split; [| split].
    + split; [discriminate |]. by intros (mo & H & _).
    + by intros _.
    + intros mo H. discriminate.
Qed.

Lemma planRoutes_length pg solve db feed now origin destination options :
  exists routes,
    planRoutes pg solve db feed now origin destination options = Normal routes /\
    (List.length routes <= 4)%nat.
Proof.
  unfold planRoutes. eexists. split; [reflexivity |].
  rewrite length_app, !length_firstn. lia.
Qed.

(** X27: [POST /plan-routes] answers 400 when a coordinate is missing or
    is 0, and when a month is given that [validateMonth] rejects; otherwise
    it answers 200 with at most four routes, [total_routes] being their
    number, planned for the given month, or for the recommended month when
    none is given.  [max_results] has no effect on the answer. *)
Theorem plan_routes_answer pg solve db feed now (req : PlanRequest)
    (max_results : option Z) :
  plan_routes pg solve db feed now
    {| pr_origin := pr_origin req; pr_destination := pr_destination req;
       pr_gvi_month := pr_gvi_month req; pr_preferences := pr_preferences req;
       pr_max_results := max_results |}
  = plan_routes pg solve db feed now req /\
  (point_of (pr_origin req) = None \/ point_of (pr_destination req) = None ->
   status (plan_routes pg solve db feed now req) = 400%Z) /\
  (forall mo, pr_gvi_month req = Some mo -> mo <> "" ->
     Months.isValid (Months.validateMonth db mo) = false ->
     status (plan_routes pg solve db feed now req) = 400%Z) /\
  (forall body, plan_routes pg solve db feed now req = Ok body ->
     total_routes body = List.length (routes body) /\
     (total_routes body <= 4)%nat /\
     (forall mo, pr_gvi_month req = Some mo -> mo <> "" ->
        used_gvi_month body = mo /\
        Months.isValid (Months.validateMonth db mo) = true) /\
     (pr_gvi_month req = None \/ pr_gvi_month req = Some "" ->
        used_gvi_month body = Months.getRecommendedMonth db)).
Proof.
  split; [reflexivity |]. unfold plan_routes. split; [| split].
  - intros [-> | H]; [reflexivity |]. rewrite H.
    by destruct (point_of (pr_origin req)).
  - intros mo Hmo Hne Hinvalid.
    destruct (point_of (pr_origin req)); [| reflexivity].
    destruct (point_of (pr_destination req)); [| reflexivity].
    rewrite Hmo. apply String.eqb_neq in Hne. by rewrite Hne, Hinvalid.
  - intros body Hbody.
    destruct (point_of (pr_origin req)) as [o |]; [| discriminate].
    destruct (point_of (pr_destination req)) as [d |]; [| discriminate].
    assert (forall gviMonth,
      match planRoutes pg solve db feed now o d
              {| opt_gviMonth := Some gviMonth;
                 opt_preferences :=
                   Some (default {| time := 0.5; green := 0.5 |} (pr_preferences req));
                 opt_maxResults := Some (default 4%Z (pr_max_results req)) |} with
      | Normal routes =>
          Ok {| used_preferences :=
                  default {| time := 0.5; green := 0.5 |} (pr_preferences req);
                used_gvi_month := gviMonth;
                total_routes := List.length routes;
                routes := routes |}
      | Thrown msg => ServerError msg
      end = Ok body ->
      total_routes body = List.length (routes body) /\
      (total_routes body <= 4)%nat /\ used_gvi_month body = gviMonth) as Hplan.
    { intros gviMonth H.
      destruct (planRoutes_length pg solve db feed now o d
                  {| opt_gviMonth := Some gviMonth;
                     opt_preferences :=
                       Some (default {| time := 0.5; green := 0.5 |}
                                     (pr_preferences req));
                     opt_maxResults := Some (default 4%Z (pr_max_results req)) |})
        as (rs & Hrs & Hlen).
      rewrite Hrs in H. injection H as <-. by repeat split. }
    destruct (pr_gvi_month req) as [mo |].
    + destruct (String.eqb mo "") eqn:Eempty.
      * apply String.eqb_eq in Eempty.
        destruct (Hplan _ Hbody) as (H1 & H2 & H3).
        split; [exact H1 |]. split; [exact H2 |]. split; [| by intros _].
        intros mo' [= <-] H. done.
      * apply String.eqb_neq in Eempty.
        destruct (Months.isValid (Months.validateMonth db mo)) eqn:E;
          [| discriminate].
        destruct (Hplan _ Hbody) as (H1 & H2 & H3).
        split; [exact H1 |]. split; [exact H2 |]. split.
        -- by intros mo' [= <-] _.
        -- intros [H | [= H]]; [discriminate | done].
    + destruct (Hplan _ Hbody) as (H1 & H2 & H3).
      split; [exact H1 |]. split; [exact H2 |]. split; [| by intros _].
      intros mo H. discriminate.
Qed.

End Handlers.

(** ** Deduplication, enrichment and degenerate rides *)

Section Finishing.
Import DB PathSolver Route Engine.

Lemma dedup_loop_fresh (routes : list RoutePlan) : forall (seen : gset string) unique,
  NoDup (fingerprint <$> routes) ->
  (forall r, r ∈ routes -> fingerprint r ∉ seen) ->
  dedup_loop routes seen unique = unique ++ routes.
Proof.
  induction routes as [| route rest IH]; intros seen unique Hnd Hfresh; simpl.
  - by rewrite app_nil_r.
  - rewrite fmap_cons in Hnd. apply NoDup_cons in Hnd as [Hhead Hnd].
    destruct (decide (fingerprint route ∈ seen)) as [Hin | _].
    + exfalso. apply (Hfresh route); [by left | exact Hin].
    + rewrite IH; [by rewrite <- app_assoc | exact Hnd |].
      intros r Hr Hin. apply elem_of_union in Hin as [Hin | Hin].
      * apply elem_of_singleton in Hin. apply Hhead. rewrite <- Hin.
        by apply list_elem_of_fmap_2.
      * apply (Hfresh r); [by right | exact Hin].
Qed.

(** X28: [deduplicateRoutes] changes nothing in a list whose fingerprints
    are pairwise different; hence deduplicating twice is the same as
    deduplicating once. *)
Theorem deduplicateRoutes_idempotent (routes : list RoutePlan) :
  (NoDup (fingerprint <$> routes) -> deduplicateRoutes routes = routes) /\
  deduplicateRoutes (deduplicateRoutes routes) = deduplicateRoutes routes.
Proof.
  assert (forall l, NoDup (fingerprint <$> l) -> deduplicateRoutes l = l) as H.
  { intros l Hnd. unfold deduplicateRoutes.
    rewrite dedup_loop_fresh; [done | exact Hnd |].
    intros r _. apply not_elem_of_empty. }
  split; [apply H |].
  apply H. apply deduplicateRoutes_spec.
Qed.

(** X29: [enrichVisualizationData] keeps the routes, in order, with their
    identity, type, durations, DGVI and scores; it keeps the number, types
    and durations of the segments, leaves walking and waiting segments
    untouched, and on a bus ride it keeps the stops, the line and the
    times: only geometry, edge list and the stops along the ride change. *)
Theorem enrichVisualizationData_preserves pg solve db gviMonth
    (routes : list RoutePlan) :
  Forall2 (fun r r' =>
    routeId r' = routeId r /\ routeType r' = routeType r /\
    totalDuration r' = totalDuration r /\ totalAcDGVI r' = totalAcDGVI r /\
    durationScore r' = durationScore r /\ acDGVIScore r' = acDGVIScore r /\
    totalScore r' = totalScore r /\ strategy r' = strategy r /\
    gviDataMonth r' = gviDataMonth r /\
    Forall2 (fun s s' =>
      type s' = type s /\ duration s' = duration s /\
      match s, s' with
      | BusRide b, BusRide b' =>
          br_startStopId b' = br_startStopId b /\
          br_endStopId b' = br_endStopId b /\
          br_startStopInfo b' = br_startStopInfo b /\
          br_endStopInfo b' = br_endStopInfo b /\
          br_lineId b' = br_lineId b /\
          br_directionCode b' = br_directionCode b /\
          br_expectedDeparture b' = br_expectedDeparture b /\
          br_expectedArrival b' = br_expectedArrival b
      | _, _ => s' = s
      end) (segments r) (segments r'))
    routes (enrichVisualizationData pg solve db gviMonth routes).
Proof.
  unfold enrichVisualizationData.
  induction routes as [| r routes IH]; simpl; constructor; [| exact IH].
  repeat split; try reflexivity.
  cbn [segments with_segments].
  induction (segments r) as [| s segs IHs]; simpl; constructor; [| exact IHs].
  destruct s as [w | b | br]; [by repeat split | by repeat split |].
  unfold enrichBusRideVisualization.
  destruct (br_startStopId br) as [a |] eqn:Ea; [| by repeat split].
  destruct (br_endStopId br) as [e |] eqn:Ee; [| by repeat split].
  destruct (_ && _ && _ && _); by repeat split.
Qed.

Lemma filter_key_length {A} (key : A -> Z) (k : Z) (l : list A) :
  List.NoDup (List.map key l) ->
  (List.length (List.filter (fun x => (key x =? k)%Z) l) <= 1)%nat.
Proof.
  induction l as [| x l IH]; simpl; [lia |].
  intros Hnd. inversion Hnd as [| ? ? Hx Hnd']; subst.
  destruct (Z.eqb_spec (key x) k) as [<- | _]; [| by apply IH].
  assert (List.filter (fun y => (key y =? key x)%Z) l = []) as ->; [| simpl; lia].
  clear -Hx. induction l as [| y l IH]; simpl; [done |].
  destruct (Z.eqb_spec (key y) (key x)) as [E | _].
  - exfalso. apply Hx. left. done.
  - apply IH. intros H. apply Hx. by right.
Qed.

(** X30: when the stop ids of the stop-point table are unique, a bus ride
    that starts and ends at the same stop, or at a stop that is not in the
    table, gets no geometry, no edges and DGVI 0 from
    [calculateBusRideDGVI]. *)
Theorem calculateBusRideDGVI_degenerate pg solve db (startStopId endStopId : Z)
    (m : string) :
  List.NoDup (List.map stop_point_id (sl_bus_stop_points db)) ->
  startStopId = endStopId \/
  getStopPointSite db startStopId = None \/
  getStopPointSite db endStopId = None ->
  RouteDGVI.calculateBusRideDGVI pg solve db startStopId endStopId m
  = RouteDGVI.no_bus_ride.
Proof.
  intros Hnd Hcase. unfold RouteDGVI.calculateBusRideDGVI.
  assert (forall k, getStopPointSite db k = None ->
            forall sp, In sp (sl_bus_stop_points db) ->
                       (stop_point_id sp =? k)%Z = false) as Hmissing.
  { intros k Hk sp Hsp. unfold getStopPointSite in Hk.
    exact (List.find_none _ _ Hk sp Hsp). }
  assert (exists k,
    List.filter (fun sp => (stop_point_id sp =? startStopId)%Z
                           || (stop_point_id sp =? endStopId)%Z)
                (sl_bus_stop_points db)
    = List.filter (fun sp => (stop_point_id sp =? k)%Z) (sl_bus_stop_points db))
    as [k ->].
  { destruct Hcase as [-> | [H | H]].
    - exists endStopId. apply List.filter_ext. intros sp. apply orb_diag.
    - exists endStopId. apply List.filter_ext_in. intros sp Hsp.
      by rewrite (Hmissing _ H sp Hsp).
    - exists startStopId. apply List.filter_ext_in. intros sp Hsp.
      rewrite (Hmissing _ H sp Hsp). apply orb_false_r. }
  pose proof (filter_key_length stop_point_id k _ Hnd) as Hlen.
  destruct (Nat.ltb_spec
              (List.length (List.filter (fun sp => (stop_point_id sp =? k)%Z)
                                        (sl_bus_stop_points db))) 2);
    [reflexivity | lia].
Qed.

End Finishing.

Section CityFinishing.
Import DB PathSolver Route Engine.

(** A ride from Odenplan A to Odenplan A. *)
Lemma calculateBusRideDGVI_degenerate_witness :
  RouteDGVI.calculateBusRideDGVI City.pg reference_dijkstra City.db 100 100 "2025-08"
  = RouteDGVI.no_bus_ride.
Proof.
  apply (calculateBusRideDGVI_degenerate City.pg reference_dijkstra City.db 100 100).
  - vm_compute. repeat constructor; simpl; intuition discriminate.
  - left. reflexivity.
Defined.

End CityFinishing.

(** ** The example city, continued *)

Section CityExamples.
Import DB PathSolver Route Engine.

(** Journey 5001 of line 50 is seen at Odenplan (stop 100, at 400 s) and at
    Tekniska (stop 900, at 1000 s): the builder stores the link 100 -> 900,
    and a second pass over the same sites stores nothing. *)
Example city_saved_sequences :
  let first := Builder.processSiteBatch City.feed [] [1; 2; 3; 8; 9]%Z in
  first
  = ([ {| Builder.tr_line_id := Some 50%Z; Builder.tr_direction_code := Some 1%Z;
          Builder.tr_stop_point_id := 100; Builder.tr_next_stop_point_id := 900;
          Builder.tr_journey_id := 5001 |} ], 1%nat) /\
  Builder.processSiteBatch City.feed (fst first) [1; 2; 3; 8; 9]%Z = (fst first, O).
Proof. by vm_compute. Qed.

(** Line 30 from Stadsbiblioteket B to Tekniska A passes Roslagstull A. *)
Example city_stops_along :
  List.map (fun s => (sa_stopPointId s, sa_sequenceOrder s))
           (getStopsAlongBusRide City.db (Some 30%Z) (Some 1%Z) 201 900)
  = [(201, 1); (800, 2)]%Z /\
  Transfer.checkJourneyDestinations City.db (Some 30%Z) (Some 1%Z) 201 [9; 2; 8]%Z
  = [8; 9]%Z.
Proof. by vm_compute. Qed.

(** An agent that rides 100 -> 200 -> 800, and one that is sent back to its
    start. *)
Example city_agent_walk :
  (match Agent.moves (Agent.new 100 0 0) [(200, 90000); (800, 180000)]%Z with
   | Normal a =>
       Agent.visitedStops a = [100; 200; 800]%Z /\
       List.map Agent.travelTime (Agent.routeChain a) = [0; 0]%Z
   | Thrown _ => False
   end) /\
  Agent.moves (Agent.new 100 0 0) [(200, 90000); (100, 180000)]%Z
  = Thrown "Loop detected: stop already visited".
Proof. by vm_compute. Qed.

(** The handlers on the example city: a month without data and a request
    from the corner (0, 0) are refused, the latter because the coordinate 0
    is read as missing. *)
Example city_handlers :
  let request (o d : Point) (mo : option string) :=
    {| Api.pr_origin := Some (to_latlon o);
       Api.pr_destination := Some (to_latlon d);
       Api.pr_gvi_month := mo; Api.pr_preferences := None;
       Api.pr_max_results := Some 1%Z |} in
  let answer r :=
    Api.plan_routes City.pg reference_dijkstra City.db City.feed 0 r in
  Api.status (snd (Api.update_dgvi City.pg City.db0 (Some "2025-08"))) = 200%Z /\
  snd (Api.update_dgvi City.pg City.db0 (Some "2025-09"))
  = Api.BadRequest "Invalid month" /\
  Api.status (answer (request (0, 0)%Q (10, 10)%Q None)) = 400%Z /\
  Api.status (answer (request (10, 10)%Q (20, 10)%Q (Some "2025-13"))) = 400%Z /\
  match answer (request (10, 10)%Q (20, 10)%Q None) with
  | Api.Ok body => Api.total_routes body = 1%nat /\ Api.used_gvi_month body = "2025-08"
  | _ => False
  end.
Proof. by vm_compute. Qed.

End CityExamples.
